(** * leech_bot: the download engine, the validators and the handlers

    A shallow embedding of [bot/downloader.py], [bot/validators.py] and of
    the handlers of [bot/handlers.py], followed by the properties proved
    about them.

    Conventions of the embedding:
    - a Python [str] is the list of its code points ([N]); [len] is [length];
    - a Python [bytes] value is a [list byte];
    - a Python [float] is an IEEE-754 binary64 value, [spec_float] with
      [prec = 53] and [emax = 1024], and float arithmetic is the Standard
      Library's reference implementation ([SFdiv], [SFmul]);
    - a reading of [time.time()] is a rational number of seconds since the
      epoch, and arithmetic on clock readings is exact;
    - dictionaries are [gmap]s; the file system is a [gmap] from paths to
      contents with a free-space counter, a block size and the paths that
      cannot be opened or removed; a write to the open file goes through
      its buffer, as [io.BufferedWriter] has it;
    - code that can raise runs in a state-and-exception monad whose state
      survives the exception, as the effects of Python code do;
    - the network, the Bot API, the clock and the two checks of
      [urllib.parse] that consult other modules are inputs of the model. *)

From Stdlib Require Import ZArith NArith QArith Lqa Ascii String Sorted Lia.
From Stdlib Require Import Strings.Byte.
From Stdlib Require Import Floats.SpecFloat.
From Stdlib Require Import DecimalString DecimalZ DecimalPos.
From stdpp Require Import gmap list.

Local Open Scope Z_scope.

(** ** Python strings *)

Module PyStr.

(** A character is its code point; a string is the list of its
    characters. *)
Abbreviation char := N (only parsing).
Abbreviation str := (list N) (only parsing).

(** The code points of a literal written in ASCII. *)
Definition lit (s : string) : str :=
  List.map N_of_ascii (list_ascii_of_string s).

Definition char_eqb (a b : char) : bool := N.eqb a b.

Definition ch (a : ascii) : char := N_of_ascii a.

(** Number of bytes of the UTF-8 encoding of a string. *)
Definition utf8_len1 (c : char) : nat :=
  if (c <? 128)%N then 1%nat
  else if (c <? 2048)%N then 2%nat
  else if (c <? 65536)%N then 3%nat
  else 4%nat.

Definition utf8_len (s : str) : nat :=
  List.fold_right (fun c n => (utf8_len1 c + n)%nat) 0%nat s.

(** [s.lstrip(chars)], [s.rstrip(chars)] and [s.strip(chars)], the set
    [chars] given by its membership test. *)
Fixpoint lstrip (p : char -> bool) (s : str) : str :=
  match s with
  | [] => []
  | c :: s' => if p c then lstrip p s' else s
  end.

Fixpoint rstrip (p : char -> bool) (s : str) : str :=
  match s with
  | [] => []
  | c :: s' =>
      match rstrip p s' with
      | [] => if p c then [] else [c]
      | r => c :: r
      end
  end.

Definition strip (p : char -> bool) (s : str) : str :=
  rstrip p (lstrip p s).

(** [s.split(sep)] for a one-character separator: never empty. *)
Fixpoint split (sep : char) (s : str) : list str :=
  match s with
  | [] => [[]]
  | c :: s' =>
      if char_eqb c sep then [] :: split sep s'
      else match split sep s' with
           | [] => [[c]]
           | x :: xs => (c :: x) :: xs
           end
  end.

(** [s.rfind(c)]: the last index of [c], or -1. *)
Fixpoint rfind_from (c : char) (i : Z) (found : Z) (s : str) : Z :=
  match s with
  | [] => found
  | d :: s' => rfind_from c (i + 1) (if char_eqb d c then i else found) s'
  end.

Definition rfind (c : char) (s : str) : Z := rfind_from c 0 (-1) s.

(** Slices [s[:i]] and [s[i:]] for [0 <= i]. *)
Definition slice_to (i : Z) (s : str) : str := firstn (Z.to_nat i) s.
Definition slice_from (i : Z) (s : str) : str := skipn (Z.to_nat i) s.

(** [s.startswith(p)], returning what follows the prefix. *)
Fixpoint strip_prefix (p s : str) : option str :=
  match p, s with
  | [], _ => Some s
  | a :: p', b :: s' => if char_eqb a b then strip_prefix p' s' else None
  | _ :: _, [] => None
  end.

Definition startswith (p s : str) : bool :=
  match strip_prefix p s with Some _ => true | None => false end.

Definition endswith_char (c : char) (s : str) : bool :=
  match List.rev s with
  | d :: _ => char_eqb d c
  | [] => false
  end.

Definition is_empty (s : str) : bool :=
  match s with [] => true | _ => false end.

(** The characters [str.isspace] holds of: those [s.strip()] removes. *)
Definition isspace (c : char) : bool :=
  ((9 <=? c) && (c <=? 13) || (28 <=? c) && (c <=? 32) || (c =? 133) || (c =? 160)
   || (c =? 5760) || (8192 <=? c) && (c <=? 8202) || (c =? 8232)
   || (c =? 8233) || (c =? 8239) || (c =? 8287) || (c =? 12288))%N.

(** [c in s] for a string [c] of one character. *)
Definition contains (c : char) (s : str) : bool := existsb (char_eqb c) s.

(** [s.find(c, start)] for [0 <= start]: the first index of [c] from
    [start] on, or -1. *)
Fixpoint find_at (c : char) (i : Z) (s : str) : Z :=
  match s with
  | [] => -1
  | d :: s' => if char_eqb d c then i else find_at c (i + 1) s'
  end.

Definition find (c : char) (start : Z) (s : str) : Z :=
  find_at c start (slice_from start s).

(** [s.replace(c, '')] for a string [c] of one character. *)
Definition remove_char (c : char) (s : str) : str :=
  List.filter (fun d => negb (char_eqb d c)) s.

(** [s.lower()] on the letters A to Z; the code applies it to ASCII
    strings only. *)
Definition ascii_lower (c : char) : char :=
  if ((65 <=? c) && (c <=? 90))%N then (c + 32)%N else c.

Definition lower (s : str) : str := List.map ascii_lower s.

(** [a == b] on strings. *)
Definition str_eqb (a b : str) : bool := bool_decide (a = b).

End PyStr.

Import PyStr.

(** ** os.path (posixpath) *)

Module OsPath.

Definition sep : char := ch "/".
Definition extsep : char := ch ".".

(** [genericpath._splitext(p, sep, altsep=None, extsep)]: the extension
    starts at the last dot, unless only dots lie between the last separator
    and that dot.  The [while] loop of the source walks the indices from
    [sepIndex + 1] up to [dotIndex] and returns at the first character that
    is not a dot; [has_non_dot] walks the same characters. *)
Fixpoint has_non_dot (s : str) : bool :=
  match s with
  | [] => false
  | c :: s' => if char_eqb c extsep then has_non_dot s' else true
  end.

Definition splitext (p : str) : str * str :=
  let sepIndex := rfind sep p in
  let dotIndex := rfind extsep p in
  if dotIndex >? sepIndex then
    if has_non_dot (slice_from (sepIndex + 1) (slice_to dotIndex p))
    then (slice_to dotIndex p, slice_from dotIndex p)
    else (p, [])
  else (p, []).

(** [os.path.join(a, b)]. *)
Definition join (a b : str) : str :=
  if startswith [sep] b then b
  else if is_empty a || endswith_char sep a then a ++ b
  else a ++ [sep] ++ b.

End OsPath.

(** ** Python numbers *)

Module PyNum.

(** *** [int(s)] for a string

    Surrounding white space is dropped, then an optional sign and decimal
    digits follow, single underscores being allowed between digits.  The
    white space [int] accepts is the ASCII set of the C locale and the
    Unicode spaces above U+007F.  Decimal digits other than 0 to 9 are not
    modelled: header values are decoded as Latin-1, where there are none.
    A literal of more than 4300 digits is refused, leading zeros counted:
    the default of [sys.set_int_max_str_digits].  [None] stands for
    [ValueError]. *)
Definition int_space (c : char) : bool :=
  ((9 <=? c) && (c <=? 13) || (c =? 32) || (c =? 133) || (c =? 160)
   || (c =? 5760) || (8192 <=? c) && (c <=? 8202) || (c =? 8232)
   || (c =? 8233) || (c =? 8239) || (c =? 8287) || (c =? 12288))%N.

Definition is_digit (c : char) : bool := ((48 <=? c) && (c <=? 57))%N.

Definition digit_value (c : char) : Z := Z.of_N c - 48.

Fixpoint digits_value (acc : Z) (after_digit : bool) (s : str) : option Z :=
  match s with
  | [] => if after_digit then Some acc else None
  | c :: s' =>
      if is_digit c then digits_value (10 * acc + digit_value c) true s'
      else if char_eqb c (ch "_") && after_digit then digits_value acc false s'
      else None
  end.

Definition int_max_str_digits : nat := 4300.

Definition int_of_str (s : str) : option Z :=
  if (int_max_str_digits <? length (List.filter is_digit s))%nat then None
  else
    match strip int_space s with
    | [] => None
    | c :: s' =>
        if char_eqb c (ch "-") then option_map Z.opp (digits_value 0 false s')
        else if char_eqb c (ch "+") then digits_value 0 false s'
        else digits_value 0 false (c :: s')
    end.

(** *** Floats: binary64 *)

Definition prec : Z := 53.
Definition emax : Z := 1024.

(** An integer as an exact (not normalised) finite float. *)
Definition float_of_int (z : Z) : spec_float :=
  match z with
  | Z0 => S754_zero false
  | Zpos p => S754_finite false p 0
  | Zneg p => S754_finite true p 0
  end.

(** [a / b] on integers: the quotient of the two integers rounded once to
    the nearest double, ties to even.  [SFdiv] aligns its operands by their
    bit lengths, so the integer operands need not be rounded first.  [None]
    stands for [ZeroDivisionError] or [OverflowError]. *)
Definition truediv (a b : Z) : option spec_float :=
  if b =? 0 then None
  else match SFdiv prec emax (float_of_int a) (float_of_int b) with
       | S754_infinity _ | S754_nan => None
       | q => Some q
       end.

(** [x * n] for a float [x] and an integer [n]. *)
Definition mul_int (x : spec_float) (n : Z) : spec_float :=
  SFmul prec emax x (float_of_int n).

(** [math.floor(x)]; [None] stands for the error raised on an infinity or
    a NaN. *)
Definition floor (x : spec_float) : option Z :=
  match x with
  | S754_zero _ => Some 0
  | S754_finite s m e =>
      Some match e with
           | Zneg k =>
               if s then - ((Zpos m + 2 ^ Zpos k - 1) / 2 ^ Zpos k)
               else Zpos m / 2 ^ Zpos k
           | _ => (if s then - Zpos m else Zpos m) * 2 ^ e
           end
  | S754_infinity _ | S754_nan => None
  end.

(** [int(q)] for a rational clock difference: truncation towards zero. *)
Definition int_of_Q (q : Q) : Z := Z.quot (Qnum q) (Zpos (Qden q)).

Definition Qltb (x y : Q) : bool := negb (Qle_bool y x).

(** [str(n)] for an integer: its decimal digits, after a minus sign when it
    is negative. *)
Definition str_of_int (n : Z) : str := lit (NilZero.string_of_int (Z.to_int n)).

(** [int(x)] for a float: truncation towards zero; [None] stands for the
    error raised on an infinity or a NaN. *)
Definition int_of_float (x : spec_float) : option Z :=
  match x with
  | S754_zero _ => Some 0
  | S754_finite s m e =>
      let magnitude := match e with
                       | Zneg k => Zpos m / 2 ^ Zpos k
                       | _ => Zpos m * 2 ^ e
                       end in
      Some (if s then - magnitude else magnitude)
  | S754_infinity _ | S754_nan => None
  end.

(** [format(x, '.2f')]: the decimal with two digits after the point that is
    nearest to the float, the nearest with an even last digit when two are
    as near. *)
Definition round_half_even (num den : Z) : Z :=
  let q := num / den in
  let r := num mod den in
  if 2 * r <? den then q
  else if den <? 2 * r then q + 1
  else if Z.even q then q else q + 1.

Definition hundredths (m : positive) (e : Z) : Z :=
  match e with
  | Zneg k => round_half_even (Zpos m * 100) (2 ^ Zpos k)
  | _ => Zpos m * 2 ^ e * 100
  end.

Definition two_digits (n : Z) : str :=
  if n <? 10 then ch "0" :: str_of_int n else str_of_int n.

Definition format_2f (x : spec_float) : str :=
  match x with
  | S754_zero s => (if s then lit "-" else []) ++ lit "0.00"
  | S754_finite s m e =>
      let h := hundredths m e in
      (if s then lit "-" else [])
        ++ str_of_int (h / 100) ++ lit "." ++ two_digits (h mod 100)
  | S754_infinity s => if s then lit "-inf" else lit "inf"
  | S754_nan => lit "nan"
  end.

End PyNum.

Import PyNum.

(** ** bot/downloader.py *)

Module Downloader.

Definition CONNECT_TIMEOUT : Z := 30.
Definition READ_TIMEOUT : Z := 1800.
Definition CHUNK_SIZE : Z := 8192.

Definition default_name : str := lit "downloaded_file".

(** The character class of the pattern given to [re.sub]: the code points
    0 to 31 and the nine characters listed below (angle brackets, colon,
    double quote, slash, backslash, bar, question mark, star). *)
Definition illegal (c : char) : bool :=
  (c <=? 31)%N
  || char_eqb c (ch "<") || char_eqb c (ch ">") || char_eqb c (ch ":")
  || char_eqb c 34%N (* double quote *)
  || char_eqb c (ch "/") || char_eqb c 92%N (* backslash *)
  || char_eqb c (ch "|") || char_eqb c (ch "?") || char_eqb c (ch "*").

Definition re_sub_illegal (s : str) : str :=
  List.map (fun c => if illegal c then ch "_" else c) s.

(** The characters of [strip('. ')]. *)
Definition dot_or_space (c : char) : bool :=
  char_eqb c (ch ".") || char_eqb c (ch " ").

Definition sanitize_filename (filename : str) : str :=
  let filename := re_sub_illegal filename in
  let filename := strip dot_or_space filename in
  let filename := if is_empty filename then default_name else filename in
  if (255 <? length filename)%nat then
    let '(name, ext) := OsPath.splitext filename in
    slice_to 250 name ++ ext
  else filename.

(** [path_parts[-1]] if [path_parts] is not empty, else the default. *)
Definition last_part (path_parts : list str) : str :=
  match path_parts with
  | [] => default_name
  | _ => List.last path_parts []
  end.

Definition extract_filename_from_url (url : str) : str :=
  let path_parts := split (ch "/") url in
  let filename := last_part path_parts in
  let filename := List.hd [] (split (ch "?") filename) in
  let filename := if is_empty filename then default_name else filename in
  sanitize_filename filename.

(** *** The Content-Disposition pattern

    [re.findall] with the pattern made of: the word filename, an optional
    star, an equals sign, group 1 (an optional single or double quote,
    greedy), group 2 (one or more characters other than a newline, lazy),
    a back-reference to group 1, and a semicolon or the end of the string.
    The code reads group 2 of the first match.  The matcher below follows
    the backtracking order of the pattern. *)

Definition newline : char := 10%N.
Definition dquote : char := 34%N.
Definition squote : char := 39%N.

(** [(?:;|$)] at the remaining subject [rest]: a semicolon, the end of the
    string, or the position before a final newline. *)
Definition semi_or_end (rest : str) : bool :=
  match rest with
  | [] => true
  | [c] => char_eqb c (ch ";") || char_eqb c newline
  | c :: _ => char_eqb c (ch ";")
  end.

(** [\1(?:;|$)], group 1 being the quote [q] or empty. *)
Definition closes (q : option char) (rest : str) : bool :=
  match q with
  | None => semi_or_end rest
  | Some qc =>
      match rest with
      | d :: rest' => char_eqb d qc && semi_or_end rest'
      | [] => false
      end
  end.

(** [(.+?)] once it holds [acc]: stop at the first position where the rest
    of the pattern matches, else take one more character other than a
    newline. *)
Fixpoint lazy_more (q : option char) (acc rest : str) : option str :=
  if closes q rest then Some acc
  else match rest with
       | [] => None
       | c :: rest' =>
           if char_eqb c newline then None
           else lazy_more q (acc ++ [c]) rest'
       end.

Definition lazy_group (q : option char) (s : str) : option str :=
  match s with
  | [] => None
  | c :: rest => if char_eqb c newline then None else lazy_more q [c] rest
  end.

(** The pattern matched at the start of [s]; the result is group 2. *)
Definition match_here (s : str) : option str :=
  match strip_prefix (lit "filename") s with
  | None => None
  | Some s1 =>
      let s2 := match s1 with
                | c :: t => if char_eqb c (ch "*") then t else s1
                | [] => s1
                end in
      match s2 with
      | [] => None
      | e :: s3 =>
          if char_eqb e (ch "=") then
            match s3 with
            | [] => None
            | c :: s4 =>
                if char_eqb c dquote || char_eqb c squote then
                  match lazy_group (Some c) s4 with
                  | Some g => Some g
                  | None => lazy_group None s3
                  end
                else lazy_group None s3
            end
          else None
      end
  end.

(** Group 2 of the leftmost match, [matches[0][1]]. *)
Fixpoint first_match (s : str) : option str :=
  match match_here s with
  | Some g => Some g
  | None =>
      match s with
      | [] => None
      | _ :: s' => first_match s'
      end
  end.

(** What follows the first pair of single quotes, when there is one:
    the second part of [filename.split(pair, 1)]. *)
Fixpoint after_quote_pair (s : str) : option str :=
  match s with
  | a :: s' =>
      match s' with
      | b :: t =>
          if char_eqb a squote && char_eqb b squote then Some t
          else after_quote_pair s'
      | [] => None
      end
  | [] => None
  end.

(** The two header fields the code reads with [headers.get]. *)
Record headers := {
  content_disposition : option str;
  content_length : option str;
}.

Definition extract_filename_from_headers (h : headers) : option str :=
  match content_disposition h with
  | None => None
  | Some cd =>
      if is_empty cd then None
      else match first_match cd with
           | Some filename =>
               let filename := match after_quote_pair filename with
                               | Some t => t
                               | None => filename
                               end in
               Some (sanitize_filename filename)
           | None => None
           end
  end.

(** *** The environment of a transfer

    The network and the file system are inputs of the model.  A request
    either raises one of the [requests] exceptions or answers;
    [os.makedirs] succeeds; the progress callback returns normally. *)

(** [requests.exceptions]: [Timeout], [HTTPError], [ConnectionError], and
    [RequestException] for every other request failure. *)
Inductive requests_exception :=
  | Timeout
  | HTTPError (status_code : Z) (reason : str)
  | ConnectionError
  | RequestException.

(** What [requests.head] does. *)
Inductive head_outcome :=
  | HeadRaises (e : requests_exception)
  | HeadResponse (h : headers).

(** The response to [requests.get]: status line, headers, the chunks
    [iter_content] yields, and the failure that ends the stream early,
    if any. *)
Record response := {
  status_code : Z;
  reason : str;
  resp_headers : headers;
  body : list (list byte);
  body_error : option requests_exception;
}.

Inductive get_outcome :=
  | GetRaises (e : requests_exception)
  | GetResponse (r : response).

Record network := {
  requests_head : head_outcome;
  requests_get : get_outcome;
}.

(** The file system: what exists at each path, with its content; the paths
    that cannot be opened for writing; the paths at which [os.remove]
    fails; the block size the device reports for a file; and the number of
    bytes that can still be written.  A directory at a path is an entry
    that can be neither opened for writing nor removed. *)
Record filesystem := {
  files : gmap str (list byte);
  denied : gset str;
  undeletable : gset str;
  st_blksize : nat;
  free : nat;
}.

Definition path_exists (path : str) (fs : filesystem) : bool :=
  bool_decide (is_Some (files fs !! path)).

(** What [os.remove(path)] does when it succeeds. *)
Definition remove (path : str) (fs : filesystem) : filesystem :=
  {| files := delete path (files fs);
     denied := denied fs;
     undeletable := undeletable fs;
     st_blksize := st_blksize fs;
     free := free fs + length (default [] (files fs !! path)) |}.

(** [os.remove(path)] for a path that exists; [None] stands for
    [OSError]. *)
Definition os_remove (path : str) (fs : filesystem) : option filesystem :=
  if bool_decide (path ∈ undeletable fs) then None else Some (remove path fs).

(** [open(path, 'wb')]: creates the file or truncates it; [None] stands for
    [OSError]. *)
Definition open_wb (path : str) (fs : filesystem) : option filesystem :=
  if bool_decide (path ∈ denied fs) then None
  else Some {| files := <[path := []]> (files fs);
               denied := denied fs;
               undeletable := undeletable fs;
               st_blksize := st_blksize fs;
               free := free fs + length (default [] (files fs !! path)) |}.

(** One write of the operating system to the open file: appends; when the
    device is full the bytes that fit are written and the boolean is
    [false]. *)
Definition write (path : str) (data : list byte) (fs : filesystem)
  : filesystem * bool :=
  let old := default [] (files fs !! path) in
  ({| files := <[path := old ++ firstn (free fs) data]> (files fs);
      denied := denied fs;
      undeletable := undeletable fs;
      st_blksize := st_blksize fs;
      free := free fs - length data |},
   bool_decide (length data <= free fs)%nat).

(** The size of the buffer [open] gives a binary file: the block size of
    the device, [io.DEFAULT_BUFFER_SIZE] when it reports none. *)
Definition DEFAULT_BUFFER_SIZE : nat := N.to_nat 8192.

Definition buffer_size (fs : filesystem) : nat :=
  if (1 <? st_blksize fs)%nat then st_blksize fs else DEFAULT_BUFFER_SIZE.

(** *** Exceptions and the monad of the [try] block *)

(** What can be raised inside the [try] block of [download_file]. *)
Inductive inner_exn :=
  | Requests (e : requests_exception)
  | OS_error
  | Value_error      (* [int] on a malformed literal *)
  | Overflow_error.  (* a float too large *)

(** What leaves [download_file]: the five errors its handlers raise, or an
    exception no handler catches, the [OSError] of a clean-up that fails
    among them. *)
Inductive download_error :=
  | TimeoutError
  | HttpValueError (status_code : Z) (reason : str)
  | ConnectionFailed
  | RuntimeError
  | WriteError
  | Unhandled (e : inner_exn).

Definition classified (e : download_error) : bool :=
  match e with
  | Unhandled _ => false
  | _ => true
  end.

(** The state a transfer acts on: the file system and the percentages
    passed to the progress callback so far, oldest first. *)
Record world := {
  fs : filesystem;
  reported : list Z;
}.

(** The state inside the [try] block: the world, and the bytes the open
    file [f] holds in its buffer, not yet written. *)
Record running := {
  seen : world;
  buffer : list byte;
}.

Definition with_fs (f : filesystem) (s : running) : running :=
  {| seen := {| fs := f; reported := reported (seen s) |}; buffer := buffer s |}.

Definition with_buffer (b : list byte) (s : running) : running :=
  {| seen := seen s; buffer := b |}.

Definition M (A : Type) : Type := running -> running * (inner_exn + A).

Definition ret {A} (a : A) : M A := fun w => (w, inr a).
Definition raise {A} (e : inner_exn) : M A := fun w => (w, inl e).
Definition bind {A B} (m : M A) (k : A -> M B) : M B :=
  fun w => match m w with
           | (w', inl e) => (w', inl e)
           | (w', inr a) => k a w'
           end.

Notation "'let!' x ':=' m 'in' k" := (bind m (fun x => k))
  (at level 10, x name, m at level 100, k at level 200).
Notation "m '>>>' k" := (bind m (fun _ => k))
  (at level 90, right associativity).

Definition do_open (path : str) : M unit :=
  fun s => match open_wb path (fs (seen s)) with
           | Some fs' => (with_buffer [] (with_fs fs' s), inr tt)
           | None => (s, inl OS_error)
           end.

(** The buffer is written out, in as many writes as it takes; when the
    device is full the bytes that did not fit stay in the buffer and the
    boolean is [false], standing for [OSError]. *)
Definition flush (path : str) (s : running) : running * bool :=
  let '(fs', ok) := write path (buffer s) (fs (seen s)) in
  (with_buffer (skipn (free (fs (seen s))) (buffer s)) (with_fs fs' s), ok).

(** [f.write(data)] on the buffered file.  Data that fit in the buffer are
    kept there.  Otherwise the buffer is written out first; then data
    longer than the buffer are written at once, and of a write cut short by
    a full device the rest is kept if it fits in the buffer; shorter data
    are kept in the buffer. *)
Definition do_write (path : str) (data : list byte) : M unit :=
  fun s =>
    let size := buffer_size (fs (seen s)) in
    if (length data <=? size - length (buffer s))%nat
    then (with_buffer (buffer s ++ data) s, inr tt)
    else
      let '(s1, ok) := flush path s in
      if negb ok then (s1, inl OS_error)
      else if (length data <=? size)%nat then (with_buffer data s1, inr tt)
      else
        let '(fs2, fits) := write path data (fs (seen s1)) in
        let rest := skipn (free (fs (seen s1))) data in
        if fits then (with_buffer [] (with_fs fs2 s1), inr tt)
        else if (size <? length rest)%nat then (with_fs fs2 s1, inl OS_error)
        else (with_buffer rest (with_fs fs2 s1), inr tt).

(** The end of [with open(...) as f]: the file is closed on every way out
    of the block, which writes the buffer out; an [OSError] of that write
    takes the place of the exception under way. *)
Definition with_file {A} (path : str) (body : M A) : M A :=
  fun s =>
    let '(s1, out) := body s in
    let '(s2, ok) := flush path s1 in
    (with_buffer [] s2, if ok then out else inl OS_error).

Definition call_progress (percent : Z) : M unit :=
  fun s => ({| seen := {| fs := fs (seen s);
                          reported := reported (seen s) ++ [percent] |};
               buffer := buffer s |}, inr tt).

Definition of_option {A} (e : inner_exn) (o : option A) : M A :=
  match o with
  | Some a => ret a
  | None => raise e
  end.

(** [int(headers.get('Content-Length', 0))]. *)
Definition content_length_int (h : headers) : option Z :=
  match content_length h with
  | None => Some 0
  | Some v => int_of_str v
  end.

(** [math.floor(received / total_size * 100)]. *)
Definition percent_of (received total_size : Z) : option Z :=
  match truediv received total_size with
  | Some q => floor (mul_int q 100)
  | None => None
  end.

(** *** download_file *)

(** The number of megabytes a log line shows, [n / (1024**2)]; [None]
    stands for [OverflowError]. *)
Definition megabytes (n : Z) : option spec_float := truediv n (1024 ^ 2).

(** Lines 108 to 129: the HEAD request.  Any [requests] exception is
    caught; the [ValueError] of [int] is not, nor the [OverflowError] of
    the division in the log line of a positive size. *)
Definition probe (url : str) (h : head_outcome) : inner_exn + (str * Z) :=
  match h with
  | HeadResponse hs =>
      let filename :=
        match extract_filename_from_headers hs with
        | Some f => if is_empty f then extract_filename_from_url url else f
        | None => extract_filename_from_url url
        end in
      match content_length_int hs with
      | Some total_size =>
          if total_size >? 0 then
            match megabytes total_size with
            | Some _ => inr (filename, total_size)
            | None => inl Overflow_error
            end
          else inr (filename, total_size)
      | None => inl Value_error
      end
  | HeadRaises _ => inr (extract_filename_from_url url, 0)
  end.

(** Lines 159 to 169: the loop over [iter_content]. *)
Fixpoint receive (progress_callback : bool) (local_path : str) (total_size : Z)
    (chunks : list (list byte)) (received last_percent : Z) : M (Z * Z) :=
  match chunks with
  | [] => ret (received, last_percent)
  | chunk :: rest =>
      match chunk with
      | [] => receive progress_callback local_path total_size rest
                received last_percent
      | _ =>
          do_write local_path chunk >>>
          let received := received + Z.of_nat (length chunk) in
          let! last_percent :=
            (if progress_callback && (total_size >? 0) then
               let! current_percent :=
                 of_option Overflow_error (percent_of received total_size) in
               if current_percent >? last_percent then
                 call_progress current_percent >>> ret current_percent
               else ret last_percent
             else ret last_percent) in
          receive progress_callback local_path total_size rest
            received last_percent
      end
  end.

(** Lines 140 to 176: the body of the [try] block.  The stream fails, if
    it does, inside the loop, where the file is open. *)
Definition transfer (progress_callback : bool) (local_path : str)
    (total_size : Z) (g : get_outcome) : M str :=
  match g with
  | GetRaises e => raise (Requests e)
  | GetResponse r =>
      (* response.raise_for_status() *)
      (if (400 <=? status_code r) && (status_code r <? 600)
       then raise (Requests (HTTPError (status_code r) (reason r)))
       else ret tt) >>>
      let! total_size :=
        (if total_size =? 0
         then of_option Value_error (content_length_int (resp_headers r))
         else ret total_size) in
      do_open local_path >>>
      let! rl :=
        with_file local_path
          (let! rl :=
             receive progress_callback local_path total_size (body r) 0 (-1) in
           (match body_error r with
            | Some e => raise (Requests e)
            | None => ret tt
            end) >>>
           ret rl) in
      (if progress_callback && (total_size >? 0) && (snd rl <? 100)
       then call_progress 100
       else ret tt) >>>
      (* the log line of line 175 *)
      of_option Overflow_error (megabytes (fst rl)) >>>
      ret local_path
  end.

(** [if os.path.exists(local_path): os.remove(local_path)]; [None] stands
    for the [OSError] of [os.remove]. *)
Definition cleanup (local_path : str) (w : world) : option world :=
  if path_exists local_path (fs w)
  then match os_remove local_path (fs w) with
       | Some fs' => Some {| fs := fs'; reported := reported w |}
       | None => None
       end
  else Some w.

(** An [except] clause: the clean-up, then the error it raises; an
    [OSError] of the clean-up leaves the clause in its place. *)
Definition reraise (local_path : str) (w : world) (err : download_error)
  : world * download_error :=
  match cleanup local_path w with
  | Some w' => (w', err)
  | None => (w, Unhandled OS_error)
  end.

(** Lines 178 to 210: the [except] clauses, in their order. *)
Definition handle (local_path : str) (e : inner_exn) (w : world)
  : world * download_error :=
  match e with
  | Requests Timeout => reraise local_path w TimeoutError
  | Requests (HTTPError s r) => reraise local_path w (HttpValueError s r)
  | Requests ConnectionError => reraise local_path w ConnectionFailed
  | Requests RequestException => reraise local_path w RuntimeError
  | OS_error => reraise local_path w WriteError
  | Value_error => (w, Unhandled Value_error)
  | Overflow_error => (w, Unhandled Overflow_error)
  end.

(** [download_file(url, progress_callback)] against the network [net], with
    temporary directory [temp_dir] and file system [fs0].  The boolean
    says whether a callback is given.  [os.makedirs(temp_dir)] has no
    counterpart: directories are not part of [filesystem]. *)
Definition download_file (url : str) (progress_callback : bool)
    (temp_dir : str) (net : network) (fs0 : filesystem)
  : world * (download_error + str) :=
  let w0 := {| fs := fs0; reported := [] |} in
  match probe url (requests_head net) with
  | inl e => (w0, inl (Unhandled e))
  | inr (filename, total_size) =>
      let local_path := OsPath.join temp_dir filename in
      match transfer progress_callback local_path total_size (requests_get net)
              {| seen := w0; buffer := [] |} with
      | (s, inr path) => (seen s, inr path)
      | (s, inl e) =>
          let '(w', err) := handle local_path e (seen s) in (w', inl err)
      end
  end.

(** The local path [download_file] computes, when the probe does not
    raise. *)
Definition local_path_of (url temp_dir : str) (net : network) : option str :=
  match probe url (requests_head net) with
  | inl _ => None
  | inr (filename, _) => Some (OsPath.join temp_dir filename)
  end.

(** The total size the loop works with: the probe's, or the one of the GET
    response when the probe's is 0. *)
Definition total_size_of (url : str) (net : network) : option Z :=
  match probe url (requests_head net) with
  | inl _ => None
  | inr (_, total_size) =>
      if total_size =? 0 then
        match requests_get net with
        | GetResponse r => content_length_int (resp_headers r)
        | GetRaises _ => Some 0
        end
      else Some total_size
  end.

End Downloader.

(** ** urllib.parse *)

Module UrlParse.

Definition ascii_letter (c : char) : bool :=
  ((65 <=? c) && (c <=? 90) || (97 <=? c) && (c <=? 122))%N.

(** The letters, the digits, and the plus, minus and dot signs. *)
Definition scheme_chars (c : char) : bool :=
  ascii_letter c || is_digit c
  || char_eqb c (ch "+") || char_eqb c (ch "-") || char_eqb c (ch ".").

(** The code points 0 to 32. *)
Definition WHATWG_C0_CONTROL_OR_SPACE (c : char) : bool := (c <=? 32)%N.

(** Tab, carriage return, newline. *)
Definition UNSAFE_URL_BYTES_TO_REMOVE : list char := [9; 13; 10]%N.

(** Two checks of [urlsplit] are inputs of the model, each a function that
    says whether the check returns normally: the one of a bracketed host,
    which parses an IP address, and the one of a netloc that is not ASCII,
    which consults the Unicode database. *)
Record checks := {
  check_bracketed_netloc : str -> bool;
  nfkc_check : str -> bool;
}.

(** [_splitnetloc(url, start)]. *)
Definition splitnetloc (url : str) (start : Z) : str * str :=
  let delim :=
    List.fold_left
      (fun delim c =>
         let wdelim := find c start url in
         if wdelim >=? 0 then Z.min delim wdelim else delim)
      [ch "/"; ch "?"; ch "#"] (Z.of_nat (length url)) in
  (slice_to (delim - start) (slice_from start url), slice_from delim url).

(** [_checknetloc(netloc)]. *)
Definition checknetloc (lib : checks) (netloc : str) : bool :=
  is_empty netloc || forallb (fun c => (c <? 128)%N) netloc || nfkc_check lib netloc.

(** The scheme and the netloc of [urlsplit(url)], which are those of
    [urlparse(url)]; [None] stands for [ValueError].  The other components
    are not read by the caller, and computing them raises nothing. *)
Definition urlsplit (lib : checks) (url : str) : option (str * str) :=
  let url := lstrip WHATWG_C0_CONTROL_OR_SPACE url in
  let url := List.fold_left (fun url b => remove_char b url)
               UNSAFE_URL_BYTES_TO_REMOVE url in
  let i := find (ch ":") 0 url in
  let '(scheme, url) :=
    if (i >? 0) && ascii_letter (List.nth 0 url 0%N)
       && forallb scheme_chars (slice_to i url)
    then (lower (slice_to i url), slice_from (i + 1) url)
    else ([], url) in
  if str_eqb (slice_to 2 url) (lit "//") then
    let '(netloc, _) := splitnetloc url 2 in
    if contains (ch "[") netloc && negb (contains (ch "]") netloc)
       || contains (ch "]") netloc && negb (contains (ch "[") netloc)
    then None
    else if contains (ch "[") netloc && contains (ch "]") netloc
            && negb (check_bracketed_netloc lib netloc)
    then None
    else if checknetloc lib netloc then Some (scheme, netloc) else None
  else Some (scheme, []).

Definition urlparse := urlsplit.

End UrlParse.

(** ** bot/validators.py *)

Module Validators.

Definition REQUEST_COOLDOWN : Q := 10.

(** [check_rate_limit(user_id)] at clock reading [current_time], on the
    dictionary [user_last_request]. *)
Definition check_rate_limit (current_time : Q) (user_id : Z)
    (user_last_request : gmap Z Q) : (bool * Z) * gmap Z Q :=
  let last_time := default 0%Q (user_last_request !! user_id) in
  let time_passed := (current_time - last_time)%Q in
  if Qltb time_passed REQUEST_COOLDOWN then
    let wait_time := int_of_Q (REQUEST_COOLDOWN - time_passed)%Q in
    ((false, wait_time), user_last_request)
  else
    ((true, 0), <[user_id := current_time]> user_last_request).

(** *** is_valid_url *)

Import UrlParse.

(** The cross mark the messages begin with. *)
Definition cross_mark : char := 10060%N.

Definition only_http : str := cross_mark :: lit " Only HTTP/HTTPS URLs are allowed".
Definition invalid_format : str := cross_mark :: lit " Invalid URL format".
Definition invalid_characters : str := cross_mark :: lit " URL contains invalid characters".

(** The characters searched for in the URL: the angle brackets and the two
    quotes. *)
Definition suspicious : list char := [ch "<"; ch ">"; 34%N; 39%N].

(** [is_valid_url(url)]; an exception of [urlparse] is caught. *)
Definition is_valid_url (lib : checks) (url : str) : bool * str :=
  match urlparse lib url with
  | None => (false, invalid_format)
  | Some (scheme, netloc) =>
      if negb (bool_decide (scheme ∈ [lit "http"; lit "https"]))
      then (false, only_http)
      else if is_empty netloc then (false, invalid_format)
      else if existsb (fun char => contains char url) suspicious
      then (false, invalid_characters)
      else (true, [])
  end.

End Validators.

(** ** bot/handlers.py: the progress callback *)

Module Handlers.

Definition MIN_EDIT_DELAY : Q := 2.

(** [progress_callback(percent)] of [handle_format_selection], at clock
    reading [current_time]; [loop_is_running] is [loop.is_running()].  The
    result is the percentage of the edit scheduled on the loop, if one is
    scheduled, and the dictionary [last_update_time]. *)
Definition progress_callback (msg_key : str) (current_time : Q)
    (loop_is_running : bool) (percent : Z) (last_update_time : gmap str Q)
  : option Z * gmap str Q :=
  if Qltb (current_time - default 0%Q (last_update_time !! msg_key))%Q
       MIN_EDIT_DELAY && (percent <? 100)
  then (None, last_update_time)
  else (if loop_is_running then Some percent else None,
        <[msg_key := current_time]> last_update_time).

(** A call of the callback as the worker makes it. *)
Record progress_event := {
  at_time : Q;
  loop_running : bool;
  percent : Z;
}.

(** The calls of one job in order: the edits scheduled, each with the
    clock reading of its call, and the final dictionary. *)
Fixpoint run_callbacks (msg_key : str) (events : list progress_event)
    (last_update_time : gmap str Q) : list (Q * Z) * gmap str Q :=
  match events with
  | [] => ([], last_update_time)
  | ev :: rest =>
      let '(out, m) :=
        progress_callback msg_key (at_time ev) (loop_running ev) (percent ev)
          last_update_time in
      let '(outs, m') := run_callbacks msg_key rest m in
      (match out with
       | Some p => (at_time ev, p) :: outs
       | None => outs
       end, m')
  end.

(** *** The handlers *)

Import Downloader Validators UrlParse.

(** *** Texts *)

Definition hourglass : char := 9203%N.
Definition check_mark : char := 9989%N.
Definition full_block : char := 9608%N.
Definition light_shade : char := 9617%N.

(** [MAX_FILE_SIZE] of [config/settings.py]. *)
Definition MAX_FILE_SIZE : Z := 2 * 1024 * 1024 * 1024.

(** An inline keyboard: rows of buttons, each a label and its callback
    data. *)
Definition keyboard : Type := list (list (str * str)).

Definition format_keyboard : keyboard :=
  [[ (128196%N :: lit " Document", lit "format_document");
     (127916%N :: lit " Video", lit "format_video") ]].

(** *** handle_message *)

(** The arguments of the one call of [update.message.reply_text]. *)
Record reply := {
  reply_text : str;
  reply_markup : option keyboard;
}.

Definition please_wait (wait_time : Z) : str :=
  hourglass :: lit " Please wait " ++ str_of_int wait_time
    ++ lit " seconds before sending another request.".

(** [handle_message(update, context)] for a message with text [text] from
    user [user_id], at clock reading [current_time]: the reply, and the
    dictionaries [user_last_request] and [context.user_data] as the call
    leaves them. *)
Definition handle_message (lib : checks) (current_time : Q) (text : str)
    (user_id : Z) (user_last_request : gmap Z Q) (user_data : gmap str str)
  : reply * gmap Z Q * gmap str str :=
  let user_message := strip isspace text in
  let '(is_valid, error_msg) := is_valid_url lib user_message in
  if negb is_valid then
    ({| reply_text := error_msg; reply_markup := None |},
     user_last_request, user_data)
  else
    let '((is_allowed, wait_time), user_last_request) :=
      check_rate_limit current_time user_id user_last_request in
    if negb is_allowed then
      ({| reply_text := please_wait wait_time; reply_markup := None |},
       user_last_request, user_data)
    else
      ({| reply_text := lit "How would you like to receive this file?";
          reply_markup := Some format_keyboard |},
       user_last_request,
       <[lit "download_url" := user_message]> user_data).

(** *** The pieces of handle_format_selection *)

(** [query.data.split('_')[1]]; [None] stands for [IndexError]. *)
Definition format_type_of (data : str) : option str :=
  List.nth_error (split (ch "_") data) 1.

(** The key of a status message in [last_update_time]. *)
Definition msg_key_of (chat_id message_id : Z) : str :=
  str_of_int chat_id ++ lit "_" ++ str_of_int message_id.

Definition bar_length : Z := 20.

(** [int(bar_length * percent / 100)]: the product of the integers, divided
    as floats, truncated. *)
Definition filled_of (percent : Z) : option Z :=
  match truediv (bar_length * percent) 100 with
  | Some q => int_of_float q
  | None => None
  end.

(** The bar of [edit_status]; a string repeated a negative number of times
    is empty. *)
Definition bar_of (percent : Z) : option str :=
  match filled_of percent with
  | Some filled =>
      Some (repeat full_block (Z.to_nat filled)
            ++ repeat light_shade (Z.to_nat (bar_length - filled)))
  | None => None
  end.

(** The text of a progress edit. *)
Definition status_text (percent : Z) : option str :=
  match bar_of percent with
  | Some bar =>
      Some (hourglass :: lit " Downloading..." ++ [10%N; 10%N] ++ bar
            ++ lit " " ++ str_of_int percent ++ lit "%")
  | None => None
  end.

(** *** handle_format_selection *)

(** The dump channel: an integer id, or a name. *)
Inductive chat :=
  | ChatId (id : Z)
  | ChatName (name : str).

(** The calls of the Bot API the handler awaits: [query.answer],
    [query.edit_message_text], [context.bot.edit_message_text],
    [context.bot.send_video] and [send_document] with the content of the
    open file, and [query.message.reply_video], [reply_document] and
    [reply_text]. *)
Inductive call :=
  | Answer
  | EditQueryMessage (text : str)
  | EditMessageText (chat_id message_id : Z) (text : str)
  | SendVideo (chat_id : chat) (video : list byte)
  | SendDocument (chat_id : chat) (document : list byte)
  | ReplyVideo (file_id : str)
  | ReplyDocument (file_id : str)
  | ReplyText (text : str).

(** The exceptions the [except] clauses tell apart: [RetryAfter], the
    builtin [FileNotFoundError] and [TimeoutError], and any other
    exception; the text is [str(e)]. *)
Inductive error :=
  | RetryAfter (retry_after : Z)
  | FileNotFound (text : str)
  | TimedOut (text : str)
  | OtherError (text : str).

(** What the handler reads of a message the API returns: its id, and the
    file ids of its video and of its document, if it has them. *)
Record message := {
  message_id : Z;
  video : option str;
  document : option str;
}.

Inductive outcome :=
  | Raises (e : error)
  | Returns (m : message).

(** The environment of a run: what the Bot API answers to each call, what
    [requests] does, the temporary directory, the readings of [time.time()]
    and of [loop.is_running()] at the n-th call of the progress callback,
    the text [str(e)] of the exception [download_file] met, for the errors
    worded with it, and the dump channel of the settings. *)
Record environment := {
  telegram : call -> outcome;
  internet : network;
  tempdir : str;
  clock : nat -> Q;
  loop_is_running : nat -> bool;
  exception_text : str;
  DUMP_CHANNEL_ID : chat;
}.

(** What a run acts on: [context.user_data], the file system, the
    dictionary [last_update_time], the variable [local_path], the calls
    awaited so far and the percentages of the progress edits scheduled so
    far, oldest first. *)
Record session := {
  user_data : gmap str str;
  disk : filesystem;
  last_update_time : gmap str Q;
  local_path : option str;
  awaited : list call;
  scheduled : list Z;
}.

Definition H (A : Type) : Type := session -> session * (error + A).

Definition unit_ {A} (a : A) : H A := fun s => (s, inr a).
Definition throw {A} (e : error) : H A := fun s => (s, inl e).
Definition and_then {A B} (m : H A) (k : A -> H B) : H B :=
  fun s => match m s with
           | (s', inl e) => (s', inl e)
           | (s', inr a) => k a s'
           end.

Notation "'let&' x ':=' m 'in' k" := (and_then m (fun x => k))
  (at level 10, x name, m at level 100, k at level 200).
Notation "m '>>&' k" := (and_then m (fun _ => k))
  (at level 90, right associativity).

Definition await (env : environment) (c : call) : H message :=
  fun s =>
    let s' := {| user_data := user_data s; disk := disk s;
                 last_update_time := last_update_time s;
                 local_path := local_path s;
                 awaited := awaited s ++ [c]; scheduled := scheduled s |} in
    match telegram env c with
    | Raises e => (s', inl e)
    | Returns m => (s', inr m)
    end.

Definition key : str := lit "download_url".

(** The exception [download_file] raises, as the [except] clauses of the
    handler see it. *)
Definition error_of_download (detail : str) (err : download_error) : error :=
  match err with
  | TimeoutError =>
      TimedOut (lit "Download timed out after " ++ str_of_int READ_TIMEOUT
                ++ lit "s. The server may be slow or the file too large.")
  | HttpValueError status_code reason =>
      OtherError (lit "HTTP error: " ++ str_of_int status_code ++ lit " - " ++ reason)
  | ConnectionFailed =>
      OtherError (lit "Failed to connect to the server. Check the URL and try again.")
  | RuntimeError => OtherError (lit "Download failed: " ++ detail)
  | WriteError => OtherError (lit "Failed to write file: " ++ detail)
  | Unhandled _ => OtherError detail
  end.

(** The calls the worker makes of the progress callback, one for each
    percentage [download_file] reports. *)
Definition callback_events (env : environment) (percents : list Z)
  : list progress_event :=
  imap (fun n p => {| at_time := clock env n;
                      loop_running := loop_is_running env n;
                      percent := p |}) percents.

(** Lines 136 to 141: [download_file] in the executor, with the progress
    callback. *)
Definition run_download (env : environment) (download_url msg_key : str) : H str :=
  fun s =>
    let '(w, result) :=
      download_file download_url true (tempdir env) (internet env) (disk s) in
    let '(edits, times) :=
      run_callbacks msg_key (callback_events env (reported w)) (last_update_time s) in
    match result with
    | inl err =>
        ({| user_data := user_data s; disk := fs w; last_update_time := times;
            local_path := local_path s; awaited := awaited s;
            scheduled := scheduled s ++ List.map snd edits |},
         inl (error_of_download (exception_text env) err))
    | inr path =>
        ({| user_data := user_data s; disk := fs w; last_update_time := times;
            local_path := Some path; awaited := awaited s;
            scheduled := scheduled s ++ List.map snd edits |},
         inr path)
    end.

(** [os.path.getsize(path)] and the content read from [open(path, 'rb')]. *)
Definition read_file (path : str) : H (list byte) :=
  fun s => match files (disk s) !! path with
           | Some content => (s, inr content)
           | None => (s, inl (FileNotFound path))
           end.

Definition too_large (file_size : Z) : option str :=
  match truediv file_size (1024 ^ 3) with
  | Some gb =>
      Some (cross_mark :: lit " File too large (" ++ format_2f gb
            ++ lit " GB). Max: 2GB")
  | None => None
  end.

Definition is_video (format_type : str) : bool := str_eqb format_type (lit "video").

(** Lines 143 to 187: what follows the download in the [try] block. *)
Definition deliver (env : environment) (format_type : str)
    (chat_id status_id : Z) (path : str) : H unit :=
  let& content := read_file path in
  let file_size := Z.of_nat (length content) in
  if file_size >? MAX_FILE_SIZE then
    match too_large file_size with
    | Some text => await env (EditMessageText chat_id status_id text) >>& unit_ tt
    | None => throw (OtherError (lit "integer division result too large for a float"))
    end
  else
    await env (EditMessageText chat_id status_id
                 (check_mark :: lit " Download complete. Uploading to dump channel..."))
    >>&
    let& content := read_file path in
    let& sent_message :=
      await env (if is_video format_type
                 then SendVideo (DUMP_CHANNEL_ID env) content
                 else SendDocument (DUMP_CHANNEL_ID env) content) in
    match (if is_video format_type then video sent_message
           else document sent_message) with
    | None => throw (OtherError (lit "'NoneType' object has no attribute 'file_id'"))
    | Some file_id =>
        await env (if is_video format_type then ReplyVideo file_id
                   else ReplyDocument file_id)
        >>&
        await env (EditMessageText chat_id status_id
                     (check_mark :: lit " Done! File sent as " ++ format_type ++ lit "."))
        >>& unit_ tt
    end.

(** Lines 189 to 207: the [except] clauses. *)
Definition error_text (e : error) : str :=
  match e with
  | RetryAfter retry_after =>
      hourglass :: lit " Telegram rate limit hit. Please wait "
        ++ str_of_int retry_after ++ lit " seconds and try again."
  | FileNotFound _ => cross_mark :: lit " Download failed: File not found at URL"
  | TimedOut _ =>
      cross_mark :: lit " Download timeout. The server is too slow or file is too large."
  | OtherError text => cross_mark :: lit " An error occurred: " ++ slice_to 100 text
  end.

Definition on_error (env : environment) (e : error) : H unit :=
  await env (ReplyText (error_text e)) >>& unit_ tt.

(** Lines 209 to 219: the [finally] clause; an [OSError] of [os.remove] is
    caught there, and the file stays. *)
Definition finally (s : session) : session :=
  {| user_data := delete key (user_data s);
     disk := match local_path s with
             | Some path =>
                 if negb (is_empty path) && path_exists path (disk s)
                 then default (disk s) (os_remove path (disk s))
                 else disk s
             | None => disk s
             end;
     last_update_time := last_update_time s;
     local_path := local_path s;
     awaited := awaited s;
     scheduled := scheduled s |}.

Definition try_except_finally (body : H unit) (handler : error -> H unit) : H unit :=
  fun s =>
    match body s with
    | (s1, inr tt) => (finally s1, inr tt)
    | (s1, inl e) => let '(s2, r) := handler e s1 in (finally s2, r)
    end.

(** [handle_format_selection(update, context)] for a callback query with
    data [data] on a message of chat [chat_id]. *)
Definition handle_format_selection (env : environment) (data : str) (chat_id : Z)
  : H unit :=
  await env Answer >>&
  match format_type_of data with
  | None => throw (OtherError (lit "list index out of range"))
  | Some format_type =>
      fun s =>
        match user_data s !! key with
        | Some (c :: url) =>
            let download_url := c :: url in
            (let& status_msg :=
               await env (EditQueryMessage (hourglass :: lit " Starting download...")) in
             let msg_key := msg_key_of chat_id (message_id status_msg) in
             fun s =>
               try_except_finally
                 (let& path := run_download env download_url msg_key in
                  deliver env format_type chat_id (message_id status_msg) path)
                 (on_error env)
                 {| user_data := user_data s; disk := disk s;
                    last_update_time := last_update_time s;
                    local_path := None;
                    awaited := awaited s; scheduled := scheduled s |}) s
        | _ =>
            (await env (EditQueryMessage
                          (cross_mark :: lit " Session expired. Please send the link again."))
             >>& unit_ tt) s
        end
  end.

End Handlers.

(** ** The vocabulary of the specification *)

Module Spec.

Import Downloader Validators Handlers.

(** *** Floats *)

(** A shifted mantissa none of whose dropped bits was set. *)
Definition exact_record (x : shr_record) : Prop :=
  shr_r x = false /\ shr_s x = false.

(** [q] is a float of sign plus lying between [L] and [N] units of
    [2 ^ E]. *)
Definition sf_between (L N E : Z) (q : spec_float) : Prop :=
  match q with
  | S754_zero s => s = false /\ L <= 0
  | S754_finite s m e =>
      s = false /\ e <= E /\ L * 2 ^ (E - e) <= Zpos m <= N * 2 ^ (E - e)
  | _ => False
  end.

(** *** File names *)

Definition legal (c : char) : Prop := illegal c = false.

Definition is_ascii (c : char) : Prop := (c < 128)%N.

(** A name as the trimming leaves it: legal characters only, and neither a
    dot nor a space at either end. *)
Definition trimmed (f : str) : Prop :=
  Forall legal f /\
  (exists c t, f = c :: t /\ dot_or_space c = false) /\
  (exists t c, f = t ++ [c] /\ dot_or_space c = false).

(** The last step of [sanitize_filename]. *)
Definition truncate (f : str) : str :=
  if (255 <? length f)%nat then
    let '(name, ext) := OsPath.splitext f in slice_to 250 name ++ ext
  else f.

(** What follows the last slash of a string, the whole string when it has
    no slash. *)
Definition after_last_slash (s piece : str) : Prop :=
  ((ch "/") ∉ piece) /\ (s = piece \/ exists pre, s = pre ++ ch "/" :: piece).

(** What precedes the first question mark of a string, the whole string
    when it has none. *)
Definition before_question_mark (s piece : str) : Prop :=
  ((ch "?") ∉ piece) /\ (s = piece \/ exists q, s = piece ++ ch "?" :: q).

(** *** Transfers *)

(** The sum of the chunk sizes. *)
Definition total_length (chunks : list (list byte)) : Z :=
  List.fold_right (fun chunk n => Z.of_nat (length chunk) + n) 0 chunks.

(** *** The throttle, in the words of the specification

    An update is forwarded when it is the first of its job, when at least
    the minimum interval has elapsed since the last forwarded update, or
    when its percentage counts as complete; any other update is dropped. *)
Fixpoint forwarded_when (complete : Z -> bool) (last : option Q)
    (events : list (Q * Z)) : list (Q * Z) :=
  match events with
  | [] => []
  | (t, p) :: rest =>
      let due := match last with
                 | None => true
                 | Some l => Qle_bool MIN_EDIT_DELAY (t - l)
                 end in
      if due || complete p then (t, p) :: forwarded_when complete (Some t) rest
      else forwarded_when complete last rest
  end.

(** The rule as the specification words it: complete is a percentage of
    100. *)
Definition forwarded : option Q -> list (Q * Z) -> list (Q * Z) :=
  forwarded_when (fun p => p =? 100).

(** The rule with any percentage from 100 on counted as complete. *)
Definition forwarded_from_100 : option Q -> list (Q * Z) -> list (Q * Z) :=
  forwarded_when (fun p => 100 <=? p).

Definition event_pair (ev : progress_event) : Q * Z :=
  (at_time ev, percent ev).

(** A call made while the loop runs, at a clock reading of at least the
    minimum interval, as every reading of [time.time()] is. *)
Definition live (ev : progress_event) : Prop :=
  loop_running ev = true /\ (MIN_EDIT_DELAY <= at_time ev)%Q.

(** *** Further vocabulary *)

(** A name that begins with neither a dot nor a space. *)
Definition plain_head (f : str) : Prop :=
  exists c t, f = c :: t /\ dot_or_space c = false.

(** What may follow the file name: nothing, or a semicolon and more. *)
Definition ends_parameter (post : str) : Prop :=
  post = [] \/ exists rest, post = ch ";" :: rest.

(** What a run leaves of the files other than the one it writes. *)
Definition same_elsewhere (path : str) (a b : filesystem) : Prop :=
  forall p, p <> path -> files b !! p = files a !! p.

(** *** URLs *)

Import UrlParse.

(** The URL as [urlsplit] reads it: without the controls and spaces it
    begins with, and without any tab, carriage return or newline. *)
Definition as_parsed (url : str) : str :=
  remove_char 10%N (remove_char 13%N (remove_char 9%N
    (lstrip WHATWG_C0_CONTROL_OR_SPACE url))).

(** The characters that end the netloc. *)
Definition delimiter (c : char) : bool :=
  char_eqb c (ch "/") || char_eqb c (ch "?") || char_eqb c (ch "#").

(** What may follow the netloc: nothing, or a delimiter and more. *)
Definition after_netloc (rest : str) : Prop :=
  rest = [] \/ exists c t, rest = c :: t /\ delimiter c = true.

(** The end of the netloc as [_splitnetloc] computes it, for the text [u]
    that begins at index [k]. *)
Definition delim_of (k : Z) (u : str) : Z :=
  List.fold_left
    (fun delim c =>
       let wdelim := find_at c k u in
       if wdelim >=? 0 then Z.min delim wdelim else delim)
    [ch "/"; ch "?"; ch "#"] (k + Z.of_nat (length u)).

(** A character that is neither suspicious nor removed by the parser. *)
Definition plain_char (c : char) : bool :=
  negb (existsb (char_eqb c) (suspicious ++ UNSAFE_URL_BYTES_TO_REMOVE)).

(** An ASCII character a netloc is made of: plain, and neither a delimiter
    nor a square bracket. *)
Definition host_char (c : char) : bool :=
  (c <? 128)%N && plain_char c && negb (delimiter c)
  && negb (char_eqb c (ch "[")) && negb (char_eqb c (ch "]")).

(** A scheme that reads http or https, in any case of the letters. *)
Definition http_scheme (scheme : str) : Prop :=
  lower scheme = lit "http" \/ lower scheme = lit "https".

(** *** The format selection *)

(** A step that only awaits the calls [cs]. *)
Definition only_calls (cs : list call) (s s' : session) : Prop :=
  user_data s' = user_data s /\ disk s' = disk s /\
  last_update_time s' = last_update_time s /\ local_path s' = local_path s /\
  scheduled s' = scheduled s /\ awaited s' = awaited s ++ cs.

Definition starting : call := EditQueryMessage (hourglass :: lit " Starting download...").

Definition expired : call :=
  EditQueryMessage (cross_mark :: lit " Session expired. Please send the link again.").

(** A run that reaches the download: the query is answered, its data name
    a format, a link is stored, and the status message is edited. *)
Definition reaches_download (env : environment) (data : str) (s : session)
    (format_type download_url : str) (status_msg : message) : Prop :=
  (exists m, telegram env Answer = Returns m) /\
  format_type_of data = Some format_type /\
  user_data s !! key = Some download_url /\ download_url <> [] /\
  telegram env starting = Returns status_msg.

(** The session as the [try] block finds it. *)
Definition at_try (s : session) : session :=
  {| user_data := user_data s; disk := disk s;
     last_update_time := last_update_time s; local_path := None;
     awaited := awaited s ++ [Answer; starting]; scheduled := scheduled s |}.

(** What a call that uploads a file says of the run that made it. *)
Definition upload_of (env : environment) (format_type path : str) (s : session)
    (c : call) : Prop :=
  match c with
  | SendVideo ch content =>
      is_video format_type = true /\ ch = DUMP_CHANNEL_ID env /\
      files (disk s) !! path = Some content /\
      Z.of_nat (length content) <= MAX_FILE_SIZE
  | SendDocument ch content =>
      is_video format_type = false /\ ch = DUMP_CHANNEL_ID env /\
      files (disk s) !! path = Some content /\
      Z.of_nat (length content) <= MAX_FILE_SIZE
  | _ => True
  end.

Definition is_upload (c : call) : bool :=
  match c with
  | SendVideo _ _ | SendDocument _ _ => true
  | _ => false
  end.

Definition upload_started (chat_id status_id : Z) : call :=
  EditMessageText chat_id status_id
    (check_mark :: lit " Download complete. Uploading to dump channel...").

Definition done (chat_id status_id : Z) (format_type : str) : call :=
  EditMessageText chat_id status_id
    (check_mark :: lit " Done! File sent as " ++ format_type ++ lit ".").

Definition send (env : environment) (format_type : str) (content : list byte) : call :=
  if is_video format_type then SendVideo (DUMP_CHANNEL_ID env) content
  else SendDocument (DUMP_CHANNEL_ID env) content.

Definition forward (format_type file_id : str) : call :=
  if is_video format_type then ReplyVideo file_id else ReplyDocument file_id.

End Spec.

(** ** Scenarios used as concrete inputs *)

Module Scenario.

Import Downloader Validators Handlers.

Definition url : str := lit "https://example.org/files/report.pdf?token=xyz".
Definition temp_dir : str := lit "/tmp".
Definition path : str := lit "/tmp/report.pdf".

Definition no_headers : headers :=
  {| content_disposition := None; content_length := None |}.

Definition with_length (v : string) : headers :=
  {| content_disposition := None; content_length := Some (lit v) |}.

Definition ok (sizes : list nat) : get_outcome :=
  GetResponse {| status_code := 200;
                 reason := lit "OK";
                 resp_headers := no_headers;
                 body := List.map (fun n => repeat x00 n) sizes;
                 body_error := None |}.

(** 100 bytes announced, received as 29 and 71. *)
Definition net_29_71 : network :=
  {| requests_head := HeadResponse (with_length "100");
     requests_get := ok [29; 71]%nat |}.

(** 100 bytes announced, 150 received. *)
Definition net_150 : network :=
  {| requests_head := HeadResponse (with_length "100");
     requests_get := ok [150]%nat |}.

(** No size announced by either response. *)
Definition net_unknown : network :=
  {| requests_head := HeadResponse no_headers;
     requests_get := ok [29; 71]%nat |}.

(** The GET request times out. *)
Definition net_timeout : network :=
  {| requests_head := HeadResponse no_headers; requests_get := GetRaises Timeout |}.

(** The connection is refused. *)
Definition net_refused : network :=
  {| requests_head := HeadResponse no_headers;
     requests_get := GetRaises ConnectionError |}.

(** The server answers 404. *)
Definition net_404 : network :=
  {| requests_head := HeadResponse no_headers;
     requests_get :=
       GetResponse {| status_code := 404; reason := lit "Not Found";
                      resp_headers := no_headers; body := []; body_error := None |} |}.

(** 100 bytes announced; the stream breaks after 29 of them. *)
Definition net_broken : network :=
  {| requests_head := HeadResponse (with_length "100");
     requests_get :=
       GetResponse {| status_code := 200; reason := lit "OK";
                      resp_headers := no_headers; body := [repeat x00 29];
                      body_error := Some RequestException |} |}.

(** A probe whose Content-Length is not a number. *)
Definition net_bad_length : network :=
  {| requests_head := HeadResponse (with_length "abc");
     requests_get := ok [29; 71]%nat |}.

(** An empty device with blocks of 4096 bytes and [free_bytes] left. *)
Definition disk (free_bytes : nat) : filesystem :=
  {| files := ∅; denied := ∅; undeletable := ∅; st_blksize := 4096;
     free := free_bytes |}.

(** A device with a file of one byte left at the local path. *)
Definition stale (free_bytes : nat) : filesystem :=
  {| files := {[ path := [x00] ]}; denied := ∅; undeletable := ∅;
     st_blksize := 4096; free := free_bytes |}.

(** A URL without a path, and one with a slash in its query string. *)
Definition url_without_path : str := lit "https://example.org".
Definition url_query_slash : str := lit "https://example.org/a.pdf?next=/home/x.txt".

(** A name of two characters followed by an extension of 301. *)
Definition long_extension : str := lit "a." ++ repeat (ch "b") 300.

(** 249 letters, a space, and ten more letters. *)
Definition space_at_250 : str :=
  repeat (ch "a") 249 ++ lit " " ++ repeat (ch "b") 10.

Definition job : str := lit "42_7".

(** The four calls of the throttle scenario, the first at [t0 = 1000]. *)
Definition four_events : list progress_event :=
  [ {| at_time := 1000; loop_running := true; percent := 10 |};
    {| at_time := 2001 # 2; loop_running := true; percent := 20 |};
    {| at_time := 1001; loop_running := true; percent := 30 |};
    {| at_time := 10021 # 10; loop_running := true; percent := 100 |} ].

(** Two calls half a second apart, the second with a percentage above
    100. *)
Definition above_100 : list progress_event :=
  [ {| at_time := 1000; loop_running := true; percent := 10 |};
    {| at_time := 2001 # 2; loop_running := true; percent := 150 |} ].

(** A call made when the loop has stopped. *)
Definition loop_stopped : list progress_event :=
  [ {| at_time := 1000; loop_running := false; percent := 10 |} ].

(** A call at a clock reading of one second. *)
Definition early : list progress_event :=
  [ {| at_time := 1; loop_running := true; percent := 10 |} ].

(** A Bot API that answers every call; the dump channel returns a message
    with the file id of the kind sent. *)
Definition api (c : call) : outcome :=
  match c with
  | SendVideo _ _ =>
      Returns {| message_id := 9; video := Some (lit "VID"); document := None |}
  | SendDocument _ _ =>
      Returns {| message_id := 9; video := None; document := Some (lit "DOC") |}
  | _ => Returns {| message_id := 7; video := None; document := None |}
  end.

Definition bot (net : network) : environment :=
  {| telegram := api; internet := net; tempdir := temp_dir;
     clock := fun n => (1000 + inject_Z (Z.of_nat n))%Q;
     loop_is_running := fun _ => true;
     exception_text := lit "[Errno 28] No space left on device";
     DUMP_CHANNEL_ID := ChatId (-1001) |}.

(** A session with the link stored, on a device with [free_bytes] left. *)
Definition waiting (free_bytes : nat) : session :=
  {| user_data := {[ key := url ]}; Handlers.disk := disk free_bytes;
     last_update_time := ∅; local_path := None; awaited := []; scheduled := [] |}.

Definition status : message := {| message_id := 7; video := None; document := None |}.

End Scenario.

(** * Properties *)

(** ** Rounding to binary64 *)

Module FloatFacts.

Import Spec Downloader.

(** The model computes the doubles Python computes: 29 / 100 is the double
    nearest to 0.29, its product with 100 falls below 29, and the quotient
    of two integers beyond 2 ^ 53 is rounded once. *)
Example truediv_29_100 :
  truediv 29 100 = Some (S754_finite false 5224175567749775 (-54)).
Proof. reflexivity. Qed.

Example mul_29_100 :
  mul_int (S754_finite false 5224175567749775 (-54)) 100
    = S754_finite false 8162774324609023 (-48).
Proof. reflexivity. Qed.

Example percent_57_58 : percent_of 57 100 = Some 56 /\ percent_of 58 100 = Some 57.
Proof. split; reflexivity. Qed.

Example truediv_big :
  truediv (2 ^ 70 + 1) (2 ^ 71) = Some (S754_finite false 4503599627370496 (-53)).
Proof. reflexivity. Qed.

(** The quotient can also round up across a percent: all but one byte of
    2 ^ 60 is reported as 100. *)
Example percent_rounds_up :
  percent_of (2 ^ 60 - 1) (2 ^ 60) = Some 100 /\ (2 ^ 60 - 1) * 100 / 2 ^ 60 = 99.
Proof. split; reflexivity. Qed.

(** *** Bit lengths *)

Lemma digits2_pos_bounds (p : positive) :
  2 ^ (Zpos (digits2_pos p) - 1) <= Zpos p < 2 ^ Zpos (digits2_pos p).
Proof.
  induction p as [p IH | p IH |]; cbn [digits2_pos].
  - rewrite Pos2Z.inj_succ, Z.pow_succ_r by lia.
    replace (Z.succ (Zpos (digits2_pos p)) - 1) with (Z.succ (Zpos (digits2_pos p) - 1)) by lia.
    rewrite Z.pow_succ_r by lia. lia.
  - rewrite Pos2Z.inj_succ, Z.pow_succ_r by lia.
    replace (Z.succ (Zpos (digits2_pos p)) - 1) with (Z.succ (Zpos (digits2_pos p) - 1)) by lia.
    rewrite Z.pow_succ_r by lia. lia.
  - cbn. lia.
Qed.

Lemma Zdigits2_upper (m : Z) : 0 <= m -> m < 2 ^ Zdigits2 m.
Proof.
  destruct m as [| p | p]; intros H; cbn [Zdigits2]; [cbn; lia | apply digits2_pos_bounds | lia].
Qed.

Lemma Zdigits2_lower (m : Z) : 0 < m -> 2 ^ (Zdigits2 m - 1) <= m.
Proof.
  destruct m as [| p | p]; intros H; cbn [Zdigits2]; [lia | apply digits2_pos_bounds | lia].
Qed.

Lemma Zdigits2_nonneg (m : Z) : 0 <= Zdigits2 m.
Proof. destruct m; cbn; lia. Qed.

(** *** Right shifts

    [shr] iterates [shr_1], which halves the mantissa and remembers in two
    flags the bits it drops. *)

Lemma iter_pos_nat {A} (f : A -> A) (p : positive) (x : A) :
  SpecFloat.iter_pos f p x = Nat.iter (Pos.to_nat p) f x.
Proof.
  revert x. induction p as [p IH | p IH |]; intros x; cbn [SpecFloat.iter_pos].
  - rewrite !IH, Pos2Nat.inj_xI.
    replace (S (2 * Pos.to_nat p)) with (Pos.to_nat p + (Pos.to_nat p + 1))%nat by lia.
    rewrite !Nat.iter_add. reflexivity.
  - rewrite !IH, Pos2Nat.inj_xO.
    replace (2 * Pos.to_nat p)%nat with (Pos.to_nat p + Pos.to_nat p)%nat by lia.
    rewrite Nat.iter_add. reflexivity.
  - reflexivity.
Qed.

Lemma shr_1_m (x : shr_record) : 0 <= shr_m x -> shr_m (shr_1 x) = shr_m x / 2.
Proof.
  destruct x as [m r s]; cbn [shr_m]. intros H.
  destruct m as [| [p | p |] | p]; cbn [shr_1 shr_m].
  all: try lia. all: try reflexivity.
  - apply (Z.div_unique _ 2 _ 1); lia.
  - apply (Z.div_unique _ 2 _ 0); lia.
Qed.

Lemma shr_1_exact (x : shr_record) :
  0 <= shr_m x -> exact_record x -> shr_m x mod 2 = 0 -> exact_record (shr_1 x).
Proof.
  destruct x as [m r s]; cbn [shr_m]. intros H [Hr Hs] Hm; cbn in Hr, Hs; subst.
  destruct m as [| [p | p |] | p]; cbn [shr_1]; try (split; reflexivity); try lia.
  - rewrite Pos2Z.inj_xI in Hm. exfalso.
    rewrite Z.add_comm, Z.mul_comm, Z_mod_plus_full in Hm. discriminate.
  - discriminate.
Qed.

Lemma iter_shr_m (n : nat) (x : shr_record) :
  0 <= shr_m x -> shr_m (Nat.iter n shr_1 x) = shr_m x / 2 ^ Z.of_nat n.
Proof.
  revert x. induction n as [| n IH]; intros x H.
  - cbn. now rewrite Z.div_1_r.
  - rewrite Nat.iter_succ_r, IH, shr_1_m by (rewrite ?shr_1_m by lia; try apply Z.div_pos; lia).
    rewrite Nat2Z.inj_succ, Z.pow_succ_r by lia.
    rewrite Z.div_div by lia. reflexivity.
Qed.

Lemma iter_shr_exact (n : nat) (x : shr_record) :
  0 <= shr_m x -> exact_record x -> shr_m x mod 2 ^ Z.of_nat n = 0 ->
  exact_record (Nat.iter n shr_1 x).
Proof.
  revert x. induction n as [| n IH]; intros x H Hx Hm.
  - exact Hx.
  - rewrite Nat2Z.inj_succ, Z.pow_succ_r in Hm by lia.
    assert (Hp : 0 < 2 ^ Z.of_nat n) by (apply Z.pow_pos_nonneg; lia).
    apply Z.mod_divide in Hm; [| lia]. destruct Hm as [c Hc].
    rewrite Nat.iter_succ_r. apply IH.
    + rewrite shr_1_m by lia. apply Z.div_pos; lia.
    + apply shr_1_exact; [lia | exact Hx |].
      rewrite Hc. replace (c * (2 * 2 ^ Z.of_nat n)) with ((c * 2 ^ Z.of_nat n) * 2) by ring.
      apply Z_mod_mult.
    + rewrite shr_1_m by lia. rewrite Hc.
      replace (c * (2 * 2 ^ Z.of_nat n)) with ((c * 2 ^ Z.of_nat n) * 2) by ring.
      rewrite Z_div_mult by lia. apply Z_mod_mult.
Qed.

Lemma loc_of_exact (x : shr_record) : exact_record x -> loc_of_shr_record x = loc_Exact.
Proof. destruct x as [m r s]; intros [Hr Hs]; cbn in *; subst; reflexivity. Qed.

Lemma loc_of_record_of_loc (m : Z) (l : location) :
  loc_of_shr_record (shr_record_of_loc m l) = l.
Proof. destruct l as [| []]; reflexivity. Qed.

Lemma shr_m_record_of_loc (m : Z) (l : location) : shr_m (shr_record_of_loc m l) = m.
Proof. destruct l as [| []]; reflexivity. Qed.

Lemma round_nearest_even_bounds (m : Z) (l : location) :
  m <= round_nearest_even m l <= m + 1.
Proof. destruct l as [| []]; cbn; try destruct (Z.even m); lia. Qed.

(** *** Rounding *)

Lemma fexp64 (x : Z) : fexp prec emax x = Z.max (x - 53) (-1074).
Proof. reflexivity. Qed.

(** Shifting a mantissa to its canonical exponent keeps it between the
    multiples [L] and [N] of [2 ^ E], as long as [N] fits the precision. *)
Lemma shr_fexp_bounds (m e : Z) (l : location) (L N E : Z) :
  0 <= m -> 0 < N < 2 ^ 53 -> -1074 <= E -> e <= E ->
  L * 2 ^ (E - e) <= m <= N * 2 ^ (E - e) ->
  e <= snd (shr_fexp prec emax m e l) <= E /\
  L * 2 ^ (E - snd (shr_fexp prec emax m e l))
    <= shr_m (fst (shr_fexp prec emax m e l))
    <= N * 2 ^ (E - snd (shr_fexp prec emax m e l)) /\
  0 <= shr_m (fst (shr_fexp prec emax m e l)) /\
  (m < N * 2 ^ (E - e) ->
   shr_m (fst (shr_fexp prec emax m e l))
     < N * 2 ^ (E - snd (shr_fexp prec emax m e l))) /\
  (m = N * 2 ^ (E - e) -> l = loc_Exact ->
   loc_of_shr_record (fst (shr_fexp prec emax m e l)) = loc_Exact).
Proof.
  intros Hm HN HE He [Hlo Hle].
  unfold shr_fexp. rewrite fexp64.
  assert (Hd : Zdigits2 m + e - 53 <= E).
  { destruct (Z.eq_dec m 0) as [-> | Hne]; [cbn; lia |].
    assert (H1 := Zdigits2_lower m ltac:(lia)).
    assert (H2 : 0 < 2 ^ (E - e)) by (apply Z.pow_pos_nonneg; lia).
    assert (H3 : 2 ^ (Zdigits2 m - 1) < 2 ^ (53 + (E - e))).
    { rewrite Z.pow_add_r by lia. nia. }
    apply Z.pow_lt_mono_r_iff in H3; lia. }
  remember (Z.max (Zdigits2 m + e - 53) (-1074) - e) as k eqn:Hk.
  destruct k as [| p | p]; cbn [shr fst snd].
  - rewrite shr_m_record_of_loc, loc_of_record_of_loc. repeat split; try lia; auto.
  - rewrite iter_pos_nat.
    set (x := shr_record_of_loc m l).
    assert (Hx : shr_m x = m) by apply shr_m_record_of_loc.
    rewrite iter_shr_m by lia. rewrite positive_nat_Z, Hx.
    assert (Hp : 0 < 2 ^ Zpos p) by (apply Z.pow_pos_nonneg; lia).
    assert (Hsplit : forall X, X * 2 ^ (E - e) = 2 ^ Zpos p * (X * 2 ^ (E - (e + Zpos p)))).
    { intros X. replace (E - e) with (Zpos p + (E - (e + Zpos p))) by lia.
      rewrite Z.pow_add_r by lia. ring. }
    rewrite (Hsplit N) in Hle. rewrite (Hsplit L) in Hlo.
    assert (H0 : 0 < 2 ^ (E - (e + Zpos p))) by (apply Z.pow_pos_nonneg; lia).
    repeat split; try lia.
    + apply Z.div_le_lower_bound; lia.
    + apply Z.div_le_upper_bound; lia.
    + apply Z.div_pos; lia.
    + intros Hlt. rewrite (Hsplit N) in Hlt. apply Z.div_lt_upper_bound; lia.
    + intros Heq ->. apply loc_of_exact, iter_shr_exact.
      * lia.
      * split; reflexivity.
      * rewrite positive_nat_Z. subst x. cbn [shr_record_of_loc shr_m].
        rewrite Heq, (Hsplit N), Z.mul_comm. apply Z_mod_mult.
  - rewrite shr_m_record_of_loc, loc_of_record_of_loc. repeat split; try lia; auto.
Qed.

(** Rounding is monotone against values representable at the scale [2 ^ E]:
    a mantissa between [L] and [N] units of [2 ^ E] rounds to a float between
    them. *)
Lemma binary_round_aux_bounds (mx ex : Z) (lx : location) (L N E : Z) :
  0 <= mx -> 0 < N < 2 ^ 53 -> -1074 <= E <= 971 -> ex <= E ->
  L * 2 ^ (E - ex) <= mx ->
  (mx < N * 2 ^ (E - ex) \/ (mx = N * 2 ^ (E - ex) /\ lx = loc_Exact)) ->
  match binary_round_aux prec emax false mx ex lx with
  | S754_zero s => s = false /\ L <= 0
  | S754_finite s m e =>
      s = false /\ e <= E /\ L * 2 ^ (E - e) <= Zpos m <= N * 2 ^ (E - e)
  | _ => False
  end.
Proof.
  intros Hm HN HE He Hlo Hb.
  unfold binary_round_aux.
  assert (Hle : L * 2 ^ (E - ex) <= mx <= N * 2 ^ (E - ex)) by lia.
  destruct (shr_fexp_bounds mx ex lx L N E Hm HN ltac:(lia) He Hle)
    as (He1 & Hm1 & Hn1 & Hlt1 & Hex1).
  destruct (shr_fexp prec emax mx ex lx) as [mrs1 e1]. cbn [fst snd] in *.
  set (m2 := round_nearest_even (shr_m mrs1) (loc_of_shr_record mrs1)).
  assert (Hm2 : L * 2 ^ (E - e1) <= m2 <= N * 2 ^ (E - e1) /\ 0 <= m2).
  { assert (Hr := round_nearest_even_bounds (shr_m mrs1) (loc_of_shr_record mrs1)).
    fold m2 in Hr. repeat split; try lia.
    destruct Hb as [Hb | [Hb Hl]].
    - specialize (Hlt1 Hb). lia.
    - unfold m2. rewrite (Hex1 Hb Hl). cbn. lia. }
  destruct (shr_fexp_bounds m2 e1 loc_Exact L N E ltac:(lia) HN ltac:(lia) ltac:(lia)
              ltac:(lia)) as (He2 & Hm3 & Hn3 & _ & _).
  destruct (shr_fexp prec emax m2 e1 loc_Exact) as [mrs2 e2]. cbn [fst snd] in *.
  assert (H0 : 0 < 2 ^ (E - e2)) by (apply Z.pow_pos_nonneg; lia).
  destruct (shr_m mrs2) as [| m | m]; [split; [reflexivity | nia] | | lia].
  replace (e2 <=? emax - prec) with true by (symmetry; apply Z.leb_le; unfold emax, prec; lia).
  repeat split; lia.
Qed.

(** *** Division, multiplication and floor *)

Lemma new_location_zero (nb : Z) : new_location nb 0 = loc_Exact.
Proof. unfold new_location. destruct (Z.even nb); reflexivity. Qed.

(** The core of the division of two integers: a quotient of enough bits and
    the position of the remainder. *)
Lemma div_core_spec (a b : positive) :
  let e' := Z.min (fexp prec emax (Zdigits2 (Zpos a) - Zdigits2 (Zpos b))) 0 in
  SFdiv_core_binary prec emax (Zpos a) 0 (Zpos b) 0 =
    (Zpos a * 2 ^ (- e') / Zpos b, e',
     new_location (Zpos b) ((Zpos a * 2 ^ (- e')) mod Zpos b)).
Proof.
  intros e'. unfold SFdiv_core_binary.
  replace (Zdigits2 (Zpos a) + 0 - (Zdigits2 (Zpos b) + 0))
    with (Zdigits2 (Zpos a) - Zdigits2 (Zpos b)) by lia.
  change (0 - 0) with 0. fold e'.
  assert (He : e' <= 0) by (unfold e'; lia).
  assert (Hm : match 0 - e' with
               | Z0 => Zpos a
               | Zpos _ => Z.shiftl (Zpos a) (0 - e')
               | Zneg _ => 0
               end = Zpos a * 2 ^ (- e')).
  { replace (0 - e') with (- e') by lia.
    destruct (- e') as [| p | p] eqn:E; [cbn; lia | | lia].
    rewrite Z.shiftl_mul_pow2 by lia. reflexivity. }
  rewrite Hm. unfold Z.div, Z.modulo.
  destruct (Z.div_eucl (Zpos a * 2 ^ (- e')) (Zpos b)) as [q r]. reflexivity.
Qed.

Lemma Zdigits2_mono (a b : Z) : 0 < a <= b -> Zdigits2 a <= Zdigits2 b.
Proof.
  intros H.
  assert (H1 := Zdigits2_lower a ltac:(lia)).
  assert (H2 := Zdigits2_upper b ltac:(lia)).
  assert (H3 : 2 ^ (Zdigits2 a - 1) < 2 ^ Zdigits2 b) by lia.
  apply Z.pow_lt_mono_r_iff in H3; [lia | lia | apply Zdigits2_nonneg].
Qed.

(** The quotient of two positive integers, [a <= b], lies between the same
    multiples of [2 ^ (- g)] as the exact quotient. *)
Lemma truediv_bounds (a b L N g : Z) :
  0 < a <= b -> 0 <= g <= 53 -> 0 < N < 2 ^ 53 ->
  L * b <= a * 2 ^ g <= N * b ->
  exists q, truediv a b = Some q /\ sf_between L N (- g) q.
Proof.
  intros [Ha Hab] Hg HN [Hlo Hhi].
  assert (Hdig := Zdigits2_mono a b ltac:(lia)).
  destruct a as [| a | a]; try lia. destruct b as [| b | b]; try lia.
  unfold truediv. cbn [Z.eqb float_of_int SFdiv xorb].
  rewrite div_core_spec.
  set (e' := Z.min (fexp prec emax (Zdigits2 (Zpos a) - Zdigits2 (Zpos b))) 0).
  assert (He : e' <= - 53) by (unfold e'; rewrite fexp64; lia).
  assert (Hp : 0 < 2 ^ (- g - e')) by (apply Z.pow_pos_nonneg; lia).
  assert (Hg2 : 0 < 2 ^ g) by (apply Z.pow_pos_nonneg; lia).
  assert (Hs : 2 ^ (- e') = 2 ^ g * 2 ^ (- g - e')).
  { rewrite <- Z.pow_add_r by lia. f_equal. lia. }
  assert (Hq : 0 <= Zpos a * 2 ^ (- e') / Zpos b) by (apply Z.div_pos; lia).
  assert (H := binary_round_aux_bounds (Zpos a * 2 ^ (- e') / Zpos b) e'
                 (new_location (Zpos b) ((Zpos a * 2 ^ (- e')) mod Zpos b)) L N (- g)
                 Hq HN ltac:(lia) ltac:(lia)).
  assert (Hlow : L * 2 ^ (- g - e') <= Zpos a * 2 ^ (- e') / Zpos b).
  { apply Z.div_le_lower_bound; [lia |]. rewrite Hs. nia. }
  assert (Hb : Zpos a * 2 ^ (- e') / Zpos b < N * 2 ^ (- g - e') \/
               Zpos a * 2 ^ (- e') / Zpos b = N * 2 ^ (- g - e') /\
               new_location (Zpos b) ((Zpos a * 2 ^ (- e')) mod Zpos b) = loc_Exact).
  { destruct (Z.eq_dec (Zpos a * 2 ^ g) (N * Zpos b)) as [Heq | Hne].
    - right.
      replace (Zpos a * 2 ^ (- e')) with ((N * 2 ^ (- g - e')) * Zpos b) by (rewrite Hs; nia).
      rewrite Z_div_mult, Z_mod_mult by lia.
      split; [reflexivity | apply new_location_zero].
    - left. apply Z.div_lt_upper_bound; [lia |]. rewrite Hs. nia. }
  specialize (H Hlow Hb).
  destruct (binary_round_aux prec emax false _ e' _) as [s | s | | s m e] eqn:Hr;
    try contradiction; eexists; (split; [reflexivity | exact H]).
Qed.

(** The product of a bounded float with a positive integer. *)
Lemma mul_int_bounds (q : spec_float) (n L N E : Z) :
  sf_between L N E q -> 0 < n -> 0 <= L -> 0 < N -> N * n < 2 ^ 53 -> -1074 <= E <= 971 ->
  sf_between (L * n) (N * n) E (mul_int q n).
Proof.
  intros Hq Hn HL HN HNn HE.
  destruct n as [| n | n]; try lia.
  destruct q as [s | s | | s m e]; cbn [sf_between] in Hq; try contradiction.
  - destruct Hq as [-> HL0]. cbn. split; [reflexivity | nia].
  - destruct Hq as (-> & He & Hlo & Hhi).
    unfold mul_int. cbn [float_of_int SFmul xorb].
    assert (Hp : 0 < 2 ^ (E - e)) by (apply Z.pow_pos_nonneg; lia).
    replace (e + 0) with e by lia.
    apply binary_round_aux_bounds; try lia.
    + rewrite Pos2Z.inj_mul. nia.
    + rewrite Pos2Z.inj_mul.
      destruct (Z.eq_dec (Zpos m) (N * 2 ^ (E - e))) as [Heq | Hne];
        [right; split; [nia | reflexivity] | left; nia].
Qed.

(** The floor of a bounded float. *)
Lemma floor_bounds (q : spec_float) (L N E : Z) :
  sf_between L N E q -> 0 <= L -> 0 <= N -> E <= 0 ->
  exists p, floor q = Some p /\ L / 2 ^ (- E) <= p <= N / 2 ^ (- E).
Proof.
  intros Hq HL HN HE.
  assert (HpE : 0 < 2 ^ (- E)) by (apply Z.pow_pos_nonneg; lia).
  destruct q as [s | s | | s m e]; cbn [sf_between] in Hq; try contradiction.
  - destruct Hq as [-> HL0]. exists 0. split; [reflexivity |].
    assert (L = 0) by lia. subst L. rewrite Z.div_0_l by lia.
    split; [lia | apply Z.div_pos; lia].
  - destruct Hq as (-> & He & Hlo & Hhi). cbn [floor].
    eexists; split; [reflexivity |].
    assert (Hp : 0 < 2 ^ (E - e)) by (apply Z.pow_pos_nonneg; lia).
    destruct e as [| k | k]; [| lia |].
    + assert (E = 0) by lia. subst E.
      change (2 ^ (0 - 0)) with 1 in *. change (2 ^ (- 0)) with 1. change (2 ^ 0) with 1.
      rewrite !Z.div_1_r. lia.
    + assert (Hk : 2 ^ Zpos k = 2 ^ (- E) * 2 ^ (E - Zneg k)).
      { rewrite <- Z.pow_add_r by lia. f_equal. lia. }
      rewrite Hk. split.
      * rewrite <- (Z.div_mul_cancel_r L (2 ^ (- E)) (2 ^ (E - Zneg k))) by lia.
        apply Z.div_le_mono; lia.
      * rewrite <- (Z.div_mul_cancel_r N (2 ^ (- E)) (2 ^ (E - Zneg k))) by lia.
        apply Z.div_le_mono; lia.
Qed.

(** For [0 < received <= total_size] the percentage is defined and lies
    between 0 and 100. *)
(** A quotient below [2 ^ 1023] is a finite float. *)
Lemma truediv_finite (a b : Z) :
  0 <= a -> 0 < b -> a < 2 ^ 1023 * b -> exists q, truediv a b = Some q.
Proof.
  intros Ha Hb Hlt.
  destruct b as [| b | b]; try lia.
  destruct a as [| a | a]; try lia; [eexists; reflexivity |].
  unfold truediv. cbn [Z.eqb float_of_int SFdiv xorb].
  rewrite div_core_spec.
  set (e' := Z.min (fexp prec emax (Zdigits2 (Zpos a) - Zdigits2 (Zpos b))) 0).
  assert (He : e' <= 0) by (unfold e'; lia).
  assert (Hp : 0 < 2 ^ (- e')) by (apply Z.pow_pos_nonneg; lia).
  assert (Hq : 0 <= Zpos a * 2 ^ (- e') / Zpos b) by (apply Z.div_pos; lia).
  assert (H := binary_round_aux_bounds (Zpos a * 2 ^ (- e') / Zpos b) e'
                 (new_location (Zpos b) ((Zpos a * 2 ^ (- e')) mod Zpos b)) 0 (2 ^ 52) 971
                 Hq ltac:(lia) ltac:(lia) ltac:(lia) ltac:(lia)).
  assert (Hs : 2 ^ 52 * 2 ^ (971 - e') = 2 ^ 1023 * 2 ^ (- e')).
  { rewrite <- !Z.pow_add_r by lia. f_equal. lia. }
  assert (Hlt' : Zpos a * 2 ^ (- e') / Zpos b < 2 ^ 52 * 2 ^ (971 - e')).
  { apply Z.div_lt_upper_bound; [lia |]. rewrite Hs. nia. }
  specialize (H (or_introl Hlt')).
  destruct (binary_round_aux prec emax false _ e' _) as [s | s | | s m e] eqn:Hr;
    try contradiction; eexists; reflexivity.
Qed.

Lemma percent_of_range (received total_size : Z) :
  0 < received <= total_size ->
  exists p, percent_of received total_size = Some p /\ 0 <= p <= 100.
Proof.
  intros H.
  destruct (truediv_bounds received total_size 0 1 0 H ltac:(lia) ltac:(lia) ltac:(lia))
    as (q & Hq & Hb).
  unfold percent_of. rewrite Hq.
  assert (Hm := mul_int_bounds q 100 0 1 (- 0) Hb ltac:(lia) ltac:(lia) ltac:(lia)
                  ltac:(lia) ltac:(lia)).
  destruct (floor_bounds _ _ _ _ Hm ltac:(lia) ltac:(lia) ltac:(lia)) as (p & Hp & Hr).
  exists p. split; [exact Hp |].
  change (2 ^ (- - 0)) with 1 in Hr. rewrite !Z.div_1_r in Hr. lia.
Qed.

(** When everything is received the percentage is exactly 100. *)
Lemma percent_of_all (total_size : Z) :
  0 < total_size -> percent_of total_size total_size = Some 100.
Proof.
  intros H. destruct total_size as [| b | b]; try lia.
  unfold percent_of, truediv. cbn [Z.eqb float_of_int SFdiv xorb].
  rewrite div_core_spec.
  replace (Zdigits2 (Zpos b) - Zdigits2 (Zpos b)) with 0 by lia.
  change (Z.min (fexp prec emax 0) 0) with (-53).
  rewrite Z.mul_comm, Z_div_mult, Z_mod_mult, new_location_zero by lia.
  vm_compute. reflexivity.
Qed.

(** The percentage is within one of the integer quotient. *)
Lemma percent_of_near (received total_size : Z) :
  0 < received <= total_size ->
  exists p, percent_of received total_size = Some p /\
            received * 100 / total_size - 1 <= p <= received * 100 / total_size + 1.
Proof.
  intros H.
  set (J := received * 128 / total_size).
  set (k := received * 100 / total_size).
  assert (HJ : total_size * J <= received * 128 < total_size * (J + 1)).
  { unfold J. split.
    - apply Z.mul_div_le; lia.
    - rewrite Z.mul_add_distr_l, Z.mul_1_r.
      assert (Hx := Z.mod_pos_bound (received * 128) total_size ltac:(lia)).
      rewrite (Z.div_mod (received * 128) total_size) at 1 by lia. lia. }
  assert (Hk : total_size * k <= received * 100 < total_size * (k + 1)).
  { unfold k. split.
    - apply Z.mul_div_le; lia.
    - rewrite Z.mul_add_distr_l, Z.mul_1_r.
      assert (Hx := Z.mod_pos_bound (received * 100) total_size ltac:(lia)).
      rewrite (Z.div_mod (received * 100) total_size) at 1 by lia. lia. }
  assert (HJ0 : 0 <= J) by (unfold J; apply Z.div_pos; lia).
  assert (HJ1 : J <= 128) by nia.
  assert (Hk0 : 0 <= k) by (unfold k; apply Z.div_pos; lia).
  destruct (truediv_bounds received total_size J (J + 1) 7 H ltac:(lia) ltac:(lia))
    as (q & Hq & Hb).
  { change (2 ^ 7) with 128. lia. }
  unfold percent_of. rewrite Hq.
  assert (Hm := mul_int_bounds q 100 J (J + 1) (- 7) Hb ltac:(lia) ltac:(lia) ltac:(lia)
                  ltac:(lia) ltac:(lia)).
  destruct (floor_bounds _ _ _ _ Hm ltac:(lia) ltac:(lia) ltac:(lia)) as (p & Hp & Hr).
  exists p. split; [exact Hp |].
  change (2 ^ (- - 7)) with 128 in Hr.
  assert (H1 : k - 1 <= J * 100 / 128).
  { apply Z.div_le_lower_bound; [lia |]. nia. }
  assert (H2 : (J + 1) * 100 / 128 <= k + 1).
  { apply Z.lt_succ_r. apply Z.div_lt_upper_bound; [lia |]. nia. }
  lia.
Qed.

End FloatFacts.

(** ** Strings and file names *)

Module NameFacts.

Import Spec Downloader.

Section Strip.
Variable p : char -> bool.

Lemma lstrip_length (s : str) : (length (lstrip p s) <= length s)%nat.
Proof. induction s as [| c s IH]; cbn; [lia |]. destruct (p c); cbn; lia. Qed.

Lemma rstrip_length (s : str) : (length (rstrip p s) <= length s)%nat.
Proof.
  induction s as [| c s IH]; cbn; [lia |].
  destruct (rstrip p s); [destruct (p c) |]; cbn in *; lia.
Qed.

Lemma strip_length (s : str) : (length (strip p s) <= length s)%nat.
Proof.
  unfold strip. etransitivity; [apply rstrip_length | apply lstrip_length].
Qed.

Lemma lstrip_Forall (P : char -> Prop) (s : str) :
  Forall P s -> Forall P (lstrip p s).
Proof.
  induction 1 as [| c s Hc Hs IH]; cbn; [constructor |].
  destruct (p c); [exact IH | constructor; assumption].
Qed.

Lemma rstrip_Forall (P : char -> Prop) (s : str) :
  Forall P s -> Forall P (rstrip p s).
Proof.
  induction 1 as [| c s Hc Hs IH]; cbn; [constructor |].
  destruct (rstrip p s); [destruct (p c); repeat constructor; auto |].
  constructor; assumption.
Qed.

Lemma strip_Forall (P : char -> Prop) (s : str) :
  Forall P s -> Forall P (strip p s).
Proof. intros H. apply rstrip_Forall, lstrip_Forall, H. Qed.

(** What [lstrip] returns does not start with a stripped character. *)
Lemma lstrip_head (s : str) :
  match lstrip p s with c :: _ => p c = false | [] => True end.
Proof.
  induction s as [| c s IH]; cbn; [exact I |].
  destruct (p c) eqn:E; [exact IH | exact E].
Qed.

Lemma lstrip_fixed (s : str) :
  match s with c :: _ => p c = false | [] => True end -> lstrip p s = s.
Proof. destruct s as [| c s]; cbn; [reflexivity |]. now intros ->. Qed.

(** [rstrip] keeps the first character of what it returns. *)
Lemma rstrip_head (s : str) :
  match rstrip p s with c :: _ => List.hd_error s = Some c | [] => True end.
Proof.
  destruct s as [| c s]; cbn; [exact I |].
  destruct (rstrip p s); [destruct (p c) |]; cbn; auto.
Qed.

Lemma rstrip_idem (s : str) : rstrip p (rstrip p s) = rstrip p s.
Proof.
  induction s as [| c s IH]; cbn; [reflexivity |].
  destruct (rstrip p s) as [| d r] eqn:E.
  - destruct (p c) eqn:Ec; cbn; [reflexivity | now rewrite Ec].
  - change (rstrip p (c :: d :: r)) with
      (match rstrip p (d :: r) with [] => if p c then [] else [c] | x => c :: x end).
    rewrite IH. reflexivity.
Qed.

Lemma strip_idem (s : str) : strip p (strip p s) = strip p s.
Proof.
  unfold strip.
  assert (H : lstrip p (rstrip p (lstrip p s)) = rstrip p (lstrip p s)).
  { apply lstrip_fixed.
    assert (H1 := rstrip_head (lstrip p s)).
    assert (H2 := lstrip_head s).
    destruct (rstrip p (lstrip p s)) as [| c r]; [exact I |].
    destruct (lstrip p s) as [| d t]; [discriminate |].
    cbn in H1. now injection H1 as ->. }
  rewrite H. apply rstrip_idem.
Qed.
End Strip.

Section StripEnds.
Variable p : char -> bool.

Lemma rstrip_fixed (t : str) (c : char) : p c = false -> rstrip p (t ++ [c]) = t ++ [c].
Proof.
  intros Hc. induction t as [| d t IH]; cbn.
  - now rewrite Hc.
  - rewrite IH.
    destruct (t ++ [c]) eqn:E; [destruct t; discriminate | reflexivity].
Qed.

Lemma rstrip_last (s : str) :
  rstrip p s = [] \/ exists t c, rstrip p s = t ++ [c] /\ p c = false.
Proof.
  induction s as [| d s IH]; cbn; [left; reflexivity |].
  destruct IH as [-> | (t & c & -> & Hc)].
  - destruct (p d) eqn:E; [left; reflexivity |].
    right. exists [], d. split; [reflexivity | exact E].
  - right. exists (d :: t), c. split; [| exact Hc].
    change ((d :: t) ++ [c]) with (d :: (t ++ [c])).
    destruct (t ++ [c]) eqn:E; [destruct t; discriminate | reflexivity].
Qed.

Lemma rstrip_keeps_head (c : char) (s : str) :
  p c = false -> exists t, rstrip p (c :: s) = c :: t.
Proof.
  intros Hc. cbn. destruct (rstrip p s) as [| d r].
  - rewrite Hc. exists []. reflexivity.
  - exists (d :: r). reflexivity.
Qed.
End StripEnds.

Lemma re_sub_legal (s : str) : Forall legal (re_sub_illegal s).
Proof.
  unfold re_sub_illegal. apply Forall_forall. intros c Hc.
  apply list_elem_of_In, in_map_iff in Hc. destruct Hc as (d & <- & _).
  unfold legal. destruct (illegal d) eqn:E; [reflexivity | exact E].
Qed.

Lemma re_sub_fixed (s : str) : Forall legal s -> re_sub_illegal s = s.
Proof.
  induction 1 as [| c s Hc Hs IH]; cbn; [reflexivity |].
  unfold legal in Hc. rewrite Hc. f_equal. exact IH.
Qed.

Lemma re_sub_length (s : str) : length (re_sub_illegal s) = length s.
Proof. apply length_map. Qed.

Lemma splitext_app (p : str) : fst (OsPath.splitext p) ++ snd (OsPath.splitext p) = p.
Proof.
  unfold OsPath.splitext.
  destruct (_ >? _); [| apply app_nil_r].
  destruct (OsPath.has_non_dot _); [apply firstn_skipn | apply app_nil_r].
Qed.

Lemma sanitize_nonempty (s : str) : sanitize_filename s <> [].
Proof.
  unfold sanitize_filename.
  set (f := if is_empty (strip dot_or_space (re_sub_illegal s)) then default_name
            else strip dot_or_space (re_sub_illegal s)).
  assert (Hf : f <> []).
  { unfold f. destruct (strip dot_or_space (re_sub_illegal s)); cbn; discriminate. }
  destruct (_ <? _)%nat eqn:E; [| exact Hf].
  apply Nat.ltb_lt in E.
  assert (H := splitext_app f).
  destruct (OsPath.splitext f) as [name ext]. cbn [fst snd] in H.
  destruct ext as [| c ext]; [| intros Habs; apply app_eq_nil in Habs; destruct Habs; discriminate].
  rewrite app_nil_r in *. subst name.
  unfold slice_to. destruct f as [| c f]; [contradiction | discriminate].
Qed.

Lemma sanitize_short (s : str) :
  (length s <= 255)%nat ->
  (length (sanitize_filename s) <= 255)%nat /\
  sanitize_filename (sanitize_filename s) = sanitize_filename s.
Proof.
  intros Hlen.
  assert (Hstep : forall f, Forall legal f -> strip dot_or_space f = f -> f <> [] ->
                   (length f <= 255)%nat -> sanitize_filename f = f).
  { intros f Hl Hs Hn Hle. unfold sanitize_filename.
    rewrite (re_sub_fixed f Hl), Hs.
    destruct f as [| c f]; [contradiction |]. cbn [is_empty].
    destruct (_ <? _)%nat eqn:E; [| reflexivity].
    apply Nat.ltb_lt in E. cbn [length] in *. lia. }
  assert (Hs1 : sanitize_filename s =
                if is_empty (strip dot_or_space (re_sub_illegal s)) then default_name
                else strip dot_or_space (re_sub_illegal s)).
  { unfold sanitize_filename.
    assert (Hl := strip_length dot_or_space (re_sub_illegal s)).
    rewrite re_sub_length in Hl.
    destruct (strip dot_or_space (re_sub_illegal s)) as [| c f] eqn:E; cbn [is_empty].
    - reflexivity.
    - destruct (_ <? _)%nat eqn:E2; [| reflexivity].
      apply Nat.ltb_lt in E2. cbn [length] in *. lia. }
  rewrite Hs1.
  assert (Hl := strip_length dot_or_space (re_sub_illegal s)).
  rewrite re_sub_length in Hl.
  destruct (strip dot_or_space (re_sub_illegal s)) as [| c f] eqn:E; cbn [is_empty].
  - split; [cbn; lia | reflexivity].
  - split; [lia |]. apply Hstep.
    + rewrite <- E. apply strip_Forall, re_sub_legal.
    + rewrite <- E. apply strip_idem.
    + discriminate.
    + lia.
Qed.

Lemma split_nonempty (c : char) (s : str) : split c s <> [].
Proof.
  destruct s as [| d s]; cbn; [discriminate |].
  destruct (char_eqb d c); [discriminate |]. destruct (split c s); discriminate.
Qed.

Lemma split_no_sep (c : char) (s : str) : c ∉ s -> split c s = [s].
Proof.
  induction s as [| d s IH]; intros H; cbn; [reflexivity |].
  apply not_elem_of_cons in H. destruct H as [Hne Hs].
  unfold char_eqb. destruct (N.eqb_spec d c) as [-> | _]; [contradiction |].
  rewrite (IH Hs). reflexivity.
Qed.

Lemma split_app (c : char) (pre rest : str) :
  split c (pre ++ c :: rest) = split c pre ++ split c rest.
Proof.
  induction pre as [| d pre IH]; cbn.
  - unfold char_eqb. rewrite N.eqb_refl. reflexivity.
  - destruct (char_eqb d c); rewrite IH; [reflexivity |].
    assert (H := split_nonempty c pre).
    destruct (split c pre) as [| x xs]; [contradiction | reflexivity].
Qed.

Lemma last_part_segment (url seg : str) :
  after_last_slash url seg -> last_part (split (ch "/") url) = seg.
Proof.
  intros [Hno [-> | [pre ->]]]; unfold last_part.
  - rewrite (split_no_sep _ _ Hno). reflexivity.
  - rewrite split_app, (split_no_sep _ seg Hno).
    destruct (split (ch "/") pre ++ [seg]) eqn:E.
    + apply app_eq_nil in E. destruct E; discriminate.
    + rewrite <- E. apply List.last_last.
Qed.

Lemma hd_split_query (seg name : str) :
  before_question_mark seg name -> List.hd [] (split (ch "?") seg) = name.
Proof.
  intros [Hno [-> | [q ->]]].
  - rewrite (split_no_sep _ _ Hno). reflexivity.
  - rewrite split_app, (split_no_sep _ name Hno). reflexivity.
Qed.

Lemma after_last_slash_exists (url : str) : exists seg, after_last_slash url seg.
Proof.
  induction url as [| c url [seg [Hno H]]].
  - exists []. split; [apply not_elem_of_nil | left; reflexivity].
  - destruct (decide ((ch "/") ∈ c :: url)) as [Hin | Hnin].
    + destruct H as [-> | [pre ->]].
      * exists seg. split; [exact Hno |]. right. exists [].
        apply elem_of_cons in Hin. destruct Hin as [<- | Hin]; [reflexivity | contradiction].
      * exists seg. split; [exact Hno |]. right. exists (c :: pre). reflexivity.
    + exists (c :: url). split; [exact Hnin | left; reflexivity].
Qed.

Lemma before_question_mark_exists (seg : str) : exists name, before_question_mark seg name.
Proof.
  induction seg as [| c seg [name [Hno H]]].
  - exists []. split; [apply not_elem_of_nil | left; reflexivity].
  - destruct (N.eq_dec c (ch "?")) as [-> | Hne].
    + exists []. split; [apply not_elem_of_nil |]. right. exists seg. reflexivity.
    + exists (c :: name). split.
      * apply not_elem_of_cons. split; [congruence | exact Hno].
      * destruct H as [-> | [q ->]]; [left; reflexivity | right; exists q; reflexivity].
Qed.

Lemma url_filename (url seg name : str) :
  after_last_slash url seg -> before_question_mark seg name ->
  extract_filename_from_url url =
    sanitize_filename (if is_empty name then default_name else name).
Proof.
  intros Hseg Hname. unfold extract_filename_from_url.
  rewrite (last_part_segment _ _ Hseg), (hd_split_query _ _ Hname). reflexivity.
Qed.

(** *** The second pass *)

Lemma strip_trimmed (x : str) :
  Forall legal x -> strip dot_or_space x <> [] -> trimmed (strip dot_or_space x).
Proof.
  intros Hl Hne. split; [apply strip_Forall, Hl |]. unfold strip in *.
  assert (Hh := lstrip_head dot_or_space x).
  assert (Hk := rstrip_head dot_or_space (lstrip dot_or_space x)).
  destruct (rstrip_last dot_or_space (lstrip dot_or_space x))
    as [E | (t & c & E & Hc)]; [contradiction |].
  split; [| exists t, c; split; assumption].
  rewrite E in *. destruct (t ++ [c]) as [| d r] eqn:E2; [contradiction |].
  exists d, r. split; [reflexivity |].
  destruct (lstrip dot_or_space x) as [| d' r']; [discriminate |].
  cbn in Hk. now injection Hk as ->.
Qed.

Lemma default_name_trimmed : trimmed default_name.
Proof.
  split; [repeat constructor |]. split.
  - eexists _, _. split; reflexivity.
  - exists (lit "downloaded_fil"), (ch "e"). split; reflexivity.
Qed.

Lemma trimmed_nonempty (f : str) : trimmed f -> f <> [].
Proof. intros (_ & (c & t & -> & _) & _). discriminate. Qed.

Lemma trimmed_strip (f : str) : trimmed f -> strip dot_or_space f = f.
Proof.
  intros (_ & (c & t & Hf & Hc) & (t' & c' & Hf' & Hc')). unfold strip.
  rewrite (lstrip_fixed dot_or_space f) by (rewrite Hf; exact Hc).
  rewrite Hf'. apply rstrip_fixed, Hc'.
Qed.

(** On a trimmed name only the truncation is left of [sanitize_filename]. *)
Lemma sanitize_trimmed (f : str) : trimmed f -> sanitize_filename f = truncate f.
Proof.
  intros Hf. unfold sanitize_filename, truncate.
  rewrite (re_sub_fixed f (proj1 Hf)), (trimmed_strip f Hf).
  assert (Hne := trimmed_nonempty f Hf).
  destruct f; [contradiction | reflexivity].
Qed.

(** [sanitize_filename] trims, then truncates. *)
Lemma sanitize_truncate (s : str) :
  exists f, trimmed f /\ sanitize_filename s = truncate f /\
            (length f <= Nat.max (length s) 15)%nat.
Proof.
  destruct (strip dot_or_space (re_sub_illegal s)) as [| c t] eqn:E.
  - exists default_name. split; [apply default_name_trimmed |].
    split; [unfold sanitize_filename, truncate; rewrite E; reflexivity |].
    cbn. lia.
  - exists (c :: t). split.
    + rewrite <- E. apply strip_trimmed; [apply re_sub_legal | rewrite E; discriminate].
    + split; [unfold sanitize_filename, truncate; rewrite E; reflexivity |].
      rewrite <- E. assert (H := strip_length dot_or_space (re_sub_illegal s)).
      rewrite re_sub_length in H. lia.
Qed.

Lemma rfind_from_none (c : char) (s : str) (i found : Z) :
  c ∉ s -> rfind_from c i found s = found.
Proof.
  revert i found. induction s as [| d s IH]; intros i found H; [reflexivity |].
  apply not_elem_of_cons in H. destruct H as [Hne Hs]. cbn.
  unfold char_eqb. destruct (N.eqb_spec d c) as [-> | _]; [contradiction |].
  apply IH, Hs.
Qed.

Lemma rfind_from_app (c : char) (a b : str) (i found : Z) :
  c ∉ b -> rfind_from c i found (a ++ c :: b) = i + Z.of_nat (length a).
Proof.
  intros Hb. revert i found. induction a as [| d a IH]; intros i found.
  - cbn. unfold char_eqb. rewrite N.eqb_refl, (rfind_from_none c b _ _ Hb). lia.
  - cbn [app rfind_from length]. rewrite IH. lia.
Qed.

Lemma rfind_none (c : char) (s : str) : c ∉ s -> rfind c s = -1.
Proof. apply rfind_from_none. Qed.

Lemma rfind_app (c : char) (a b : str) :
  c ∉ b -> rfind c (a ++ c :: b) = Z.of_nat (length a).
Proof. intros Hb. unfold rfind. now rewrite rfind_from_app. Qed.

(** A string either lacks [c] or splits at its last [c]. *)
Lemma last_occurrence (c : char) (s : str) :
  c ∉ s \/ exists a b, s = a ++ c :: b /\ c ∉ b.
Proof.
  induction s as [| d s IH]; [left; apply not_elem_of_nil |].
  destruct IH as [Hno | (a & b & -> & Hb)].
  - destruct (N.eq_dec d c) as [-> | Hne].
    + right. exists [], s. split; [reflexivity | exact Hno].
    + left. apply not_elem_of_cons. split; [congruence | exact Hno].
  - right. exists (d :: a), b. split; [reflexivity | exact Hb].
Qed.

Lemma legal_no_sep (f : str) : Forall legal f -> OsPath.sep ∉ f.
Proof.
  intros Hl Hin. rewrite Forall_forall in Hl. specialize (Hl _ Hin).
  vm_compute in Hl. discriminate.
Qed.

(** The two shapes of [splitext] on a trimmed name. *)
Lemma splitext_trimmed (f : str) :
  trimmed f ->
  (OsPath.splitext f = (f, []) /\ (OsPath.extsep ∉ f)) \/
  (exists a b, f = a ++ OsPath.extsep :: b /\ (OsPath.extsep ∉ b) /\
               OsPath.splitext f = (a, OsPath.extsep :: b)).
Proof.
  intros Hf. assert (Hsep := rfind_none _ _ (legal_no_sep f (proj1 Hf))).
  unfold OsPath.splitext. rewrite Hsep.
  destruct (last_occurrence OsPath.extsep f) as [Hno | (a & b & Hab & Hb)].
  - left. rewrite (rfind_none _ _ Hno). split; [reflexivity | exact Hno].
  - right. exists a, b. split; [exact Hab |]. split; [exact Hb |].
    subst f. destruct Hf as (_ & (c & t & Hc & Hp) & _).
    rewrite (rfind_app _ a b Hb).
    destruct a as [| d a].
    { exfalso. injection Hc as <- _. vm_compute in Hp. discriminate. }
    replace (Z.of_nat (length (d :: a)) >? -1) with true
      by (symmetry; apply Z.gtb_lt; lia).
    unfold slice_to, slice_from. rewrite Nat2Z.id. change (Z.to_nat (-1 + 1)) with 0%nat.
    rewrite take_app_length, drop_app_length. cbn [skipn].
    assert (Hd : char_eqb d OsPath.extsep = false).
    { injection Hc as <- _.
      unfold dot_or_space in Hp. apply orb_false_iff in Hp. apply Hp. }
    cbn [OsPath.has_non_dot]. rewrite Hd. reflexivity.
Qed.

Lemma last_occurrence_unique (c : char) (a1 b1 a2 b2 : str) :
  a1 ++ c :: b1 = a2 ++ c :: b2 -> c ∉ b1 -> c ∉ b2 -> a1 = a2 /\ b1 = b2.
Proof.
  intros Heq H1 H2.
  assert (Hlen : length a1 = length a2).
  { assert (Hr := rfind_app c a1 b1 H1). rewrite Heq, (rfind_app c a2 b2 H2) in Hr. lia. }
  apply app_inj_1 in Heq; [| exact Hlen]. destruct Heq as [-> [= ->]]. split; reflexivity.
Qed.

Lemma truncate_short (f : str) : (length f <= 255)%nat -> truncate f = f.
Proof.
  intros H. unfold truncate. destruct (_ <? _)%nat eqn:E; [| reflexivity].
  apply Nat.ltb_lt in E. lia.
Qed.

(** A truncation that keeps an extension is trimmed and is not truncated
    again. *)
Lemma truncate_with_extension (a b : str) :
  trimmed (a ++ OsPath.extsep :: b) -> (OsPath.extsep ∉ b) ->
  trimmed (slice_to 250 a ++ OsPath.extsep :: b) /\
  truncate (slice_to 250 a ++ OsPath.extsep :: b) = slice_to 250 a ++ OsPath.extsep :: b.
Proof.
  intros Hf Hb. unfold slice_to. change (Z.to_nat 250) with 250%nat.
  assert (Ht : trimmed (take 250 a ++ OsPath.extsep :: b)).
  { destruct Hf as (Hl & (c & t & Hc & Hp) & (t' & c' & Hc' & Hp')).
    apply Forall_app in Hl. destruct Hl as [Hla Hlb].
    split; [apply Forall_app; split; [apply Forall_take, Hla | exact Hlb] |].
    split.
    - destruct a as [| d a]; [injection Hc as <- _; vm_compute in Hp; discriminate |].
      injection Hc as <- _. exists d, (take 249 a ++ OsPath.extsep :: b).
      split; [reflexivity | exact Hp].
    - destruct b as [| x b _] using rev_ind.
      + apply app_inj_tail in Hc'. destruct Hc' as [_ <-]. vm_compute in Hp'. discriminate.
      + exists (take 250 a ++ OsPath.extsep :: b), c'.
        split; [| exact Hp'].
        change (a ++ OsPath.extsep :: b ++ [x]) with (a ++ (OsPath.extsep :: b) ++ [x]) in Hc'.
        rewrite app_assoc in Hc'. apply app_inj_tail in Hc'. destruct Hc' as [_ ->].
        change (take 250 a ++ OsPath.extsep :: b ++ [c'])
          with (take 250 a ++ (OsPath.extsep :: b) ++ [c']).
        now rewrite app_assoc. }
  split; [exact Ht |].
  unfold truncate. destruct (_ <? _)%nat; [| reflexivity].
  destruct (splitext_trimmed _ Ht) as [[_ Hno] | (a2 & b2 & Hab & Hb2 & ->)].
  - exfalso. apply Hno. apply elem_of_app. right. apply elem_of_cons. left. reflexivity.
  - destruct (last_occurrence_unique _ _ _ _ _ Hab Hb Hb2) as [<- <-].
    unfold slice_to. change (Z.to_nat 250) with 250%nat.
    rewrite take_take, Nat.min_id. reflexivity.
Qed.

(** A truncation without extension is at most trimmed on its right by a
    second pass. *)
Lemma sanitize_cut (f : str) :
  trimmed f ->
  sanitize_filename (slice_to 250 f) = strip dot_or_space (slice_to 250 f).
Proof.
  intros (Hl & (c & t & -> & Hp) & _). unfold slice_to.
  change (Z.to_nat 250) with 250%nat. cbn [take].
  set (r := c :: take 249 t).
  assert (Hr : Forall legal r).
  { change r with (take 250 (c :: t)). apply Forall_take, Hl. }
  unfold sanitize_filename. rewrite (re_sub_fixed r Hr).
  assert (Hlen : (length (strip dot_or_space r) <= 250)%nat).
  { etransitivity; [apply strip_length |]. unfold r. cbn [length].
    rewrite length_take. lia. }
  assert (Hne : strip dot_or_space r <> []).
  { unfold strip, r. cbn [lstrip]. rewrite Hp.
    destruct (rstrip_keeps_head dot_or_space c (take 249 t) Hp) as [t' ->]. discriminate. }
  destruct (strip dot_or_space r) as [| d u]; [contradiction |]. cbn [is_empty].
  destruct (_ <? _)%nat eqn:E; [| reflexivity].
  apply Nat.ltb_lt in E. lia.
Qed.

Lemma truncate_long (f : str) :
  (255 < length f)%nat ->
  truncate f = slice_to 250 (fst (OsPath.splitext f)) ++ snd (OsPath.splitext f).
Proof.
  intros H. unfold truncate. apply Nat.ltb_lt in H. rewrite H.
  destruct (OsPath.splitext f). reflexivity.
Qed.

(** A second pass of [sanitize_filename] only trims the output of the
    first. *)
Lemma sanitize_twice (s : str) :
  sanitize_filename (sanitize_filename s) = strip dot_or_space (sanitize_filename s).
Proof.
  destruct (sanitize_truncate s) as (f & Hf & -> & _).
  destruct (le_lt_dec (length f) 255) as [Hle | Hgt].
  - rewrite (truncate_short f Hle), (sanitize_trimmed f Hf), (truncate_short f Hle).
    symmetry. apply trimmed_strip, Hf.
  - rewrite (truncate_long f Hgt).
    destruct (splitext_trimmed f Hf) as [[-> _] | (a & b & Hab & Hb & ->)]; cbn [fst snd].
    + rewrite app_nil_r. apply sanitize_cut, Hf.
    + rewrite Hab in Hf. destruct (truncate_with_extension a b Hf Hb) as [Ht Htr].
      rewrite (sanitize_trimmed _ Ht), Htr. symmetry. apply trimmed_strip, Ht.
Qed.

Lemma endswith_char_snoc (c x : char) (t : str) :
  endswith_char c (t ++ [x]) = char_eqb x c.
Proof. unfold endswith_char. rewrite rev_unit. reflexivity. Qed.

(** An output is trimmed, or it is a cut without any dot. *)
Lemma sanitize_shape (s : str) :
  trimmed (sanitize_filename s) \/
  exists f, trimmed f /\ (OsPath.extsep ∉ f) /\ sanitize_filename s = slice_to 250 f.
Proof.
  destruct (sanitize_truncate s) as (f & Hf & -> & _).
  destruct (le_lt_dec (length f) 255) as [Hle | Hgt].
  - left. rewrite (truncate_short f Hle). exact Hf.
  - rewrite (truncate_long f Hgt).
    destruct (splitext_trimmed f Hf) as [[-> Hno] | (a & b & Hab & Hb & ->)]; cbn [fst snd].
    + right. exists f. rewrite app_nil_r.
      split; [exact Hf | split; [exact Hno | reflexivity]].
    + left. rewrite Hab in Hf. apply (truncate_with_extension a b Hf Hb).
Qed.

(** [sanitize_filename] is idempotent exactly where its output does not end
    with a space. *)
Lemma sanitize_idempotent_iff (s : str) :
  sanitize_filename (sanitize_filename s) = sanitize_filename s <->
  endswith_char (ch " ") (sanitize_filename s) = false.
Proof.
  rewrite sanitize_twice. split.
  - intros H. unfold strip in H.
    destruct (rstrip_last dot_or_space (lstrip dot_or_space (sanitize_filename s)))
      as [E | (t & c & E & Hc)]; rewrite E in H; rewrite <- H.
    + reflexivity.
    + rewrite endswith_char_snoc. unfold dot_or_space in Hc.
      apply orb_false_iff in Hc. apply Hc.
  - intros Hend. destruct (sanitize_shape s) as [Ht | (f & Hf & Hno & Hs)].
    + apply trimmed_strip, Ht.
    + rewrite Hs in *. destruct Hf as (Hl & (c & t & -> & Hp) & _).
      unfold slice_to in *. change (Z.to_nat 250) with 250%nat in *. cbn [take] in *.
      unfold strip. cbn [lstrip]. rewrite Hp.
      destruct (take 249 t) as [| x u _] eqn:Eu using rev_ind.
      * cbn. now rewrite Hp.
      * change (c :: u ++ [x]) with ((c :: u) ++ [x]) in *.
        rewrite endswith_char_snoc in Hend.
        apply rstrip_fixed. unfold dot_or_space. rewrite Hend, orb_false_r.
        unfold char_eqb. apply N.eqb_neq. intros ->. apply Hno.
        apply elem_of_cons. right.
        rewrite <- (take_drop 249 t), Eu. apply elem_of_app. left.
        apply elem_of_app. right. apply elem_of_cons. left. reflexivity.
Qed.

(** A query string without a slash has no part in the file name. *)
Lemma url_query_dropped (base q : str) :
  (ch "?") ∉ base -> (ch "/") ∉ q ->
  extract_filename_from_url (base ++ ch "?" :: q) = extract_filename_from_url base.
Proof.
  intros Hb Hq. destruct (after_last_slash_exists base) as [seg [Hno Hs]].
  assert (Hseg : (ch "?") ∉ seg).
  { destruct Hs as [-> | [pre ->]]; [exact Hb |].
    intros Hin. apply Hb. apply elem_of_app. right. now apply elem_of_cons; right. }
  rewrite (url_filename (base ++ ch "?" :: q) (seg ++ ch "?" :: q) seg).
  - symmetry. apply (url_filename base seg seg).
    + split; assumption.
    + split; [exact Hseg | left; reflexivity].
  - split.
    + intros Hin. apply elem_of_app in Hin. destruct Hin as [Hin | Hin]; [contradiction |].
      apply elem_of_cons in Hin. destruct Hin as [Hin | Hin]; [discriminate | contradiction].
    + destruct Hs as [-> | [pre ->]]; [left; reflexivity |].
      right. exists pre. rewrite <- app_assoc. reflexivity.
  - split; [exact Hseg | right; exists q; reflexivity].
Qed.

Lemma url_query_dropped_witness :
  extract_filename_from_url (lit "https://example.org/files/report.pdf" ++ ch "?" :: lit "token=xyz")
    = extract_filename_from_url (lit "https://example.org/files/report.pdf").
Proof.
  apply (url_query_dropped (lit "https://example.org/files/report.pdf") (lit "token=xyz"));
    apply (bool_decide_unpack _); vm_compute; exact I.
Defined.

End NameFacts.

(** ** The transfer *)

Module TransferFacts.

Import Spec Downloader FloatFacts NameFacts.

Lemma total_length_nonneg chunks : 0 <= total_length chunks.
Proof.
  induction chunks as [| c r IH]; [cbn; lia |].
  change (total_length (c :: r)) with (Z.of_nat (length c) + total_length r). lia.
Qed.

Lemma sorted_cons_lt (a p : Z) (tr : list Z) :
  a < p -> StronglySorted Z.lt (p :: tr) -> StronglySorted Z.lt (a :: p :: tr).
Proof.
  intros Hap Hs. constructor; [exact Hs |].
  constructor; [exact Hap |].
  apply StronglySorted_inv in Hs. destruct Hs as [_ Hall].
  eapply Forall_impl; [exact Hall |]. cbn. intros x Hx. lia.
Qed.

Lemma last_cons_default (p a : Z) (tr : list Z) :
  List.last (p :: tr) a = List.last tr p.
Proof.
  revert p a. induction tr as [| q tr IH]; intros p a; [reflexivity |].
  change (List.last (p :: q :: tr) a) with (List.last (q :: tr) a).
  rewrite (IH q a), (IH q p). reflexivity.
Qed.

(** The writes leave the percentages alone. *)
Lemma flush_reported (path : str) (s : running) :
  reported (seen (fst (flush path s))) = reported (seen s).
Proof. unfold flush. destruct (write path (buffer s) (fs (seen s))). reflexivity. Qed.

Lemma do_write_reported (path : str) (data : list byte) (s : running) :
  reported (seen (fst (do_write path data s))) = reported (seen s).
Proof.
  unfold do_write. destruct (_ <=? _)%nat; [reflexivity |].
  assert (Hf := flush_reported path s). destruct (flush path s) as [s1 ok].
  cbn [fst] in Hf. destruct ok; cbn [negb]; [| exact Hf].
  destruct (_ <=? _)%nat; [exact Hf |].
  destruct (write path data (fs (seen s1))) as [fs2 fits].
  destruct fits; [exact Hf |]. destruct (_ <? _)%nat; exact Hf.
Qed.

Lemma do_open_reported (path : str) (s : running) :
  reported (seen (fst (do_open path s))) = reported (seen s).
Proof. unfold do_open. destruct (open_wb path (fs (seen s))); reflexivity. Qed.

Lemma bind_inv {A B} (m : M A) (k : A -> M B) (w w' : running) (out : inner_exn + B) :
  bind m k w = (w', out) ->
  (exists e, m w = (w', inl e) /\ out = inl e) \/
  (exists a w1, m w = (w1, inr a) /\ k a w1 = (w', out)).
Proof.
  unfold bind. destruct (m w) as [w1 [e | a]].
  - intros [= <- <-]. left. exists e. split; reflexivity.
  - intros H. right. exists a, w1. split; [reflexivity | exact H].
Qed.

Lemma with_file_inv {A} (path : str) (body : M A) (s s' : running)
    (out : inner_exn + A) :
  with_file path body s = (s', out) ->
  exists s1 out1 s2 ok,
    body s = (s1, out1) /\ flush path s1 = (s2, ok) /\
    s' = with_buffer [] s2 /\ out = (if ok then out1 else inl OS_error).
Proof.
  unfold with_file. destruct (body s) as [s1 out1].
  destruct (flush path s1) as [s2 ok] eqn:Ef.
  intros [= <- <-]. exists s1, out1, s2, ok.
  split; [reflexivity |]. split; [exact Ef |]. split; reflexivity.
Qed.

(** What the loop reports: an increasing run of percentages above the last
    one reported before, bounded by 100 as long as no more than the total is
    received. *)
Lemma receive_trace (cb : bool) (path : str) (T : Z) (chunks : list (list byte)) :
  forall (received last_percent : Z) (w w' : running) out,
  receive cb path T chunks received last_percent w = (w', out) ->
  exists tr,
    reported (seen w') = reported (seen w) ++ tr /\
    StronglySorted Z.lt (last_percent :: tr) /\
    (cb && (T >? 0) = false -> tr = []) /\
    (forall rl, out = inr rl -> snd rl = List.last tr last_percent) /\
    (0 < T -> 0 <= received -> received + total_length chunks <= T ->
     Forall (fun p => p <= 100) tr).
Proof.
  assert (Hstop : forall (w w1 : running) (a : Z) (e : inner_exn) (P1 P2 P3 : Prop),
           reported (seen w1) = reported (seen w) ->
           exists tr : list Z,
             reported (seen w1) = reported (seen w) ++ tr /\
             StronglySorted Z.lt (a :: tr) /\
             (cb && (T >? 0) = false -> tr = []) /\
             (forall rl : Z * Z, @inl inner_exn (Z * Z) e = inr rl -> snd rl = List.last tr a) /\
             (P1 -> P2 -> P3 -> Forall (fun p => p <= 100) tr)).
  { intros w w1 a e P1 P2 P3 Hw. exists []. rewrite app_nil_r.
    split; [exact Hw |]. split; [repeat constructor |]. split; [reflexivity |].
    split; [intros rl H; discriminate | constructor]. }
  induction chunks as [| chunk rest IH]; intros received last_percent w w' out Hrun.
  - cbn [receive] in Hrun. unfold ret in Hrun. injection Hrun as <- <-.
    exists []. rewrite app_nil_r.
    split; [reflexivity |]. split; [repeat constructor |]. split; [reflexivity |].
    split; [intros rl [= <-]; reflexivity | constructor].
  - cbn [receive] in Hrun. destruct chunk as [| b chunk].
    + apply IH in Hrun. exact Hrun.
    + set (n := Z.of_nat (length (b :: chunk))) in *.
      assert (Hn : 0 < n) by (unfold n; cbn [length]; lia).
      assert (Hsum : total_length ((b :: chunk) :: rest) = n + total_length rest)
        by reflexivity.
      assert (Hr0 := total_length_nonneg rest).
      unfold bind at 1 in Hrun.
      assert (Hw1 := do_write_reported path (b :: chunk) w).
      destruct (do_write path (b :: chunk) w) as [w1 [e | []]]; cbn [fst] in Hw1.
      { injection Hrun as <- <-. apply (Hstop w w1); exact Hw1. }
      rewrite <- Hw1. unfold bind at 1 in Hrun.
      destruct (cb && (T >? 0)) eqn:Ecb.
      * unfold bind at 1 in Hrun. unfold of_option in Hrun.
        destruct (percent_of (received + n) T) as [p |] eqn:Ep.
        2:{ unfold raise in Hrun. injection Hrun as <- <-. apply (Hstop w1 w1). reflexivity. }
        unfold ret at 1 in Hrun.
        destruct (p >? last_percent) eqn:Egt.
        -- unfold bind at 1 in Hrun. unfold call_progress, ret at 1 in Hrun.
           apply IH in Hrun. destruct Hrun as (tr & H1 & H2 & H3 & H4 & H5).
           exists (p :: tr).
           split; [rewrite H1; cbn; rewrite <- app_assoc; reflexivity |].
           split; [apply sorted_cons_lt; [lia | exact H2] |].
           split; [discriminate |].
           split.
           ++ intros rl Hrl. rewrite (H4 rl Hrl). symmetry. apply last_cons_default.
           ++ intros HT Hr Hle. rewrite Hsum in Hle.
              constructor.
              ** destruct (percent_of_range (received + n) T ltac:(lia)) as (p' & Hp' & Hb).
                 rewrite Ep in Hp'. injection Hp' as <-. lia.
              ** apply H5; lia.
        -- unfold ret at 1 in Hrun.
           apply IH in Hrun. destruct Hrun as (tr & H1 & H2 & H3 & H4 & H5).
           exists tr. split; [exact H1 |]. split; [exact H2 |]. split; [discriminate |].
           split; [exact H4 |].
           intros HT Hr Hle. rewrite Hsum in Hle. apply H5; lia.
      * unfold ret at 1 in Hrun.
        apply IH in Hrun. destruct Hrun as (tr & H1 & H2 & H3 & H4 & H5).
        exists tr. split; [exact H1 |]. split; [exact H2 |]. split; [exact H3 |].
        split; [exact H4 |].
        intros HT Hr Hle. rewrite (H3 eq_refl). constructor.
Qed.

Lemma sorted_snoc (a x : Z) (tr : list Z) :
  StronglySorted Z.lt (a :: tr) -> List.last tr a < x ->
  StronglySorted Z.lt (a :: tr ++ [x]).
Proof.
  revert a. induction tr as [| y tr IH]; intros a Hs Hlast.
  - cbn in *. repeat constructor. exact Hlast.
  - rewrite last_cons_default in Hlast.
    apply StronglySorted_inv in Hs. destruct Hs as [Hs Hall].
    specialize (IH y Hs Hlast).
    constructor; [exact IH |].
    apply Forall_cons in Hall. destruct Hall as [Hay Hall].
    constructor; [exact Hay |].
    apply StronglySorted_inv in IH. destruct IH as [_ Hy].
    eapply Forall_impl; [exact Hy |]. cbn. intros z Hz. lia.
Qed.

Lemma Forall_last (P : Z -> Prop) (a : Z) (tr : list Z) :
  P a -> Forall P tr -> P (List.last tr a).
Proof.
  revert a. induction tr as [| y tr IH]; intros a Ha Hall; [exact Ha |].
  rewrite last_cons_default. apply Forall_cons in Hall. destruct Hall as [Hy Hall].
  apply IH; assumption.
Qed.

Lemma sorted_length (a b : Z) (tr : list Z) :
  a <= b -> StronglySorted Z.lt (a :: tr) -> Forall (fun p => p <= b) tr ->
  Z.of_nat (length tr) <= b - a.
Proof.
  revert a. induction tr as [| y tr IH]; intros a Hab Hs Hall.
  - cbn. lia.
  - apply StronglySorted_inv in Hs. destruct Hs as [Hs Hlt].
    apply Forall_cons in Hlt. destruct Hlt as [Hay _].
    apply Forall_cons in Hall. destruct Hall as [Hyb Hall].
    specialize (IH y Hyb Hs Hall). cbn [length]. lia.
Qed.

Lemma sorted_tail (a : Z) (tr : list Z) :
  StronglySorted Z.lt (a :: tr) -> StronglySorted Z.lt tr.
Proof. intros H. apply StronglySorted_inv in H. tauto. Qed.

(** The steps of the [try] block, one after the other: either a step
    raises, or the block returns. *)
Lemma transfer_inv (cb : bool) (path : str) (T : Z) (r : response)
    (w w' : running) (out : inner_exn + str) :
  transfer cb path T (GetResponse r) w = (w', out) ->
  ((400 <=? status_code r) && (status_code r <? 600) = true /\
   w' = w /\ out = inl (Requests (HTTPError (status_code r) (reason r)))) \/
  ((400 <=? status_code r) && (status_code r <? 600) = false /\
   (((if T =? 0 then content_length_int (resp_headers r) else Some T) = None /\
     w' = w /\ out = inl Value_error) \/
    exists T1,
      (if T =? 0 then content_length_int (resp_headers r) else Some T) = Some T1 /\
      ((open_wb path (fs (seen w)) = None /\ w' = w /\ out = inl OS_error) \/
       exists fs1 s1 out1 s2 ok,
         open_wb path (fs (seen w)) = Some fs1 /\
         receive cb path T1 (body r) 0 (-1) (with_buffer [] (with_fs fs1 w))
           = (s1, out1) /\
         flush path s1 = (s2, ok) /\
         match (if ok
                then match out1 with
                     | inl e => inl e
                     | inr rl => match body_error r with
                                 | Some e => inl (Requests e)
                                 | None => inr rl
                                 end
                     end
                else inl OS_error) with
         | inl e => w' = with_buffer [] s2 /\ out = inl e
         | inr rl =>
             w' = (if cb && (T1 >? 0) && (snd rl <? 100)
                   then fst (call_progress 100 (with_buffer [] s2))
                   else with_buffer [] s2) /\
             out = match megabytes (fst rl) with
                   | Some _ => inr path
                   | None => inl Overflow_error
                   end
         end))).
Proof.
  cbn [transfer]. intros Hrun. unfold bind at 1 in Hrun.
  destruct ((400 <=? status_code r) && (status_code r <? 600)) eqn:Es.
  { unfold raise in Hrun. injection Hrun as <- <-. left. repeat split. }
  right. split; [reflexivity |].
  unfold ret at 1 in Hrun. unfold bind at 1 in Hrun.
  destruct (if T =? 0 then content_length_int (resp_headers r) else Some T)
    as [T1 |] eqn:ET.
  2:{ assert (Hm : (if T =? 0
                    then of_option Value_error (content_length_int (resp_headers r))
                    else ret T) w = (w, inl Value_error)).
      { destruct (T =? 0); [rewrite ET; reflexivity | discriminate]. }
      rewrite Hm in Hrun. injection Hrun as <- <-. left. repeat split. }
  assert (Hm : (if T =? 0
                then of_option Value_error (content_length_int (resp_headers r))
                else ret T) w = (w, inr T1)).
  { destruct (T =? 0); [rewrite ET; reflexivity | injection ET as <-; reflexivity]. }
  rewrite Hm in Hrun. clear Hm. right. exists T1. split; [reflexivity |].
  unfold bind at 1 in Hrun. unfold do_open at 1 in Hrun.
  destruct (open_wb path (fs (seen w))) as [fs1 |] eqn:Eo.
  2:{ injection Hrun as <- <-. left. repeat split. }
  right. unfold bind at 1 in Hrun. unfold with_file at 1 in Hrun.
  unfold bind at 1 in Hrun.
  destruct (receive cb path T1 (body r) 0 (-1) (with_buffer [] (with_fs fs1 w)))
    as [s1 out1] eqn:Er.
  assert (Hbody : match out1 with
                  | inl e => (s1, @inl inner_exn (Z * Z) e)
                  | inr a =>
                      ((match body_error r with
                        | Some e => raise (Requests e)
                        | None => ret tt
                        end) >>> ret a) s1
                  end
                  = (s1, match out1 with
                         | inl e => inl e
                         | inr rl => match body_error r with
                                     | Some e => inl (Requests e)
                                     | None => inr rl
                                     end
                         end)).
  { destruct out1 as [e | rl]; [reflexivity |].
    unfold bind. destruct (body_error r); reflexivity. }
  rewrite Hbody in Hrun. clear Hbody.
  destruct (flush path s1) as [s2 ok] eqn:Ef.
  exists fs1, s1, out1, s2, ok.
  split; [reflexivity |]. split; [exact Er |]. split; [exact Ef |].
  destruct ok.
  - destruct out1 as [e | rl].
    + injection Hrun as <- <-. split; reflexivity.
    + destruct (body_error r) as [e |].
      * injection Hrun as <- <-. split; reflexivity.
      * unfold bind at 1 in Hrun.
        destruct (cb && (T1 >? 0) && (snd rl <? 100)).
        -- unfold call_progress at 1 in Hrun. unfold bind at 1 in Hrun.
           cbn [fst]. unfold call_progress. unfold of_option in Hrun.
           destruct (megabytes (fst rl)); unfold ret, raise in Hrun;
             injection Hrun as <- <-; split; reflexivity.
        -- unfold ret at 1 in Hrun. unfold bind at 1 in Hrun. unfold of_option in Hrun.
           destruct (megabytes (fst rl)); unfold ret, raise in Hrun;
             injection Hrun as <- <-; split; reflexivity.
  - injection Hrun as <- <-. split; reflexivity.
Qed.

(** What a whole [try] block reports. *)
Lemma transfer_trace (cb : bool) (path : str) (T : Z) (g : get_outcome)
    (w w' : running) (out : inner_exn + str) :
  transfer cb path T g w = (w', out) ->
  exists tr,
    reported (seen w') = reported (seen w) ++ tr /\
    StronglySorted Z.lt (-1 :: tr) /\
    (forall e, g = GetRaises e -> tr = []) /\
    (forall r T', g = GetResponse r ->
       (if T =? 0 then content_length_int (resp_headers r) else Some T) = Some T' ->
       (cb && (T' >? 0) = false -> tr = []) /\
       (cb = true -> 0 < T' -> total_length (body r) <= T' ->
        forall p, out = inr p ->
        List.last tr (-1) = 100 /\ Forall (fun p => p <= 100) tr)).
Proof.
  assert (Hstop : forall r e,
           out = inl e -> reported (seen w') = reported (seen w) ->
           exists tr : list Z,
             reported (seen w') = reported (seen w) ++ tr /\
             StronglySorted Z.lt (-1 :: tr) /\
             (forall e, GetResponse r = GetRaises e -> tr = []) /\
             (forall r0 T', GetResponse r = GetResponse r0 ->
                (if T =? 0 then content_length_int (resp_headers r0) else Some T) = Some T' ->
                (cb && (T' >? 0) = false -> tr = []) /\
                (cb = true -> 0 < T' -> total_length (body r0) <= T' ->
                 forall p, out = inr p ->
                 List.last tr (-1) = 100 /\ Forall (fun p => p <= 100) tr))).
  { intros r e -> Hw. exists []. rewrite app_nil_r.
    split; [exact Hw |]. split; [repeat constructor |]. split; [reflexivity |].
    intros r0 T' _ _. split; [reflexivity |]. intros _ _ _ p Hp. discriminate. }
  intros Hrun. destruct g as [e | r].
  - cbn [transfer] in Hrun. unfold raise in Hrun. injection Hrun as <- <-.
    exists []. rewrite app_nil_r.
    split; [reflexivity |]. split; [repeat constructor |]. split; [reflexivity |].
    intros r T' H. discriminate.
  - apply transfer_inv in Hrun.
    destruct Hrun as [(_ & -> & Ho) | (_ & [(_ & -> & Ho) | (T1 & HT1 & [(_ & -> & Ho) |
                       (fs1 & s1 & out1 & s2 & ok & _ & Hrec & Hfl & Hend)])])].
    1-3: apply (Hstop r _ Ho); reflexivity.
    apply receive_trace in Hrec. destruct Hrec as (tr & H1 & H2 & H3 & H4 & H5).
    cbn [seen with_buffer with_fs reported] in H1.
    assert (Hs2 : reported (seen (with_buffer [] s2)) = reported (seen w) ++ tr).
    { cbn [with_buffer seen]. rewrite <- H1.
      assert (Hf := flush_reported path s1). rewrite Hfl in Hf. exact Hf. }
    assert (Hfail : forall e, w' = with_buffer [] s2 /\ out = inl e ->
              exists tr : list Z,
                reported (seen w') = reported (seen w) ++ tr /\
                StronglySorted Z.lt (-1 :: tr) /\
                (forall e, GetResponse r = GetRaises e -> tr = []) /\
                (forall r0 T', GetResponse r = GetResponse r0 ->
                   (if T =? 0 then content_length_int (resp_headers r0) else Some T)
                   = Some T' ->
                   (cb && (T' >? 0) = false -> tr = []) /\
                   (cb = true -> 0 < T' -> total_length (body r0) <= T' ->
                    forall p, out = inr p ->
                    List.last tr (-1) = 100 /\ Forall (fun p => p <= 100) tr))).
    { intros e [-> ->]. exists tr. split; [exact Hs2 |]. split; [exact H2 |].
      split; [discriminate |].
      intros r0 T' [= <-] HT'. rewrite HT1 in HT'. injection HT' as <-.
      split; [exact H3 |]. intros _ _ _ p Hp. discriminate. }
    destruct ok; [| apply (Hfail _ Hend)].
    destruct out1 as [e | rl]; [apply (Hfail _ Hend) |].
    destruct (body_error r) as [e |]; [apply (Hfail _ Hend) |].
    destruct Hend as [-> ->]. specialize (H4 _ eq_refl).
    destruct (cb && (T1 >? 0)) eqn:Ecb; cbn [andb].
    + destruct (snd rl <? 100) eqn:Elt.
      * unfold call_progress. cbn [fst seen reported].
        exists (tr ++ [100]). rewrite Hs2, app_assoc.
        split; [reflexivity |].
        split; [apply (sorted_snoc (-1) 100 tr H2); rewrite <- H4;
                apply Z.ltb_lt in Elt; lia |].
        split; [discriminate |].
        intros r0 T' [= <-] HT'. rewrite HT1 in HT'. injection HT' as <-.
        split; [congruence |]. intros _ HT Hle p _.
        split; [apply List.last_last |].
        apply Forall_app. split; [apply H5; lia | repeat constructor; lia].
      * exists tr. split; [exact Hs2 |]. split; [exact H2 |]. split; [discriminate |].
        intros r0 T' [= <-] HT'. rewrite HT1 in HT'. injection HT' as <-.
        split; [congruence |]. intros _ HT Hle p _.
        assert (Hall : Forall (fun p => p <= 100) tr) by (apply H5; lia).
        split; [| exact Hall].
        assert (Hl := Forall_last (fun p => p <= 100) (-1) tr ltac:(cbn; lia) Hall).
        cbn beta in Hl. rewrite <- H4 in *. apply Z.ltb_ge in Elt. lia.
    + exists tr. split; [exact Hs2 |]. split; [exact H2 |]. split; [discriminate |].
      intros r0 T' [= <-] HT'. rewrite HT1 in HT'. injection HT' as <-.
      split; [intros _; exact (H3 eq_refl) |]. intros Hcb HT _ p _. subst cb.
      cbn [andb] in Ecb. destruct (Z.gtb_spec T1 0); [discriminate | lia].
Qed.

Lemma cleanup_reported (path : str) (w w' : world) :
  cleanup path w = Some w' -> reported w' = reported w.
Proof.
  unfold cleanup. destruct (path_exists path (fs w)); [| now intros [= <-]].
  destruct (os_remove path (fs w)); [now intros [= <-] | discriminate].
Qed.

Lemma cleanup_absent (path : str) (w w' : world) :
  cleanup path w = Some w' -> files (fs w') !! path = None.
Proof.
  unfold cleanup, path_exists, os_remove.
  destruct (bool_decide (is_Some (files (fs w) !! path))) eqn:E.
  - destruct (bool_decide (path ∈ undeletable (fs w))); [discriminate |].
    intros [= <-]. cbn. apply lookup_delete_eq.
  - intros [= <-]. apply bool_decide_eq_false in E. apply eq_None_not_Some. exact E.
Qed.


Lemma reraise_reported (path : str) (w : world) (err : download_error) :
  reported (fst (reraise path w err)) = reported w.
Proof.
  unfold reraise. destruct (cleanup path w) as [w' |] eqn:E; [| reflexivity].
  apply (cleanup_reported _ _ _ E).
Qed.

Lemma handle_reported (path : str) (e : inner_exn) (w : world) :
  reported (fst (handle path e w)) = reported w.
Proof.
  destruct e as [[] | | |]; cbn [handle fst]; try apply reraise_reported; reflexivity.
Qed.

Lemma reraise_absent (path : str) (w : world) (err : download_error) :
  classified (snd (reraise path w err)) = true ->
  files (fs (fst (reraise path w err))) !! path = None.
Proof.
  unfold reraise. destruct (cleanup path w) as [w' |] eqn:E; [| discriminate].
  intros _. apply (cleanup_absent _ _ _ E).
Qed.

Lemma handle_absent (path : str) (e : inner_exn) (w : world) :
  classified (snd (handle path e w)) = true ->
  files (fs (fst (handle path e w))) !! path = None.
Proof.
  destruct e as [[] | | |]; cbn [handle]; try apply reraise_absent;
    cbn [snd classified]; discriminate.
Qed.


(** No step of a transfer changes which paths can be removed, or the block
    size. *)
Lemma flush_static (path : str) (s : running) :
  undeletable (fs (seen (fst (flush path s)))) = undeletable (fs (seen s)) /\
  st_blksize (fs (seen (fst (flush path s)))) = st_blksize (fs (seen s)).
Proof. split; reflexivity. Qed.

Lemma do_write_static (path : str) (data : list byte) (s : running) :
  undeletable (fs (seen (fst (do_write path data s)))) = undeletable (fs (seen s)) /\
  st_blksize (fs (seen (fst (do_write path data s)))) = st_blksize (fs (seen s)).
Proof.
  unfold do_write. destruct (_ <=? _)%nat; [split; reflexivity |].
  unfold flush. cbn [fst snd write]. destruct (bool_decide _); cbn [negb];
    [| split; reflexivity].
  destruct (_ <=? _)%nat; [split; reflexivity |].
  destruct (bool_decide _); [split; reflexivity |].
  destruct (_ <? _)%nat; split; reflexivity.
Qed.

(** The step of the loop that reports the percentage touches neither the
    file system nor the buffer. *)
Lemma progress_step (cb : bool) (T n last_percent : Z) (s1 s2 : running)
    (o : inner_exn + Z) :
  (if cb && (T >? 0)
   then let! current_percent := of_option Overflow_error (percent_of n T) in
        if current_percent >? last_percent
        then call_progress current_percent >>> ret current_percent
        else ret last_percent
   else ret last_percent) s1 = (s2, o) ->
  fs (seen s2) = fs (seen s1) /\ buffer s2 = buffer s1.
Proof.
  destruct (cb && (T >? 0)); [| unfold ret; now intros [= <- _]].
  unfold bind at 1, of_option. destruct (percent_of _ _) as [p |];
    [| unfold raise; now intros [= <- _]].
  unfold ret at 1. destruct (p >? last_percent); [| unfold ret; now intros [= <- _]].
  unfold bind, call_progress, ret. now intros [= <- _].
Qed.

Lemma receive_static (cb : bool) (path : str) (T : Z) (chunks : list (list byte)) :
  forall (received last_percent : Z) (s s' : running) out,
  receive cb path T chunks received last_percent s = (s', out) ->
  undeletable (fs (seen s')) = undeletable (fs (seen s)) /\
  st_blksize (fs (seen s')) = st_blksize (fs (seen s)).
Proof.
  induction chunks as [| chunk rest IH]; intros received last_percent s s' out Hrun.
  - cbn [receive] in Hrun. unfold ret in Hrun. injection Hrun as <- _. split; reflexivity.
  - cbn [receive] in Hrun. destruct chunk as [| b chunk]; [apply IH in Hrun; exact Hrun |].
    unfold bind at 1 in Hrun.
    assert (Hw := do_write_static path (b :: chunk) s).
    destruct (do_write path (b :: chunk) s) as [s1 [e | []]]; cbn [fst] in Hw.
    { injection Hrun as <- _. exact Hw. }
    unfold bind at 1 in Hrun.
    match type of Hrun with (let (_, _) := ?m in _) = _ =>
      destruct m as [s2 [e | lp]] eqn:Ek end;
      apply progress_step in Ek; destruct Ek as [Ek _].
    + injection Hrun as <- _. rewrite Ek. exact Hw.
    + apply IH in Hrun. rewrite Ek in Hrun.
      destruct Hrun as [H1 H2], Hw as [H3 H4]. split; congruence.
Qed.

Lemma transfer_static (cb : bool) (path : str) (T : Z) (g : get_outcome)
    (s s' : running) (out : inner_exn + str) :
  transfer cb path T g s = (s', out) ->
  undeletable (fs (seen s')) = undeletable (fs (seen s)) /\
  st_blksize (fs (seen s')) = st_blksize (fs (seen s)).
Proof.
  intros Hrun. destruct g as [e | r].
  { cbn [transfer] in Hrun. unfold raise in Hrun. injection Hrun as <- _.
    split; reflexivity. }
  apply transfer_inv in Hrun.
  destruct Hrun as [(_ & -> & _) | (_ & [(_ & -> & _) | (T1 & _ & [(_ & -> & _) |
                     (fs1 & s1 & out1 & s2 & ok & Ho & Hrec & Hfl & Hend)])])];
    try (split; reflexivity).
  apply receive_static in Hrec. cbn [with_buffer with_fs seen fs] in Hrec.
  assert (Hfs1 : undeletable fs1 = undeletable (fs (seen s)) /\
                 st_blksize fs1 = st_blksize (fs (seen s))).
  { unfold open_wb in Ho. destruct (bool_decide _); [discriminate |].
    injection Ho as <-. split; reflexivity. }
  assert (Hf := flush_static path s1). rewrite Hfl in Hf. cbn [fst] in Hf.
  assert (Hs2 : undeletable (fs (seen (with_buffer [] s2))) = undeletable (fs (seen s)) /\
                st_blksize (fs (seen (with_buffer [] s2))) = st_blksize (fs (seen s))).
  { cbn [with_buffer seen]. destruct Hrec, Hfs1, Hf. split; congruence. }
  destruct (if ok then _ else _) as [e | rl].
  - destruct Hend as [-> _]. exact Hs2.
  - destruct Hend as [-> _]. destruct (_ && _); exact Hs2.
Qed.

End TransferFacts.

(** ** bot/downloader.py: the properties of the specification *)

Module DownloaderSpec.

Import Spec Downloader Validators UrlParse FloatFacts NameFacts TransferFacts.

Lemma download_file_inv (url : str) (cb : bool) (temp_dir : str) (net : network)
    (fs0 : filesystem) (filename : str) (T : Z) :
  probe url (requests_head net) = inr (filename, T) ->
  let path := OsPath.join temp_dir filename in
  let s0 := {| seen := {| fs := fs0; reported := [] |}; buffer := [] |} in
  exists s1 out,
    transfer cb path T (requests_get net) s0 = (s1, out) /\
    download_file url cb temp_dir net fs0 =
      match out with
      | inr p => (seen s1, inr p)
      | inl e => (fst (handle path e (seen s1)), inl (snd (handle path e (seen s1))))
      end.
Proof.
  intros Hp path s0. unfold download_file. rewrite Hp. fold path. fold s0.
  destruct (transfer cb path T (requests_get net) s0) as [s1 [e | p]].
  - exists s1, (inl e). split; [reflexivity |].
    destruct (handle path e (seen s1)); reflexivity.
  - exists s1, (inr p). split; reflexivity.
Qed.



(** The failure kinds one by one, each on a device where the local path
    holds a file before the call: a timeout, a status of 404, a refused
    connection, a stream that breaks, and a device too full for the body
    each end in their classified error with no file at the path. *)
Lemma failure_kinds_cleaned :
  (snd (download_file Scenario.url true Scenario.temp_dir Scenario.net_timeout
          (Scenario.stale 1000)) = inl TimeoutError /\
   files (fs (fst (download_file Scenario.url true Scenario.temp_dir
                     Scenario.net_timeout (Scenario.stale 1000))))
     !! Scenario.path = None) /\
  (snd (download_file Scenario.url true Scenario.temp_dir Scenario.net_404
          (Scenario.stale 1000)) = inl (HttpValueError 404 (lit "Not Found")) /\
   files (fs (fst (download_file Scenario.url true Scenario.temp_dir
                     Scenario.net_404 (Scenario.stale 1000))))
     !! Scenario.path = None) /\
  (snd (download_file Scenario.url true Scenario.temp_dir Scenario.net_refused
          (Scenario.stale 1000)) = inl ConnectionFailed /\
   files (fs (fst (download_file Scenario.url true Scenario.temp_dir
                     Scenario.net_refused (Scenario.stale 1000))))
     !! Scenario.path = None) /\
  (snd (download_file Scenario.url true Scenario.temp_dir Scenario.net_broken
          (Scenario.stale 1000)) = inl RuntimeError /\
   files (fs (fst (download_file Scenario.url true Scenario.temp_dir
                     Scenario.net_broken (Scenario.stale 1000))))
     !! Scenario.path = None) /\
  (snd (download_file Scenario.url true Scenario.temp_dir Scenario.net_29_71
          (Scenario.stale 10)) = inl WriteError /\
   files (fs (fst (download_file Scenario.url true Scenario.temp_dir
                     Scenario.net_29_71 (Scenario.stale 10))))
     !! Scenario.path = None).
Proof. repeat split; vm_compute; reflexivity. Qed.

Lemma last_of_default (x d : Z) (tr : list Z) :
  List.last tr d = x -> x <> d -> last tr = Some x.
Proof.
  revert d. induction tr as [| y tr IH]; intros d Hl Hne; [cbn in Hl; congruence |].
  rewrite last_cons_default in Hl. destruct tr as [| z tr].
  - cbn in *. congruence.
  - change (last (y :: z :: tr)) with (last (z :: tr)).
    destruct (Z.eq_dec x y) as [-> | Hxy].
    + clear IH. revert z Hl. induction tr as [| v tr IH2]; intros z Hl.
      * cbn in *. congruence.
      * change (last (z :: v :: tr)) with (last (v :: tr)).
        change (List.last (z :: v :: tr) y) with (List.last (v :: tr) y) in Hl.
        apply IH2, Hl.
    + apply (IH y Hl Hxy).
Qed.

(** What a successful transfer with a known size reports, for chunks that
    do not exceed the total. *)
Lemma progress_of_success (url temp_dir : str) (net : network) (fs0 : filesystem)
    (r : response) (T : Z) (w : world) (path : str) :
  requests_get net = GetResponse r ->
  total_size_of url net = Some T -> 0 < T ->
  total_length (body r) <= T ->
  download_file url true temp_dir net fs0 = (w, inr path) ->
  StronglySorted Z.lt (-1 :: reported w) /\
  List.last (reported w) (-1) = 100 /\
  Forall (fun p => p <= 100) (reported w).
Proof.
  unfold total_size_of. intros Hg HT Hpos Hsum Hrun.
  destruct (probe url (requests_head net)) as [x | [filename T0]] eqn:Hprobe;
    [discriminate |].
  destruct (download_file_inv url true temp_dir net fs0 filename T0 Hprobe)
    as (w1 & out & Htr & Hd).
  rewrite Hd in Hrun. destruct out as [e | p]; [discriminate |].
  injection Hrun as <- <-.
  apply transfer_trace in Htr. destruct Htr as (tr & H1 & H2 & _ & H4).
  cbn [seen reported app] in H1. rewrite H1.
  rewrite Hg in HT.
  assert (HT' : (if T0 =? 0 then content_length_int (resp_headers r) else Some T0)
                = Some T).
  { destruct (T0 =? 0); [exact HT | exact HT]. }
  destruct (H4 r T Hg HT') as [_ H5].
  destruct (H5 eq_refl Hpos Hsum p eq_refl) as [H6 H7].
  split; [exact H2 |]. split; [exact H6 | exact H7].
Qed.

(** C2. For chunk sizes that sum to the declared positive total size, the
    percentages passed to the progress callback by a transfer that
    completes are strictly increasing, end with exactly 100, and are at
    most 101 in number. *)
Theorem progress_monotone (url temp_dir : str) (net : network) (fs0 : filesystem)
    (r : response) (T : Z) (w : world) (path : str) :
  requests_get net = GetResponse r ->
  total_size_of url net = Some T -> 0 < T ->
  total_length (body r) = T ->
  download_file url true temp_dir net fs0 = (w, inr path) ->
  StronglySorted Z.lt (reported w) /\
  last (reported w) = Some 100 /\
  (length (reported w) <= 101)%nat.
Proof.
  intros Hg HT Hpos Hsum Hrun.
  destruct (progress_of_success url temp_dir net fs0 r T w path Hg HT Hpos
              ltac:(lia) Hrun) as (Hs & Hl & Hall).
  split; [apply (sorted_tail _ _ Hs) |].
  split; [apply (last_of_default 100 (-1)); [exact Hl | lia] |].
  assert (H := sorted_length (-1) 100 _ ltac:(lia) Hs Hall). lia.
Qed.

Lemma progress_monotone_witness :
  StronglySorted Z.lt [28; 100] /\ last [28; 100] = Some 100 /\
  (length [28; 100] <= 101)%nat.
Proof.
  apply (progress_monotone Scenario.url Scenario.temp_dir Scenario.net_29_71
           (Scenario.disk 1000)
           {| status_code := 200; reason := lit "OK";
              resp_headers := Scenario.no_headers;
              body := [repeat x00 29; repeat x00 71]; body_error := None |}
           100
           {| fs := {| files := {[ Scenario.path := repeat x00 100 ]};
                       denied := ∅; undeletable := ∅; st_blksize := 4096;
                       free := 900 |};
              reported := [28; 100] |}
           Scenario.path).
  - reflexivity.
  - vm_compute. reflexivity.
  - lia.
  - vm_compute. reflexivity.
  - vm_compute. reflexivity.
Defined.

(** C8. When the total size is 0 (unknown), no percentage is ever passed to
    the progress callback, whatever is received and however the transfer
    ends: not even a final 100. *)
Theorem unknown_size_silence (url : str) (cb : bool) (temp_dir : str)
    (net : network) (fs0 : filesystem) :
  total_size_of url net = Some 0 ->
  reported (fst (download_file url cb temp_dir net fs0)) = [].
Proof.
  unfold total_size_of. intros HT.
  destruct (probe url (requests_head net)) as [x | [filename T0]] eqn:Hprobe;
    [discriminate |].
  destruct (download_file_inv url cb temp_dir net fs0 filename T0 Hprobe)
    as (w1 & out & Htr & Hd).
  rewrite Hd.
  apply transfer_trace in Htr. destruct Htr as (tr & H1 & _ & H3 & H4).
  cbn [seen reported app] in H1.
  assert (Htr : tr = []).
  { destruct (requests_get net) as [e | r] eqn:Hg.
    - apply (H3 e eq_refl).
    - assert (HT' : (if T0 =? 0 then content_length_int (resp_headers r) else Some T0)
                    = Some 0).
      { destruct (T0 =? 0); [exact HT | exact HT]. }
      destruct (H4 r 0 eq_refl HT') as [H5 _].
      apply H5. apply andb_false_r. }
  rewrite Htr in H1. destruct out as [e | p]; cbn [fst].
  - rewrite handle_reported. exact H1.
  - exact H1.
Qed.

Lemma unknown_size_silence_witness :
  reported (fst (download_file Scenario.url true Scenario.temp_dir
                   Scenario.net_unknown (Scenario.disk 1000))) = [].
Proof.
  apply (unknown_size_silence Scenario.url true Scenario.temp_dir
           Scenario.net_unknown (Scenario.disk 1000)).
  vm_compute. reflexivity.
Defined.

(** *** File names *)

Lemma utf8_len_ascii (s : str) : Forall is_ascii s -> utf8_len s = length s.
Proof.
  induction 1 as [| c s Hc Hs IH]; [reflexivity |].
  cbn [utf8_len List.fold_right length]. fold (utf8_len s). rewrite IH.
  unfold utf8_len1. unfold is_ascii in Hc.
  destruct (N.ltb_spec c 128); [reflexivity | lia].
Qed.

Lemma re_sub_ascii (s : str) : Forall is_ascii s -> Forall is_ascii (re_sub_illegal s).
Proof.
  induction 1 as [| c s Hc Hs IH]; cbn; constructor; [| exact IH].
  destruct (illegal c); [reflexivity | exact Hc].
Qed.

Lemma default_name_ascii : Forall is_ascii default_name.
Proof. repeat constructor. Qed.

(** Names of at most 255 characters are not truncated. *)
Lemma sanitize_short_form (s : str) :
  (length s <= 255)%nat ->
  sanitize_filename s =
    if is_empty (strip dot_or_space (re_sub_illegal s)) then default_name
    else strip dot_or_space (re_sub_illegal s).
Proof.
  intros Hlen. unfold sanitize_filename.
  assert (Hl := strip_length dot_or_space (re_sub_illegal s)).
  rewrite re_sub_length in Hl.
  destruct (strip dot_or_space (re_sub_illegal s)) as [| c f] eqn:E; cbn [is_empty].
  - reflexivity.
  - destruct (_ <? _)%nat eqn:E2; [| reflexivity].
    apply Nat.ltb_lt in E2. cbn [length] in *. lia.
Qed.

(** What holds of every input: the output of [sanitize_filename] is never
    empty, and a second pass changes it exactly when it ends with a space.
    For an input of at most 255 characters the output has at most 255
    characters, sanitizing it again returns it unchanged, and it takes at
    most 255 bytes when the input is ASCII. *)
Lemma sanitize_filename_contract (s : str) :
  sanitize_filename s <> [] /\
  (sanitize_filename (sanitize_filename s) = sanitize_filename s <->
   endswith_char (ch " ") (sanitize_filename s) = false) /\
  ((length s <= 255)%nat ->
   (length (sanitize_filename s) <= 255)%nat /\
   sanitize_filename (sanitize_filename s) = sanitize_filename s /\
   (Forall is_ascii s -> (utf8_len (sanitize_filename s) <= 255)%nat)).
Proof.
  split; [apply sanitize_nonempty |].
  split; [apply sanitize_idempotent_iff |].
  intros Hlen. destruct (sanitize_short s Hlen) as [H1 H2].
  split; [exact H1 |]. split; [exact H2 |].
  intros Ha. rewrite utf8_len_ascii; [exact H1 |].
  rewrite (sanitize_short_form s Hlen).
  destruct (is_empty _); [apply default_name_ascii |].
  apply strip_Forall, re_sub_ascii, Ha.
Qed.

Lemma sanitize_filename_contract_witness :
  sanitize_filename (sanitize_filename (lit "..  a<b>c.txt . "))
    = sanitize_filename (lit "..  a<b>c.txt . ").
Proof.
  apply (proj2 (proj2 (sanitize_filename_contract (lit "..  a<b>c.txt . ")))).
  vm_compute. lia.
Defined.

(** C3 fails on the code: lines 38 to 40 cut the name before the extension
    and keep the extension whole, so the name made of a, a dot and 300
    letters b comes back as it is, 302 characters and 302 bytes long, above
    the limit of 255 the lines are there to keep. *)
Lemma sanitize_exceeds_limit :
  sanitize_filename Scenario.long_extension = Scenario.long_extension /\
  length (sanitize_filename Scenario.long_extension) = 302%nat /\
  utf8_len (sanitize_filename Scenario.long_extension) = 302%nat.
Proof. repeat split; vm_compute; reflexivity. Qed.

(** A truncation that ends on a space is trimmed by a second pass. *)
Lemma sanitize_twice_differs :
  sanitize_filename (sanitize_filename Scenario.space_at_250)
    <> sanitize_filename Scenario.space_at_250.
Proof.
  intros H. apply (f_equal (@length N)) in H. vm_compute in H. discriminate.
Qed.

(** *** Percentages *)

(** C4, as amended. For a positive total and a number of received bytes
    between 1 and the total, the percentage is the floor of the
    double-precision product [received / total_size * 100]: it lies between
    0 and 100, is within one of the integer quotient
    [received * 100 / total_size], and is 100 when all bytes are
    received. *)
Theorem percent_of_floor (received total_size : Z) :
  0 < received <= total_size ->
  exists p, percent_of received total_size = Some p /\
            0 <= p <= 100 /\
            received * 100 / total_size - 1 <= p <= received * 100 / total_size + 1 /\
            (received = total_size -> p = 100).
Proof.
  intros H.
  destruct (percent_of_range received total_size H) as (p & Hp & Hr).
  destruct (percent_of_near received total_size H) as (p' & Hp' & Hn).
  rewrite Hp in Hp'. injection Hp' as <-.
  exists p. split; [exact Hp |]. split; [exact Hr |]. split; [exact Hn |].
  intros ->. rewrite percent_of_all in Hp by lia. congruence.
Qed.

Lemma percent_of_floor_witness :
  exists p, percent_of 29 100 = Some p /\
            0 <= p <= 100 /\
            29 * 100 / 100 - 1 <= p <= 29 * 100 / 100 + 1 /\
            (29 = 100 -> p = 100).
Proof. apply (percent_of_floor 29 100). lia. Defined.

(** C4 as stated fails: with 100 bytes announced, 29 bytes received are
    reported as 28 percent although the integer quotient is 29, and 150
    bytes received are reported as 150 percent. *)
Lemma percent_counterexample :
  reported (fst (download_file Scenario.url true Scenario.temp_dir
                   Scenario.net_29_71 (Scenario.disk 1000))) = [28; 100] /\
  29 * 100 / 100 = 29 /\
  reported (fst (download_file Scenario.url true Scenario.temp_dir
                   Scenario.net_150 (Scenario.disk 1000))) = [150].
Proof. repeat split; vm_compute; reflexivity. Qed.

(** *** The probe *)

(** A probe that fails with a [requests] exception is not fatal: the file
    name comes from the URL and the size is unknown. *)
Lemma probe_request_failure (url : str) (e : requests_exception) :
  probe url (HeadRaises e) = inr (extract_filename_from_url url, 0).
Proof. reflexivity. Qed.

(** The file name of a probe that does not raise. *)
Lemma probe_filename (url : str) (h : head_outcome) (filename : str) (T : Z) :
  probe url h = inr (filename, T) ->
  filename = match h with
             | HeadResponse hs =>
                 match extract_filename_from_headers hs with
                 | Some f => if is_empty f then extract_filename_from_url url else f
                 | None => extract_filename_from_url url
                 end
             | HeadRaises _ => extract_filename_from_url url
             end.
Proof.
  unfold probe. destruct h as [e | hs]; [now intros [= <- _] |].
  destruct (content_length_int hs) as [n |]; [| discriminate].
  destruct (n >? 0); [destruct (megabytes n); [| discriminate] |]; now intros [= <- _].
Qed.

(** A Content-Length that [int] rejects makes the probe raise, and with it
    [download_file], before any file is written. *)
Lemma probe_malformed_length (url : str) (cb : bool) (temp_dir : str)
    (net : network) (fs0 : filesystem) (hs : headers) (v : str) :
  requests_head net = HeadResponse hs ->
  content_length hs = Some v -> int_of_str v = None ->
  download_file url cb temp_dir net fs0 =
    ({| fs := fs0; reported := [] |}, inl (Unhandled Value_error)).
Proof.
  intros Hh Hv Hi. unfold download_file, probe, content_length_int.
  rewrite Hh, Hv, Hi. reflexivity.
Qed.

(** C6 fails on the code: a probe answered with the header
    Content-Length: abc makes [download_file] raise [ValueError] instead of
    proceeding to the transfer. *)
Lemma probe_bad_length_raises :
  download_file Scenario.url true Scenario.temp_dir Scenario.net_bad_length
    (Scenario.disk 1000)
  = ({| fs := Scenario.disk 1000; reported := [] |}, inl (Unhandled Value_error)).
Proof. vm_compute. reflexivity. Qed.

(** *** The file name from the URL *)

(** C9 fails on the code: the name is cut out of the URL string as what
    follows its last slash, whatever part of the URL that is.  A URL
    without a path gives the name of its host, where the last path segment
    is empty and the default name is due; a slash in the query string gives
    a piece of the query, where the last path segment is a.pdf.  Both URLs
    pass [is_valid_url].  The URL of the scenario resolves to
    report.pdf. *)
Lemma url_filename_not_path_segment :
  probe Scenario.url_without_path (HeadResponse Scenario.no_headers)
    = inr (lit "example.org", 0) /\
  probe Scenario.url_query_slash (HeadResponse Scenario.no_headers)
    = inr (lit "x.txt", 0) /\
  (forall lib, is_valid_url lib Scenario.url_without_path = (true, [])) /\
  (forall lib, is_valid_url lib Scenario.url_query_slash = (true, [])) /\
  probe Scenario.url (HeadResponse Scenario.no_headers) = inr (lit "report.pdf", 0).
Proof.
  split; [vm_compute; reflexivity |]. split; [vm_compute; reflexivity |].
  split; [intros lib; vm_compute; reflexivity |].
  split; [intros lib; vm_compute; reflexivity |].
  vm_compute. reflexivity.
Qed.

End DownloaderSpec.

(** ** What a transfer does to the file system *)

Module StorageFacts.

Import Spec Downloader FloatFacts NameFacts TransferFacts DownloaderSpec.

Lemma same_elsewhere_refl (path : str) (a : filesystem) : same_elsewhere path a a.
Proof. intros p _. reflexivity. Qed.

Lemma same_elsewhere_trans (path : str) (a b c : filesystem) :
  same_elsewhere path a b -> same_elsewhere path b c -> same_elsewhere path a c.
Proof. intros H1 H2 p Hp. rewrite (H2 p Hp). apply (H1 p Hp). Qed.

Lemma write_elsewhere (path : str) (data : list byte) (f : filesystem) :
  same_elsewhere path f (fst (write path data f)).
Proof. intros p Hp. cbn. apply lookup_insert_ne. congruence. Qed.

Lemma open_elsewhere (path : str) (f f' : filesystem) :
  open_wb path f = Some f' -> same_elsewhere path f f'.
Proof.
  unfold open_wb. destruct (bool_decide _); [discriminate |].
  intros [= <-] p Hp. cbn. apply lookup_insert_ne. congruence.
Qed.

Lemma remove_elsewhere (path : str) (f : filesystem) :
  same_elsewhere path f (remove path f).
Proof. intros p Hp. cbn. apply lookup_delete_ne. congruence. Qed.

Lemma cleanup_elsewhere (path : str) (w w' : world) :
  cleanup path w = Some w' -> same_elsewhere path (fs w) (fs w').
Proof.
  unfold cleanup, os_remove. destruct (path_exists path (fs w)).
  - destruct (bool_decide _); [discriminate |]. intros [= <-]. cbn [fs].
    apply remove_elsewhere.
  - intros [= <-]. apply same_elsewhere_refl.
Qed.

Lemma reraise_elsewhere (path : str) (w : world) (err : download_error) :
  same_elsewhere path (fs w) (fs (fst (reraise path w err))).
Proof.
  unfold reraise. destruct (cleanup path w) as [w' |] eqn:E; cbn [fst].
  - apply (cleanup_elsewhere _ _ _ E).
  - apply same_elsewhere_refl.
Qed.

Lemma handle_elsewhere (path : str) (e : inner_exn) (w : world) :
  same_elsewhere path (fs w) (fs (fst (handle path e w))).
Proof.
  destruct e as [[] | | |]; cbn [handle fst];
    try apply reraise_elsewhere; apply same_elsewhere_refl.
Qed.

Lemma handle_static (path : str) (e : inner_exn) (w : world) :
  undeletable (fs (fst (handle path e w))) = undeletable (fs w).
Proof.
  assert (H : forall err, undeletable (fs (fst (reraise path w err))) = undeletable (fs w)).
  { intros err. unfold reraise, cleanup, os_remove.
    destruct (path_exists path (fs w)); [| reflexivity].
    destruct (bool_decide _); reflexivity. }
  destruct e as [[] | | |]; cbn [handle fst]; try apply H; reflexivity.
Qed.

Lemma flush_elsewhere (path : str) (s : running) :
  same_elsewhere path (fs (seen s)) (fs (seen (fst (flush path s)))).
Proof. apply write_elsewhere. Qed.

Lemma do_write_elsewhere (path : str) (data : list byte) (s : running) :
  same_elsewhere path (fs (seen s)) (fs (seen (fst (do_write path data s)))).
Proof.
  unfold do_write. destruct (_ <=? _)%nat; [apply same_elsewhere_refl |].
  assert (Hf := flush_elsewhere path s). destruct (flush path s) as [s1 ok].
  cbn [fst] in Hf. destruct ok; cbn [negb]; [| exact Hf].
  destruct (_ <=? _)%nat; [exact Hf |].
  assert (Hw := write_elsewhere path data (fs (seen s1))).
  destruct (write path data (fs (seen s1))) as [fs2 fits]. cbn [fst] in Hw.
  assert (H2 := same_elsewhere_trans path _ _ _ Hf Hw).
  destruct fits; [exact H2 |]. destruct (_ <? _)%nat; exact H2.
Qed.

(** A write of the buffer that succeeds puts the whole buffer after what
    the file held. *)
Lemma flush_content (path : str) (s s2 : running) (flushed : list byte) :
  flush path s = (s2, true) -> files (fs (seen s)) !! path = Some flushed ->
  files (fs (seen s2)) !! path = Some (flushed ++ buffer s) /\ buffer s2 = [] /\
  free (fs (seen s2)) = (free (fs (seen s)) - length (buffer s))%nat /\
  (length (buffer s) <= free (fs (seen s)))%nat.
Proof.
  unfold flush, write. intros H Hold. injection H as <- Hok.
  apply bool_decide_eq_true in Hok. cbn [with_buffer with_fs seen fs files free buffer].
  rewrite Hold. cbn [default from_option id]. rewrite lookup_insert_eq.
  rewrite firstn_all2 by exact Hok. rewrite skipn_all2 by exact Hok.
  repeat split. exact Hok.
Qed.

(** What the file holds and what the buffer holds make up, together, what
    was written to the file object. *)
Lemma do_write_content (path : str) (data : list byte) (s s1 : running)
    (flushed : list byte) :
  do_write path data s = (s1, inr tt) ->
  files (fs (seen s)) !! path = Some flushed ->
  exists flushed',
    files (fs (seen s1)) !! path = Some flushed' /\
    flushed' ++ buffer s1 = flushed ++ buffer s ++ data.
Proof.
  unfold do_write. intros H Hold. destruct (_ <=? _)%nat.
  { injection H as <-. exists flushed. split; [exact Hold | reflexivity]. }
  destruct (flush path s) as [s2 ok] eqn:Ef. destruct ok; cbn [negb] in H;
    [| discriminate].
  destruct (flush_content _ _ _ _ Ef Hold) as (Hfile & Hbuf & _).
  destruct (_ <=? _)%nat.
  { injection H as <-. exists (flushed ++ buffer s).
    split; [exact Hfile |]. cbn [with_buffer buffer]. rewrite app_assoc. reflexivity. }
  unfold write in H. rewrite Hfile in H. cbn [default from_option id] in H.
  destruct (bool_decide _) eqn:Efit.
  - injection H as <-. apply bool_decide_eq_true in Efit.
    cbn [with_buffer with_fs seen fs files buffer].
    rewrite lookup_insert_eq. rewrite firstn_all2 by exact Efit.
    eexists. split; [reflexivity |]. rewrite app_nil_r, app_assoc. reflexivity.
  - destruct (_ <? _)%nat; [discriminate |]. injection H as <-.
    cbn [with_buffer with_fs seen fs files buffer].
    rewrite lookup_insert_eq. eexists. split; [reflexivity |].
    rewrite <- !app_assoc. rewrite firstn_skipn. reflexivity.
Qed.

(** The loop writes to its own file only; when it ends normally the file
    and the buffer have grown by the chunks, in their order, and the count
    of received bytes by their sizes. *)
Lemma receive_files (cb : bool) (path : str) (T : Z) (chunks : list (list byte)) :
  forall (received last_percent : Z) (w w' : running) out,
  receive cb path T chunks received last_percent w = (w', out) ->
  same_elsewhere path (fs (seen w)) (fs (seen w')) /\
  forall rl flushed, out = inr rl -> files (fs (seen w)) !! path = Some flushed ->
    fst rl = received + total_length chunks /\
    exists flushed',
      files (fs (seen w')) !! path = Some flushed' /\
      flushed' ++ buffer w' = flushed ++ buffer w ++ concat chunks.
Proof.
  induction chunks as [| chunk rest IH]; intros received last_percent w w' out Hrun.
  - cbn [receive] in Hrun. unfold ret in Hrun. injection Hrun as <- <-.
    split; [apply same_elsewhere_refl |].
    intros rl flushed [= <-] Hold. cbn [fst total_length List.fold_right concat].
    split; [lia |]. exists flushed. rewrite app_nil_r. split; [exact Hold | reflexivity].
  - cbn [receive] in Hrun. destruct chunk as [| b chunk].
    + apply IH in Hrun. exact Hrun.
    + unfold bind at 1 in Hrun.
      assert (He := do_write_elsewhere path (b :: chunk) w).
      destruct (do_write path (b :: chunk) w) as [w1 [e | []]] eqn:Ew; cbn [fst] in He.
      { injection Hrun as <- <-. split; [exact He | discriminate]. }
      unfold bind at 1 in Hrun.
      match type of Hrun with (let (_, _) := ?m in _) = _ =>
        destruct m as [w2 [e | lp]] eqn:Ek end;
        apply progress_step in Ek; destruct Ek as [Efs Ebuf].
      { injection Hrun as <- <-. rewrite Efs. split; [exact He | discriminate]. }
      apply IH in Hrun. destruct Hrun as [He2 Hc2]. rewrite Efs in He2, Hc2.
      split; [apply (same_elsewhere_trans path _ _ _ He He2) |].
      intros rl flushed Hrl Hold.
      destruct (do_write_content _ _ _ _ _ Ew Hold) as (f1 & Hf1 & Hcat).
      destruct (Hc2 rl f1 Hrl Hf1) as [H1 (f2 & Hf2 & Hcat2)].
      split.
      * rewrite H1.
        change (total_length ((b :: chunk) :: rest))
          with (Z.of_nat (length (b :: chunk)) + total_length rest). lia.
      * exists f2. split; [exact Hf2 |]. rewrite Hcat2, Ebuf.
        rewrite app_assoc, Hcat. cbn [concat]. rewrite <- !app_assoc. reflexivity.
Qed.

(** What the [try] block does to the file system. *)
Lemma transfer_files (cb : bool) (path : str) (T : Z) (g : get_outcome)
    (w w' : running) (out : inner_exn + str) :
  transfer cb path T g w = (w', out) ->
  same_elsewhere path (fs (seen w)) (fs (seen w')) /\
  forall p, out = inr p ->
    p = path /\
    exists r, g = GetResponse r /\ files (fs (seen w')) !! path = Some (concat (body r)).
Proof.
  intros Hrun. destruct g as [e | r].
  { cbn [transfer] in Hrun. unfold raise in Hrun. injection Hrun as <- <-.
    split; [apply same_elsewhere_refl | discriminate]. }
  apply transfer_inv in Hrun.
  destruct Hrun as [(_ & -> & ->) | (_ & [(_ & -> & ->) | (T1 & _ & [(_ & -> & ->) |
                     (fs1 & s1 & out1 & s2 & ok & Ho & Hrec & Hfl & Hend)])])];
    try (split; [apply same_elsewhere_refl | discriminate]).
  assert (Hopen : same_elsewhere path (fs (seen w)) fs1 /\ files fs1 !! path = Some []).
  { split; [apply (open_elsewhere _ _ _ Ho) |].
    unfold open_wb in Ho. destruct (bool_decide _); [discriminate |].
    injection Ho as <-. cbn. apply lookup_insert_eq. }
  destruct Hopen as [He1 Hnew].
  apply receive_files in Hrec. cbn [with_buffer with_fs seen fs buffer] in Hrec.
  destruct Hrec as [He2 Hc].
  assert (He3 := flush_elsewhere path s1). rewrite Hfl in He3. cbn [fst] in He3.
  assert (He : same_elsewhere path (fs (seen w)) (fs (seen (with_buffer [] s2)))).
  { cbn [with_buffer seen].
    apply (same_elsewhere_trans path _ _ _ He1), (same_elsewhere_trans path _ _ _ He2), He3. }
  destruct ok.
  2:{ destruct Hend as [-> ->]. split; [exact He | discriminate]. }
  destruct out1 as [e | rl].
  { destruct Hend as [-> ->]. split; [exact He | discriminate]. }
  destruct (body_error r) as [e |].
  { destruct Hend as [-> ->]. split; [exact He | discriminate]. }
  destruct Hend as [-> ->].
  assert (Hfs : fs (seen (if cb && (T1 >? 0) && (snd rl <? 100)
                          then fst (call_progress 100 (with_buffer [] s2))
                          else with_buffer [] s2)) = fs (seen s2)).
  { destruct (_ && _); reflexivity. }
  rewrite Hfs. split; [exact He |].
  intros p Hp. destruct (megabytes (fst rl)); [| discriminate]. injection Hp as <-.
  split; [reflexivity |]. exists r. split; [reflexivity |].
  destruct (Hc rl [] eq_refl Hnew) as [_ (f1 & Hf1 & Hcat)].
  destruct (flush_content _ _ _ _ Hfl Hf1) as (Hfile & _).
  rewrite Hfile, Hcat. reflexivity.
Qed.

(** With room for the data, a write to the file object succeeds, and takes
    its size off the room left once the buffer is written. *)
Lemma do_write_room (path : str) (data : list byte) (s : running) :
  (length (buffer s) + length data <= free (fs (seen s)))%nat ->
  exists s1,
    do_write path data s = (s1, inr tt) /\
    (length (buffer s1) + (free (fs (seen s)) - length (buffer s) - length data)
     = free (fs (seen s1)))%nat.
Proof.
  intros Hroom. unfold do_write. destruct (_ <=? _)%nat.
  { eexists. split; [reflexivity |]. cbn [with_buffer buffer seen].
    rewrite length_app. lia. }
  unfold flush, write. rewrite bool_decide_eq_true_2 by lia. cbn [negb].
  cbn [with_buffer with_fs seen fs free buffer].
  destruct (_ <=? _)%nat.
  { eexists. split; [reflexivity |]. cbn [with_buffer with_fs seen fs free buffer]. lia. }
  rewrite bool_decide_eq_true_2 by lia.
  eexists. split; [reflexivity |]. cbn [with_buffer with_fs seen fs free buffer length]. lia.
Qed.

(** With room for every chunk, and no percentage out of range, the loop
    ends normally, with room left for what the buffer holds. *)
Lemma receive_completes (cb : bool) (path : str) (T : Z) (chunks : list (list byte)) :
  forall (received last_percent : Z) (w : running),
  Z.of_nat (length (buffer w)) + total_length chunks <= Z.of_nat (free (fs (seen w))) ->
  (cb && (T >? 0) = true -> 0 <= received /\ received + total_length chunks <= T) ->
  exists w' rl,
    receive cb path T chunks received last_percent w = (w', inr rl) /\
    (length (buffer w') <= free (fs (seen w')))%nat.
Proof.
  induction chunks as [| chunk rest IH]; intros received last_percent w Hfree Hcb.
  - eexists _, _. split; [reflexivity |].
    cbn [total_length List.fold_right] in Hfree. lia.
  - cbn [receive]. destruct chunk as [| b chunk].
    + apply IH; assumption.
    + set (n := Z.of_nat (length (b :: chunk))) in *.
      assert (Hn : 0 < n) by (unfold n; cbn [length]; lia).
      assert (Hsum : total_length ((b :: chunk) :: rest) = n + total_length rest)
        by reflexivity.
      assert (Hr0 := total_length_nonneg rest).
      rewrite Hsum in Hfree, Hcb.
      destruct (do_write_room path (b :: chunk) w) as (w1 & Hw & Hroom);
        [unfold n in *; lia |].
      unfold bind at 1. rewrite Hw.
      assert (Hfree1 : Z.of_nat (length (buffer w1)) + total_length rest
                       <= Z.of_nat (free (fs (seen w1)))) by (unfold n in *; lia).
      unfold bind at 1.
      destruct (cb && (T >? 0)) eqn:Ecb.
      * destruct (Hcb eq_refl) as [Hr HT].
        destruct (percent_of_range (received + n) T ltac:(lia)) as (p & Hp & _).
        unfold bind at 1. rewrite Hp. unfold of_option, ret at 1.
        destruct (p >? last_percent).
        -- unfold bind at 1. unfold call_progress, ret at 1.
           apply IH; [exact Hfree1 |]. intros _. lia.
        -- unfold ret at 1. apply IH; [exact Hfree1 |]. intros _. lia.
      * unfold ret at 1. apply IH; [exact Hfree1 | discriminate].
Qed.

(** What a call leaves on the file system: the other files as they were;
    after a return, the body at the local path, which is the path returned;
    after a classified error, no file at the local path. *)
Lemma download_effects (url : str) (cb : bool) (temp_dir : str) (net : network)
    (fs0 : filesystem) (w : world) (res : download_error + str) :
  download_file url cb temp_dir net fs0 = (w, res) ->
  (forall p, local_path_of url temp_dir net <> Some p ->
             files (fs w) !! p = files fs0 !! p) /\
  match res with
  | inr path =>
      local_path_of url temp_dir net = Some path /\
      exists r, requests_get net = GetResponse r /\
                files (fs w) !! path = Some (concat (body r))
  | inl err =>
      classified err = true ->
      forall path, local_path_of url temp_dir net = Some path ->
                   files (fs w) !! path = None
  end.
Proof.
  intros Hrun. unfold local_path_of.
  destruct (probe url (requests_head net)) as [x | [filename T]] eqn:Hprobe.
  { unfold download_file in Hrun. rewrite Hprobe in Hrun. injection Hrun as <- <-.
    split; [reflexivity | discriminate]. }
  destruct (download_file_inv url cb temp_dir net fs0 filename T Hprobe)
    as (s1 & out & Htr & Hd).
  rewrite Hd in Hrun. apply transfer_files in Htr. destruct Htr as [He Hc].
  cbn [seen fs] in He.
  destruct out as [e | p]; injection Hrun as <- <-.
  - split.
    + intros p Hp. assert (Hne : p <> OsPath.join temp_dir filename) by congruence.
      rewrite (handle_elsewhere _ e (seen s1) p Hne). apply (He p Hne).
    + intros Hcl path [= <-]. apply handle_absent, Hcl.
  - split.
    + intros q Hq. apply He. congruence.
    + destruct (Hc p eq_refl) as (-> & r & Hg & Hfile).
      split; [reflexivity |]. exists r. split; assumption.
Qed.

(** No call changes which paths can be removed. *)
Lemma download_static (url : str) (cb : bool) (temp_dir : str) (net : network)
    (fs0 : filesystem) :
  undeletable (fs (fst (download_file url cb temp_dir net fs0))) = undeletable fs0.
Proof.
  destruct (probe url (requests_head net)) as [x | [filename T]] eqn:Hprobe.
  { unfold download_file. rewrite Hprobe. reflexivity. }
  destruct (download_file_inv url cb temp_dir net fs0 filename T Hprobe)
    as (s1 & out & Htr & Hd).
  rewrite Hd. apply transfer_static in Htr. destruct Htr as [Hu _]. cbn [seen fs] in Hu.
  destruct out as [e | p]; cbn [fst]; [rewrite handle_static |]; exact Hu.
Qed.

End StorageFacts.

(** ** bot/downloader.py: further properties *)

Module DownloaderFacts.

Import Spec Downloader FloatFacts NameFacts TransferFacts DownloaderSpec StorageFacts.

(** *** File names *)

Lemma sanitize_head_legal (s : str) :
  Forall legal (sanitize_filename s) /\ plain_head (sanitize_filename s).
Proof.
  destruct (sanitize_shape s) as [(Hl & Hh & _) | (f & (Hl & (c & t & -> & Hc) & _) & _ & ->)].
  - split; assumption.
  - unfold slice_to. change (Z.to_nat 250) with 250%nat.
    split; [apply Forall_take, Hl |]. exists c, (take 249 t). split; [reflexivity | exact Hc].
Qed.

Lemma truncate_length (f : str) : (length (truncate f) <= length f)%nat.
Proof.
  unfold truncate. destruct (_ <? _)%nat; [| lia].
  assert (H := splitext_app f). destruct (OsPath.splitext f) as [name ext].
  cbn [fst snd] in H. rewrite <- H. rewrite !length_app.
  unfold slice_to. rewrite length_take. lia.
Qed.

(** The output of [sanitize_filename] holds none of the characters the
    pattern replaces (among them the slash, the backslash and the control
    characters) and begins with neither a dot nor a space, so that it is
    neither of the directory names made of dots; and it is no longer than
    the input, or than the default name. *)
Theorem sanitize_filename_safe (s : str) :
  Forall legal (sanitize_filename s) /\
  plain_head (sanitize_filename s) /\
  sanitize_filename s <> lit "." /\ sanitize_filename s <> lit ".." /\
  (length (sanitize_filename s) <= Nat.max (length s) (length default_name))%nat.
Proof.
  destruct (sanitize_head_legal s) as [Hl Hh].
  split; [exact Hl |]. split; [exact Hh |].
  destruct Hh as (c & t & E & Hc).
  split; [| split].
  - intros H. rewrite H in E. injection E as <- _. vm_compute in Hc. discriminate.
  - intros H. rewrite H in E. injection E as <- _. vm_compute in Hc. discriminate.
  - destruct (sanitize_truncate s) as (f & _ & -> & Hlen).
    etransitivity; [apply truncate_length | exact Hlen].
Qed.

Lemma probe_name (url : str) (h : head_outcome) (filename : str) (T : Z) :
  probe url h = inr (filename, T) ->
  Forall legal filename /\ plain_head filename.
Proof.
  intros Hp. apply probe_filename in Hp. subst filename. destruct h as [e | hs].
  - apply sanitize_head_legal.
  - unfold extract_filename_from_headers.
    destruct (content_disposition hs) as [cd |]; [| apply sanitize_head_legal].
    destruct (is_empty cd); [apply sanitize_head_legal |].
    destruct (first_match cd) as [g |]; [| apply sanitize_head_legal].
    destruct (is_empty _); apply sanitize_head_legal.
Qed.

Lemma join_plain (temp_dir name : str) :
  temp_dir <> [] -> endswith_char OsPath.sep temp_dir = false ->
  Forall legal name ->
  OsPath.join temp_dir name = temp_dir ++ [OsPath.sep] ++ name.
Proof.
  intros Hne Hend Hl. unfold OsPath.join.
  assert (Hs : startswith [OsPath.sep] name = false).
  { destruct name as [| c t]; [reflexivity |].
    apply Forall_cons in Hl. destruct Hl as [Hc _].
    unfold startswith. cbn [strip_prefix].
    destruct (char_eqb OsPath.sep c) eqn:E; [| reflexivity].
    apply N.eqb_eq in E. subst c. vm_compute in Hc. discriminate. }
  rewrite Hs, Hend. destruct temp_dir; [contradiction | reflexivity].
Qed.

(** The file [download_file] writes lies directly in the temporary
    directory: its path is the directory, a slash, and a name without slash
    or backslash that is neither of the directory names made of dots,
    whatever the URL and the headers of the probe hold. *)
Theorem local_path_in_temp_dir (url temp_dir : str) (net : network) (path : str) :
  temp_dir <> [] -> endswith_char OsPath.sep temp_dir = false ->
  local_path_of url temp_dir net = Some path ->
  exists name,
    path = temp_dir ++ [OsPath.sep] ++ name /\
    Forall legal name /\ (OsPath.sep ∉ name) /\ (92%N ∉ name) /\
    plain_head name /\ name <> lit "." /\ name <> lit "..".
Proof.
  intros Hne Hend. unfold local_path_of.
  destruct (probe url (requests_head net)) as [e | [filename T]] eqn:Hp; [discriminate |].
  intros [= <-]. destruct (probe_name _ _ _ _ Hp) as [Hl Hh].
  exists filename. split; [apply join_plain; assumption |].
  split; [exact Hl |]. split; [apply legal_no_sep, Hl |].
  split.
  { intros Hin. rewrite Forall_forall in Hl. specialize (Hl _ Hin).
    vm_compute in Hl. discriminate. }
  split; [exact Hh |]. destruct Hh as (c & t & -> & Hc).
  split; intros [= -> _]; vm_compute in Hc; discriminate.
Qed.

Lemma local_path_in_temp_dir_witness :
  exists name,
    Scenario.path = Scenario.temp_dir ++ [OsPath.sep] ++ name /\
    Forall legal name /\ (OsPath.sep ∉ name) /\ (92%N ∉ name) /\
    plain_head name /\ name <> lit "." /\ name <> lit "..".
Proof.
  apply (local_path_in_temp_dir Scenario.url Scenario.temp_dir Scenario.net_29_71).
  - discriminate.
  - reflexivity.
  - vm_compute. reflexivity.
Defined.

(** A URL that ends with a slash names no file: the default name is
    used. *)
Theorem url_trailing_slash (pre : str) :
  extract_filename_from_url (pre ++ [ch "/"]) = default_name.
Proof.
  rewrite (url_filename (pre ++ [ch "/"]) [] []).
  - vm_compute. reflexivity.
  - split; [apply not_elem_of_nil |]. right. exists pre. reflexivity.
  - split; [apply not_elem_of_nil |]. left. reflexivity.
Qed.

(** *** The transfer *)

(** A call that returns has stored the body: the path returned is the local
    path, and the file there holds the chunks of the response in their
    order, whatever it held before. *)
Theorem download_stores_body (url : str) (cb : bool) (temp_dir : str)
    (net : network) (fs0 : filesystem) (w : world) (path : str) :
  download_file url cb temp_dir net fs0 = (w, inr path) ->
  local_path_of url temp_dir net = Some path /\
  exists r, requests_get net = GetResponse r /\
            files (fs w) !! path = Some (concat (body r)).
Proof. intros Hrun. apply (download_effects _ _ _ _ _ _ _ Hrun). Qed.

Lemma download_stores_body_witness :
  local_path_of Scenario.url Scenario.temp_dir Scenario.net_29_71 = Some Scenario.path /\
  exists r, requests_get Scenario.net_29_71 = GetResponse r /\
            files {| files := {[ Scenario.path := repeat x00 100 ]};
                     denied := ∅; undeletable := ∅; st_blksize := 4096;
                     free := 900 |} !! Scenario.path
            = Some (concat (body r)).
Proof.
  apply (download_stores_body Scenario.url true Scenario.temp_dir Scenario.net_29_71
           (Scenario.disk 1000)
           {| fs := {| files := {[ Scenario.path := repeat x00 100 ]};
                       denied := ∅; undeletable := ∅; st_blksize := 4096;
                       free := 900 |};
              reported := [28; 100] |}
           Scenario.path).
  vm_compute. reflexivity.
Defined.

(** [download_file] creates, changes and removes no file but the one at its
    local path, however it ends. *)
Theorem other_files_untouched (url : str) (cb : bool) (temp_dir : str)
    (net : network) (fs0 : filesystem) (p : str) :
  local_path_of url temp_dir net <> Some p ->
  files (fs (fst (download_file url cb temp_dir net fs0))) !! p = files fs0 !! p.
Proof.
  destruct (download_file url cb temp_dir net fs0) as [w res] eqn:Hrun.
  apply (download_effects _ _ _ _ _ _ _ Hrun).
Qed.

Lemma other_files_untouched_witness :
  files (fs (fst (download_file Scenario.url true Scenario.temp_dir
                    Scenario.net_29_71 (Scenario.disk 10))))
    !! lit "/tmp/notes.txt"
  = files (Scenario.disk 10) !! lit "/tmp/notes.txt".
Proof.
  apply (other_files_untouched Scenario.url true Scenario.temp_dir Scenario.net_29_71
           (Scenario.disk 10) (lit "/tmp/notes.txt")).
  vm_compute. discriminate.
Defined.

(** The percentages passed to the progress callback are strictly increasing
    and none is negative in every run: whether the call returns or raises,
    and whether or not the bytes received match the size announced. *)
Theorem progress_always_increasing (url : str) (cb : bool) (temp_dir : str)
    (net : network) (fs0 : filesystem) :
  StronglySorted Z.lt (reported (fst (download_file url cb temp_dir net fs0))) /\
  Forall (fun p => 0 <= p) (reported (fst (download_file url cb temp_dir net fs0))).
Proof.
  assert (H : StronglySorted Z.lt
                (-1 :: reported (fst (download_file url cb temp_dir net fs0)))).
  { destruct (probe url (requests_head net)) as [x | [filename T]] eqn:Hprobe.
    { unfold download_file. rewrite Hprobe. repeat constructor. }
    destruct (download_file_inv url cb temp_dir net fs0 filename T Hprobe)
      as (w1 & out & Htr & Hd).
    rewrite Hd. apply transfer_trace in Htr. destruct Htr as (tr & H1 & H2 & _).
    cbn [seen reported app] in H1.
    destruct out as [e | q]; cbn [fst]; [rewrite handle_reported |]; rewrite H1; exact H2. }
  apply StronglySorted_inv in H. destruct H as [Hs Hall].
  split; [exact Hs |]. eapply Forall_impl; [exact Hall |]. cbn. intros p Hp. lia.
Qed.

(** Nothing is passed to the progress callback when no callback is given or
    when the total size is not positive: a negative Content-Length of the
    probe silences the progress even if the GET response announces a
    size. *)
Theorem progress_needs_positive_size (url : str) (cb : bool) (temp_dir : str)
    (net : network) (fs0 : filesystem) (T : Z) :
  total_size_of url net = Some T -> cb && (T >? 0) = false ->
  reported (fst (download_file url cb temp_dir net fs0)) = [].
Proof.
  unfold total_size_of. intros HT Hcb.
  destruct (probe url (requests_head net)) as [x | [filename T0]] eqn:Hprobe;
    [discriminate |].
  destruct (download_file_inv url cb temp_dir net fs0 filename T0 Hprobe)
    as (w1 & out & Htr & Hd).
  rewrite Hd.
  apply transfer_trace in Htr. destruct Htr as (tr & H1 & _ & H3 & H4).
  cbn [seen reported app] in H1.
  assert (Htr : tr = []).
  { destruct (requests_get net) as [e | r] eqn:Hg.
    - apply (H3 e eq_refl).
    - assert (HT' : (if T0 =? 0 then content_length_int (resp_headers r) else Some T0)
                    = Some T).
      { destruct (T0 =? 0); [exact HT | exact HT]. }
      destruct (H4 r T eq_refl HT') as [H5 _]. apply H5, Hcb. }
  rewrite Htr in H1. destruct out as [e | p]; cbn [fst].
  - rewrite handle_reported. exact H1.
  - exact H1.
Qed.

Lemma progress_needs_positive_size_witness :
  reported (fst (download_file Scenario.url true Scenario.temp_dir
                   {| requests_head := HeadResponse (Scenario.with_length "-5");
                      requests_get :=
                        GetResponse {| status_code := 200; reason := lit "OK";
                                       resp_headers := Scenario.with_length "100";
                                       body := [repeat x00 100];
                                       body_error := None |} |}
                   (Scenario.disk 1000))) = [].
Proof.
  apply (progress_needs_positive_size Scenario.url true Scenario.temp_dir _
           (Scenario.disk 1000) (-5)).
  - vm_compute. reflexivity.
  - reflexivity.
Defined.

(** A request that fails before the file is opened is reported by the
    error of its kind: when [requests.get] raises, [TimeoutError] for a
    timeout, [ConnectionError] for a connection failure, [RuntimeError] for
    any other request failure; when the answer has a status from 400 to
    599, the [ValueError] that carries the status and the reason.  Nothing
    is written or reported, and a file already at the local path is
    removed; when that removal fails, its [OSError] leaves the call
    instead, and the file stays. *)
Theorem request_failure_classified (url : str) (cb : bool) (temp_dir : str)
    (net : network) (fs0 : filesystem) (e : requests_exception) (path : str) :
  local_path_of url temp_dir net = Some path ->
  requests_get net = GetRaises e \/
  (exists r, requests_get net = GetResponse r /\ 400 <= status_code r < 600 /\
             e = HTTPError (status_code r) (reason r)) ->
  download_file url cb temp_dir net fs0 =
    match cleanup path {| fs := fs0; reported := [] |} with
    | Some w =>
        (w, inl match e with
                | Timeout => TimeoutError
                | HTTPError s r => HttpValueError s r
                | ConnectionError => ConnectionFailed
                | RequestException => RuntimeError
                end)
    | None => ({| fs := fs0; reported := [] |}, inl (Unhandled OS_error))
    end.
Proof.
  unfold local_path_of, download_file. intros Hp Hg.
  destruct (probe url (requests_head net)) as [x | [filename T]]; [discriminate |].
  injection Hp as <-.
  assert (Hh : forall s0,
            (let '(w', err) := handle (OsPath.join temp_dir filename) (Requests e) s0 in
             (w', @inl download_error str err))
            = match cleanup (OsPath.join temp_dir filename) s0 with
              | Some w =>
                  (w, inl match e with
                          | Timeout => TimeoutError
                          | HTTPError s r => HttpValueError s r
                          | ConnectionError => ConnectionFailed
                          | RequestException => RuntimeError
                          end)
              | None => (s0, inl (Unhandled OS_error))
              end).
  { intros s0. destruct e; cbn [handle]; unfold reraise;
      destruct (cleanup _ s0); reflexivity. }
  destruct Hg as [Hg | (r & Hg & Hs & ->)]; rewrite Hg; cbn [transfer].
  - unfold raise. cbn [seen]. apply Hh.
  - unfold bind at 1.
    replace ((400 <=? status_code r) && (status_code r <? 600)) with true.
    2:{ symmetry. apply andb_true_iff. split; [apply Z.leb_le | apply Z.ltb_lt]; lia. }
    unfold raise. cbn [seen]. apply Hh.
Qed.

Lemma request_failure_classified_witness :
  download_file Scenario.url true Scenario.temp_dir Scenario.net_404 (Scenario.stale 10)
  = match cleanup Scenario.path {| fs := Scenario.stale 10; reported := [] |} with
    | Some w => (w, inl (HttpValueError 404 (lit "Not Found")))
    | None => ({| fs := Scenario.stale 10; reported := [] |}, inl (Unhandled OS_error))
    end.
Proof.
  apply (request_failure_classified Scenario.url true Scenario.temp_dir
           Scenario.net_404 (Scenario.stale 10)
           (HTTPError 404 (lit "Not Found")) Scenario.path).
  - vm_compute. reflexivity.
  - right. eexists. split; [reflexivity |]. split; [cbn; lia | reflexivity].
Defined.

(** When the GET request is answered with a status outside 400 to 599 and a
    stream that ends without error, the local path can be opened, the
    device has room for the body once the file is truncated, and no more
    bytes arrive than the size announced, [download_file] returns the local
    path with the body stored there.  It does so as well when fewer bytes
    arrive than were announced, and then still reports 100.  The body is
    taken to be shorter than [2 ^ 1043] bytes, which keeps the number of
    megabytes of the last log line a float. *)
Theorem download_completes (url : str) (cb : bool) (temp_dir : str) (net : network)
    (fs0 : filesystem) (r : response) (path : str) (T : Z) :
  local_path_of url temp_dir net = Some path ->
  total_size_of url net = Some T ->
  requests_get net = GetResponse r ->
  status_code r < 400 \/ 600 <= status_code r ->
  body_error r = None ->
  path ∉ denied fs0 ->
  total_length (body r)
    <= Z.of_nat (free fs0 + length (default [] (files fs0 !! path))) ->
  total_length (body r) < 2 ^ 1043 ->
  (cb = true -> 0 < T -> total_length (body r) <= T) ->
  exists w,
    download_file url cb temp_dir net fs0 = (w, inr path) /\
    files (fs w) !! path = Some (concat (body r)) /\
    (cb = true -> 0 < T -> last (reported w) = Some 100).
Proof.
  unfold local_path_of, total_size_of. intros Hp HT Hg Hs Hbe Hden Hroom Hbig Hcb.
  destruct (probe url (requests_head net)) as [x | [filename T0]] eqn:Hprobe;
    [discriminate |].
  injection Hp as Hp. rewrite Hg in HT.
  assert (HT' : (if T0 =? 0 then content_length_int (resp_headers r) else Some T0)
                = Some T).
  { destruct (T0 =? 0); [exact HT | exact HT]. }
  destruct (download_file_inv url cb temp_dir net fs0 filename T0 Hprobe)
    as (s1 & out & Htr & Hd).
  rewrite Hp in Htr, Hd. rewrite Hg in Htr.
  assert (Hout : out = inr path).
  { assert (Htr2 := Htr). apply transfer_inv in Htr2.
    destruct Htr2 as [(Hst & _) | (_ & [(Hsz & _) | (T1 & HT1 & [(Ho & _) |
                       (fs1 & s2 & out1 & s3 & ok & Ho & Hrec & Hfl & Hend)])])].
    { apply andb_true_iff in Hst. destruct Hst as [H1 H2].
      apply Z.leb_le in H1. apply Z.ltb_lt in H2. lia. }
    { congruence. }
    { unfold open_wb in Ho. cbn [seen fs] in Ho.
      rewrite bool_decide_eq_false_2 in Ho by exact Hden. discriminate. }
    rewrite HT' in HT1. injection HT1 as <-.
    unfold open_wb in Ho. cbn [seen fs] in Ho.
    rewrite bool_decide_eq_false_2 in Ho by exact Hden. injection Ho as <-.
    match type of Hrec with receive _ _ _ _ _ _ ?w0 = _ =>
      destruct (receive_completes cb path T (body r) 0 (-1) w0) as (w2 & rl & Hrec2 & Hfit)
    end.
    { cbn [with_buffer with_fs seen fs free buffer length]. lia. }
    { intros E. apply andb_true_iff in E. destruct E as [-> E].
      apply Z.gtb_lt in E. split; [lia |]. cbn [Z.add]. apply Hcb; [reflexivity | lia]. }
    rewrite Hrec2 in Hrec. injection Hrec as <- <-.
    assert (Hok : ok = true).
    { unfold flush, write in Hfl. injection Hfl as _ <-.
      apply bool_decide_eq_true_2. exact Hfit. }
    subst ok. rewrite Hbe in Hend. destruct Hend as [_ ->].
    assert (Hrl : fst rl = total_length (body r)).
    { apply receive_files in Hrec2. destruct Hrec2 as [_ Hc].
      cbn [with_buffer with_fs seen fs files] in Hc.
      destruct (Hc rl [] eq_refl ltac:(apply lookup_insert_eq)) as [H1 _]. lia. }
    unfold megabytes. rewrite Hrl.
    destruct (truediv_finite (total_length (body r)) (1024 ^ 2)) as (q & ->);
      [apply total_length_nonneg | lia | | reflexivity].
    change (2 ^ 1023 * 1024 ^ 2) with (2 ^ 1043). exact Hbig. }
  subst out. exists (seen s1).
  assert (Htr2 := Htr). apply transfer_files in Htr2. destruct Htr2 as [_ Hc].
  destruct (Hc path eq_refl) as (_ & r' & [= <-] & Hfile).
  split; [exact Hd |]. split; [exact Hfile |].
  intros -> Hpos. apply transfer_trace in Htr. destruct Htr as (tr & H1 & H2 & _ & H4).
  cbn [seen reported app] in H1. rewrite H1.
  destruct (H4 r T eq_refl HT') as [_ H5].
  destruct (H5 eq_refl Hpos (Hcb eq_refl Hpos) path eq_refl) as [H6 _].
  apply (last_of_default 100 (-1)); [exact H6 | lia].
Qed.

Lemma download_completes_witness :
  exists w,
    download_file Scenario.url true Scenario.temp_dir
      {| requests_head := HeadResponse (Scenario.with_length "100");
         requests_get := Scenario.ok [29]%nat |} (Scenario.disk 1000)
    = (w, inr Scenario.path) /\
    files (fs w) !! Scenario.path = Some (concat [repeat x00 29]) /\
    (true = true -> 0 < 100 -> last (reported w) = Some 100).
Proof.
  apply (download_completes Scenario.url true Scenario.temp_dir
           {| requests_head := HeadResponse (Scenario.with_length "100");
              requests_get := Scenario.ok [29]%nat |}
           (Scenario.disk 1000)
           {| status_code := 200; reason := lit "OK";
              resp_headers := Scenario.no_headers;
              body := [repeat x00 29]; body_error := None |}
           Scenario.path 100).
  - vm_compute. reflexivity.
  - vm_compute. reflexivity.
  - reflexivity.
  - left. cbn. lia.
  - reflexivity.
  - apply (bool_decide_unpack _). vm_compute. exact I.
  - vm_compute. discriminate.
  - vm_compute. reflexivity.
  - intros _ _. vm_compute. discriminate.
Defined.

End DownloaderFacts.

(** ** The Content-Disposition header *)

Module HeaderFacts.

Import Spec Downloader NameFacts.

Lemma ends_parameter_semi (post : str) : ends_parameter post -> semi_or_end post = true.
Proof. intros [-> | [rest ->]]; [reflexivity |]. destruct rest; reflexivity. Qed.

Lemma match_here_other (c : char) (t : str) : c <> ch "f" -> match_here (c :: t) = None.
Proof.
  intros Hc. unfold match_here. cbn [lit List.map list_ascii_of_string strip_prefix].
  unfold char_eqb. destruct (N.eqb_spec (N_of_ascii "f") c) as [E | _]; [| reflexivity].
  exfalso. apply Hc. symmetry. exact E.
Qed.

(** The search passes over a prefix that holds no letter f. *)
Lemma first_match_skip (pre s : str) :
  (ch "f") ∉ pre -> s <> [] -> first_match (pre ++ s) = first_match s.
Proof.
  intros Hpre Hs. induction pre as [| c pre IH]; [reflexivity |].
  apply not_elem_of_cons in Hpre. destruct Hpre as [Hc Hpre].
  cbn [app]. destruct s as [| d s]; [contradiction |].
  cbn [first_match]. rewrite match_here_other by congruence.
  fold (first_match (pre ++ d :: s)). apply IH, Hpre.
Qed.

Lemma lazy_more_quoted (q : char) (post : str) :
  semi_or_end post = true ->
  forall t acc, q ∉ t -> newline ∉ t ->
  lazy_more (Some q) acc (t ++ q :: post) = Some (acc ++ t).
Proof.
  intros Hpost. induction t as [| d t IH]; intros acc Hq Hn.
  - cbn [app lazy_more closes]. unfold char_eqb at 1. rewrite N.eqb_refl, Hpost.
    cbn. now rewrite app_nil_r.
  - apply not_elem_of_cons in Hq. destruct Hq as [Hdq Hq].
    apply not_elem_of_cons in Hn. destruct Hn as [Hdn Hn].
    cbn [app lazy_more closes].
    unfold char_eqb at 1. destruct (N.eqb_spec d q) as [E | _]; [congruence |].
    cbn [andb]. unfold char_eqb at 1.
    destruct (N.eqb_spec d newline) as [E | _]; [congruence |].
    rewrite (IH (acc ++ [d]) Hq Hn), <- app_assoc. reflexivity.
Qed.

Lemma semi_or_end_inside (d : char) (rest : str) :
  d <> ch ";" -> d <> newline -> semi_or_end (d :: rest) = false.
Proof.
  intros H1 H2. unfold semi_or_end, char_eqb.
  destruct (N.eqb_spec d (ch ";")) as [E | _]; [congruence |].
  destruct (N.eqb_spec d newline) as [E | _]; [congruence |].
  destruct rest; reflexivity.
Qed.

Lemma lazy_more_plain (post : str) :
  semi_or_end post = true ->
  forall t acc, (ch ";") ∉ t -> newline ∉ t ->
  lazy_more None acc (t ++ post) = Some (acc ++ t).
Proof.
  intros Hpost. induction t as [| d t IH]; intros acc Hq Hn.
  - cbn [app]. destruct post; cbn [lazy_more closes]; cbn [closes] in Hpost;
      rewrite ?Hpost; now rewrite app_nil_r.
  - apply not_elem_of_cons in Hq. destruct Hq as [Hdq Hq].
    apply not_elem_of_cons in Hn. destruct Hn as [Hdn Hn].
    cbn [app lazy_more closes]. rewrite semi_or_end_inside by congruence.
    unfold char_eqb at 1.
    destruct (N.eqb_spec d newline) as [E | _]; [congruence |].
    rewrite (IH (acc ++ [d]) Hq Hn), <- app_assoc. reflexivity.
Qed.

Lemma after_quote_pair_none (s : str) : squote ∉ s -> after_quote_pair s = None.
Proof.
  induction s as [| a s IH]; intros H; [reflexivity |].
  apply not_elem_of_cons in H. destruct H as [Ha Hs].
  cbn [after_quote_pair]. destruct s as [| b t]; [reflexivity |].
  unfold char_eqb at 1. destruct (N.eqb_spec a squote) as [E | _]; [congruence |].
  cbn [andb]. apply IH, Hs.
Qed.

Lemma after_quote_pair_first (a b : str) :
  squote ∉ a -> after_quote_pair (a ++ squote :: squote :: b) = Some b.
Proof.
  induction a as [| c a IH]; intros H.
  - reflexivity.
  - apply not_elem_of_cons in H. destruct H as [Hc Ha].
    cbn [app after_quote_pair].
    destruct (a ++ squote :: squote :: b) as [| d t] eqn:E.
    { destruct a; discriminate. }
    unfold char_eqb at 1. destruct (N.eqb_spec c squote) as [E2 | _]; [congruence |].
    cbn [andb]. apply IH, Ha.
Qed.

Lemma first_match_here (s g : str) : match_here s = Some g -> first_match s = Some g.
Proof. intros H. destruct s; cbn [first_match]; rewrite H; reflexivity. Qed.

Lemma app_not_empty (pre s : str) : s <> [] -> is_empty (pre ++ s) = false.
Proof. intros H. destruct pre; [destruct s; [contradiction | reflexivity] | reflexivity]. Qed.

Lemma header_of_match (cd : str) (cl : option str) (g : str) :
  cd <> [] -> first_match cd = Some g -> after_quote_pair g = None ->
  extract_filename_from_headers {| content_disposition := Some cd; content_length := cl |}
    = Some (sanitize_filename g).
Proof.
  intros Hne Hm Hq. unfold extract_filename_from_headers. cbn [content_disposition].
  destruct cd; [contradiction |]. cbn [is_empty]. rewrite Hm, Hq. reflexivity.
Qed.

(** A quoted file name is read between its quotes: for a header that holds
    no letter f before the parameter, and a name without quote or newline,
    followed by the end of the header or a semicolon, the result is the
    sanitized name. *)
Theorem header_quoted_filename (pre name post : str) (q : char) (cl : option str) :
  (ch "f") ∉ pre -> q = dquote \/ q = squote ->
  name <> [] -> dquote ∉ name -> squote ∉ name -> newline ∉ name ->
  ends_parameter post ->
  extract_filename_from_headers
    {| content_disposition := Some (pre ++ lit "filename=" ++ q :: name ++ q :: post);
       content_length := cl |}
  = Some (sanitize_filename name).
Proof.
  intros Hpre Hq Hne Hd Hs Hn Hpost.
  assert (Hqn : q ∉ name) by (destruct Hq as [-> | ->]; assumption).
  apply header_of_match.
  - destruct pre; discriminate.
  - rewrite first_match_skip by (assumption || discriminate).
    destruct name as [| c t]; [contradiction |].
    apply not_elem_of_cons in Hqn. destruct Hqn as [Hcq Hqt].
    apply not_elem_of_cons in Hn. destruct Hn as [Hcn Hnt].
    assert (Hg : lazy_group (Some q) ((c :: t) ++ q :: post) = Some (c :: t)).
    { cbn [app lazy_group]. unfold char_eqb at 1.
      destruct (N.eqb_spec c newline) as [E | _]; [congruence |].
      apply (lazy_more_quoted q post (ends_parameter_semi _ Hpost) t [c] Hqt Hnt). }
    change (lit "filename=" ++ q :: (c :: t) ++ q :: post)
      with (lit "filename" ++ ch "=" :: q :: (c :: t) ++ q :: post).
    apply first_match_here. unfold match_here.
    change (strip_prefix (lit "filename")
              (lit "filename" ++ ch "=" :: q :: (c :: t) ++ q :: post))
      with (Some (ch "=" :: q :: (c :: t) ++ q :: post)).
    cbn beta iota.
    change (char_eqb (ch "=") (ch "*")) with false.
    change (char_eqb (ch "=") (ch "=")) with true. cbn beta iota.
    replace (char_eqb q dquote || char_eqb q squote) with true
      by (destruct Hq as [-> | ->]; reflexivity).
    rewrite Hg. reflexivity.
  - apply after_quote_pair_none, Hs.
Qed.

Lemma header_quoted_filename_witness :
  extract_filename_from_headers
    {| content_disposition :=
         Some (lit "attachment; " ++ lit "filename=" ++
               dquote :: lit "report.pdf" ++ dquote :: lit "; size=3");
       content_length := None |}
  = Some (sanitize_filename (lit "report.pdf")).
Proof.
  apply (header_quoted_filename (lit "attachment; ") (lit "report.pdf") (lit "; size=3")
           dquote None).
  - apply (bool_decide_unpack _). vm_compute. exact I.
  - left. reflexivity.
  - discriminate.
  - apply (bool_decide_unpack _). vm_compute. exact I.
  - apply (bool_decide_unpack _). vm_compute. exact I.
  - apply (bool_decide_unpack _). vm_compute. exact I.
  - right. exists (lit " size=3"). reflexivity.
Defined.

(** A file name without quotes is read up to the end of the header or the
    next semicolon. *)
Theorem header_plain_filename (pre name post : str) (cl : option str) :
  (ch "f") ∉ pre ->
  name <> [] -> dquote ∉ name -> squote ∉ name -> (ch ";") ∉ name -> newline ∉ name ->
  ends_parameter post ->
  extract_filename_from_headers
    {| content_disposition := Some (pre ++ lit "filename=" ++ name ++ post);
       content_length := cl |}
  = Some (sanitize_filename name).
Proof.
  intros Hpre Hne Hd Hs Hsemi Hn Hpost.
  apply header_of_match.
  - destruct pre; discriminate.
  - rewrite first_match_skip by (assumption || discriminate).
    destruct name as [| c t]; [contradiction |].
    apply not_elem_of_cons in Hd. destruct Hd as [Hcd _].
    apply not_elem_of_cons in Hs. destruct Hs as [Hcs _].
    apply not_elem_of_cons in Hsemi. destruct Hsemi as [_ Hsemi].
    apply not_elem_of_cons in Hn. destruct Hn as [Hcn Hnt].
    assert (Hg : lazy_group None ((c :: t) ++ post) = Some (c :: t)).
    { cbn [app lazy_group]. unfold char_eqb at 1.
      destruct (N.eqb_spec c newline) as [E | _]; [congruence |].
      apply (lazy_more_plain post (ends_parameter_semi _ Hpost) t [c] Hsemi Hnt). }
    change (lit "filename=" ++ (c :: t) ++ post)
      with (lit "filename" ++ ch "=" :: c :: t ++ post).
    apply first_match_here. unfold match_here.
    change (strip_prefix (lit "filename") (lit "filename" ++ ch "=" :: c :: t ++ post))
      with (Some (ch "=" :: c :: t ++ post)).
    cbn beta iota.
    change (char_eqb (ch "=") (ch "*")) with false.
    change (char_eqb (ch "=") (ch "=")) with true. cbn beta iota.
    replace (char_eqb c dquote || char_eqb c squote) with false.
    2:{ symmetry. apply orb_false_iff. unfold char_eqb.
        split; apply N.eqb_neq; congruence. }
    exact Hg.
  - apply after_quote_pair_none, Hs.
Qed.

Lemma header_plain_filename_witness :
  extract_filename_from_headers
    {| content_disposition :=
         Some (lit "attachment; " ++ lit "filename=" ++ lit "report.pdf" ++ []);
       content_length := None |}
  = Some (sanitize_filename (lit "report.pdf")).
Proof.
  apply (header_plain_filename (lit "attachment; ") (lit "report.pdf") [] None).
  - apply (bool_decide_unpack _). vm_compute. exact I.
  - discriminate.
  - apply (bool_decide_unpack _). vm_compute. exact I.
  - apply (bool_decide_unpack _). vm_compute. exact I.
  - apply (bool_decide_unpack _). vm_compute. exact I.
  - apply (bool_decide_unpack _). vm_compute. exact I.
  - left. reflexivity.
Defined.

(** The extended form, a charset and a pair of single quotes before the
    name: the name is what follows the pair, taken as it is written, its
    percent escapes included. *)
Theorem header_extended_filename (pre charset name post : str) (cl : option str) :
  (ch "f") ∉ pre ->
  charset <> [] -> dquote ∉ charset -> squote ∉ charset ->
  (ch ";") ∉ charset -> newline ∉ charset ->
  (ch ";") ∉ name -> newline ∉ name ->
  ends_parameter post ->
  extract_filename_from_headers
    {| content_disposition :=
         Some (pre ++ lit "filename*=" ++ charset ++ squote :: squote :: name ++ post);
       content_length := cl |}
  = Some (sanitize_filename name).
Proof.
  intros Hpre Hne Hd Hs Hsemi Hn Hsemi2 Hn2 Hpost.
  unfold extract_filename_from_headers. cbn [content_disposition].
  rewrite app_not_empty by discriminate.
  rewrite first_match_skip by (assumption || discriminate).
  destruct charset as [| c t]; [contradiction |].
  set (g := (c :: t) ++ squote :: squote :: name).
  assert (Hg : lazy_group None (g ++ post) = Some g).
  { assert (H1 : (ch ";") ∉ g).
    { unfold g. intros Hin. apply elem_of_app in Hin. destruct Hin as [Hin | Hin];
        [contradiction |].
      apply elem_of_cons in Hin. destruct Hin as [Hin | Hin]; [discriminate |].
      apply elem_of_cons in Hin. destruct Hin as [Hin | Hin]; [discriminate | contradiction]. }
    assert (H2 : newline ∉ g).
    { unfold g. intros Hin. apply elem_of_app in Hin. destruct Hin as [Hin | Hin];
        [contradiction |].
      apply elem_of_cons in Hin. destruct Hin as [Hin | Hin]; [discriminate |].
      apply elem_of_cons in Hin. destruct Hin as [Hin | Hin]; [discriminate | contradiction]. }
    unfold g in *. cbn [app] in *.
    apply not_elem_of_cons in H1. destruct H1 as [_ H1].
    apply not_elem_of_cons in H2. destruct H2 as [Hcn H2].
    cbn [lazy_group]. unfold char_eqb at 1.
    destruct (N.eqb_spec c newline) as [E | _]; [congruence |].
    apply (lazy_more_plain post (ends_parameter_semi _ Hpost) _ [c] H1 H2). }
  assert (Hm : first_match
                 (lit "filename*=" ++ (c :: t) ++ squote :: squote :: name ++ post)
               = Some g).
  { replace (lit "filename*=" ++ (c :: t) ++ squote :: squote :: name ++ post)
      with (lit "filename" ++ ch "*" :: ch "=" :: g ++ post).
    2:{ unfold g. cbn [app]. rewrite <- !app_assoc. reflexivity. }
    apply not_elem_of_cons in Hd. destruct Hd as [Hcd _].
    apply not_elem_of_cons in Hs. destruct Hs as [Hcs _].
    apply first_match_here. unfold match_here.
    change (strip_prefix (lit "filename") (lit "filename" ++ ch "*" :: ch "=" :: g ++ post))
      with (Some (ch "*" :: ch "=" :: g ++ post)).
    cbn beta iota.
    change (char_eqb (ch "*") (ch "*")) with true. cbn beta iota.
    change (char_eqb (ch "=") (ch "=")) with true. cbn beta iota.
    unfold g at 1 2. cbn [app].
    replace (char_eqb c dquote || char_eqb c squote) with false.
    2:{ symmetry. apply orb_false_iff. unfold char_eqb.
        split; apply N.eqb_neq; congruence. }
    exact Hg. }
  rewrite Hm. unfold g. rewrite (after_quote_pair_first (c :: t) name Hs). reflexivity.
Qed.

Lemma header_extended_filename_witness :
  extract_filename_from_headers
    {| content_disposition :=
         Some (lit "attachment; " ++ lit "filename*=" ++ lit "UTF-8" ++
               squote :: squote :: lit "na%C3%AFve.txt" ++ []);
       content_length := None |}
  = Some (sanitize_filename (lit "na%C3%AFve.txt")).
Proof.
  apply (header_extended_filename (lit "attachment; ") (lit "UTF-8")
           (lit "na%C3%AFve.txt") [] None).
  - apply (bool_decide_unpack _). vm_compute. exact I.
  - discriminate.
  - apply (bool_decide_unpack _). vm_compute. exact I.
  - apply (bool_decide_unpack _). vm_compute. exact I.
  - apply (bool_decide_unpack _). vm_compute. exact I.
  - apply (bool_decide_unpack _). vm_compute. exact I.
  - apply (bool_decide_unpack _). vm_compute. exact I.
  - apply (bool_decide_unpack _). vm_compute. exact I.
  - left. reflexivity.
Defined.

Lemma match_here_equals (s g : str) : match_here s = Some g -> (ch "=") ∈ s.
Proof.
  unfold match_here.
  destruct (strip_prefix (lit "filename") s) as [s1 |] eqn:E; [| discriminate].
  assert (Hs : s = lit "filename" ++ s1).
  { clear -E. revert s E. generalize (lit "filename").
    induction l as [| a p IH]; intros s E; cbn in E.
    - now injection E as ->.
    - destruct s as [| b s]; [discriminate |].
      unfold char_eqb in E. destruct (N.eqb_spec a b) as [-> | _]; [| discriminate].
      cbn. f_equal. apply IH, E. }
  intros H. rewrite Hs. apply elem_of_app. right.
  destruct s1 as [| c t]; [discriminate |].
  unfold char_eqb in H.
  destruct (N.eqb_spec c (ch "*")) as [-> | _].
  - destruct t as [| e s3]; [discriminate |].
    destruct (N.eqb_spec e (ch "=")) as [-> | _]; [| discriminate].
    apply elem_of_cons. right. apply elem_of_cons. left. reflexivity.
  - destruct (N.eqb_spec c (ch "=")) as [-> | _]; [| discriminate].
    apply elem_of_cons. left. reflexivity.
Qed.

(** A header that is absent, empty, or holds no equals sign gives no file
    name. *)
Theorem header_without_parameter (h : headers) :
  (forall cd, content_disposition h = Some cd -> (ch "=") ∉ cd) ->
  extract_filename_from_headers h = None.
Proof.
  intros H. unfold extract_filename_from_headers.
  destruct (content_disposition h) as [cd |]; [| reflexivity].
  specialize (H cd eq_refl). destruct (is_empty cd); [reflexivity |].
  assert (Hm : first_match cd = None).
  { induction cd as [| c cd IH].
    - reflexivity.
    - cbn [first_match]. destruct (match_here (c :: cd)) as [g |] eqn:E.
      + exfalso. apply H. apply (match_here_equals _ _ E).
      + apply IH. intros Hin. apply H. apply elem_of_cons. right. exact Hin. }
  rewrite Hm. reflexivity.
Qed.

Lemma header_without_parameter_witness :
  extract_filename_from_headers
    {| content_disposition := Some (lit "inline"); content_length := None |} = None.
Proof.
  apply (header_without_parameter
           {| content_disposition := Some (lit "inline"); content_length := None |}).
  intros cd [= <-]. apply (bool_decide_unpack _). vm_compute. exact I.
Defined.

End HeaderFacts.

(** ** bot/validators.py: the rate limiter *)

Module ValidatorsSpec.

Import Spec Validators.

Lemma Qltb_true (x y : Q) : Qltb x y = true <-> (x < y)%Q.
Proof.
  unfold Qltb. rewrite negb_true_iff. split.
  - intros H. apply Qnot_le_lt. intros Hle. apply Qle_bool_iff in Hle. congruence.
  - intros H. destruct (Qle_bool y x) eqn:E; [| reflexivity].
    apply Qle_bool_iff in E. exfalso. apply (Qlt_not_le _ _ H E).
Qed.

Lemma Qltb_false (x y : Q) : Qltb x y = false <-> (y <= x)%Q.
Proof.
  unfold Qltb. rewrite negb_false_iff. apply Qle_bool_iff.
Qed.

Lemma int_of_Q_range (q : Q) (n : Z) :
  (0 <= q)%Q -> (q <= inject_Z n)%Q -> 0 <= int_of_Q q <= n.
Proof.
  destruct q as [a b]. unfold Qle, int_of_Q. cbn. intros H0 Hn. split.
  - apply Z.quot_pos; lia.
  - apply Z.quot_le_upper_bound; lia.
Qed.

(** A request made once the cooldown has elapsed since the last admitted
    one is admitted with no wait, and recorded. *)
Lemma rate_limit_after_cooldown (now l : Q) (uid : Z) (m : gmap Z Q) :
  m !! uid = Some l -> (l + REQUEST_COOLDOWN <= now)%Q ->
  check_rate_limit now uid m = ((true, 0), <[uid := now]> m).
Proof.
  intros Hm Hle. unfold check_rate_limit. rewrite Hm. cbn [default from_option id].
  replace (Qltb (now - l) REQUEST_COOLDOWN) with false; [reflexivity |].
  symmetry. apply Qltb_false. unfold REQUEST_COOLDOWN in *. lra.
Qed.

Lemma rate_limit_after_cooldown_witness :
  check_rate_limit 1010 7 {[ 7 := 1000%Q ]} = ((true, 0), <[7 := 1010%Q]> {[ 7 := 1000%Q ]}).
Proof.
  apply (rate_limit_after_cooldown 1010 1000 7 {[ 7 := 1000%Q ]}).
  - reflexivity.
  - vm_compute. discriminate.
Defined.

(** A request made within the cooldown of the last admitted one is
    rejected, with a wait between 0 and 10. *)
Lemma rate_limit_within_window (now l : Q) (uid : Z) (m : gmap Z Q) :
  m !! uid = Some l -> (l <= now)%Q -> (now < l + REQUEST_COOLDOWN)%Q ->
  exists wait, check_rate_limit now uid m = ((false, wait), m) /\ 0 <= wait <= 10.
Proof.
  intros Hm Hle Hlt. unfold check_rate_limit. rewrite Hm. cbn [default from_option id].
  replace (Qltb (now - l) REQUEST_COOLDOWN) with true.
  - eexists. split; [reflexivity |].
    apply int_of_Q_range; unfold REQUEST_COOLDOWN in *;
      [| change (inject_Z 10) with 10%Q]; lra.
  - symmetry. apply Qltb_true. unfold REQUEST_COOLDOWN in *. lra.
Qed.

Lemma rate_limit_within_window_witness :
  exists wait,
    check_rate_limit 1003 7 {[ 7 := 1000%Q ]} = ((false, wait), {[ 7 := 1000%Q ]}) /\
    0 <= wait <= 10.
Proof.
  apply (rate_limit_within_window 1003 1000 7 {[ 7 := 1000%Q ]}).
  - reflexivity.
  - vm_compute. discriminate.
  - vm_compute. reflexivity.
Defined.

(** C5 fails on the code: a request admitted at 1000 and a second one 9.5
    seconds later, within the cooldown, is rejected with a wait of 0. *)
Lemma rate_limit_zero_wait :
  fst (check_rate_limit 1000 7 ∅) = (true, 0) /\
  fst (check_rate_limit (2019 # 2) 7 (snd (check_rate_limit 1000 7 ∅))) = (false, 0).
Proof. split; vm_compute; reflexivity. Qed.

(** C10. A call of [check_rate_limit] that rejects leaves the dictionary
    of last requests unchanged, and no call changes the entry of another
    identity. *)
Theorem rate_limit_frame (now : Q) (uid : Z) (m : gmap Z Q) :
  (fst (fst (check_rate_limit now uid m)) = false ->
   snd (check_rate_limit now uid m) = m) /\
  (forall other : Z, other <> uid ->
   snd (check_rate_limit now uid m) !! other = m !! other).
Proof.
  unfold check_rate_limit.
  destruct (Qltb _ _); cbn [fst snd]; split.
  - reflexivity.
  - reflexivity.
  - discriminate.
  - intros other Hne. apply lookup_insert_ne. congruence.
Qed.

Lemma rate_limit_frame_witness :
  snd (check_rate_limit (2019 # 2) 7 {[ 7 := 1000%Q; 8 := 5%Q ]})
    = {[ 7 := 1000%Q; 8 := 5%Q ]}.
Proof.
  apply (proj1 (rate_limit_frame (2019 # 2) 7 {[ 7 := 1000%Q; 8 := 5%Q ]})).
  vm_compute. reflexivity.
Defined.

End ValidatorsSpec.

(** ** bot/handlers.py: the throttle *)

Module HandlersSpec.

Import Spec Handlers ValidatorsSpec.

(** The invariant of the run: the dictionary holds, for the job, the clock
    reading of its last forwarded update, if there is one. *)
Lemma run_callbacks_forwarded (key : str) (events : list progress_event) :
  forall (m : gmap str Q) (last : option Q),
  m !! key = last -> Forall live events ->
  fst (run_callbacks key events m)
  = forwarded_from_100 last (List.map event_pair events).
Proof.
  unfold forwarded_from_100.
  induction events as [| ev rest IH]; intros m last Hm Hwf; [reflexivity |].
  apply Forall_cons in Hwf. destruct Hwf as [(Hrun & Ht) Hwf].
  cbn [run_callbacks List.map forwarded_when event_pair].
  unfold progress_callback. rewrite Hrun, Hm.
  assert (Hpct : (percent ev <? 100) = negb (100 <=? percent ev)).
  { destruct (Z.ltb_spec (percent ev) 100), (Z.leb_spec 100 (percent ev));
      cbn; try reflexivity; lia. }
  assert (Hcond : Qltb (at_time ev - default 0%Q last) MIN_EDIT_DELAY && (percent ev <? 100)
                  = negb (match last with
                          | None => true
                          | Some l => Qle_bool MIN_EDIT_DELAY (at_time ev - l)
                          end || (100 <=? percent ev))).
  { rewrite Hpct, negb_orb. f_equal. destruct last as [l |]; cbn [default from_option id].
    - reflexivity.
    - apply Qltb_false. unfold MIN_EDIT_DELAY in *. lra. }
  rewrite Hcond.
  destruct (_ || _); cbn [negb].
  - specialize (IH (<[key := at_time ev]> m) (Some (at_time ev))
                  ltac:(apply lookup_insert_eq) Hwf).
    destruct (run_callbacks key rest (<[key := at_time ev]> m)) as [outs m'].
    cbn [fst] in *. rewrite IH. reflexivity.
  - specialize (IH m last Hm Hwf).
    destruct (run_callbacks key rest m) as [outs m'].
    cbn [fst] in *. exact IH.
Qed.

(** Whatever the calls, what is forwarded is a selection of them in their
    order: a call that is not forwarded leaves nothing behind. *)
Lemma run_callbacks_sublist (key : str) (events : list progress_event) :
  forall m : gmap str Q,
  sublist (fst (run_callbacks key events m)) (List.map event_pair events).
Proof.
  induction events as [| ev rest IH]; intros m; [constructor |].
  cbn [run_callbacks List.map].
  destruct (progress_callback key (at_time ev) (loop_running ev) (percent ev) m)
    as [out m1] eqn:E.
  specialize (IH m1). destruct (run_callbacks key rest m1) as [outs m'].
  cbn [fst] in *.
  assert (Hout : out = None \/ out = Some (percent ev)).
  { unfold progress_callback in E.
    destruct (_ && _) in E; [injection E as <- _; left; reflexivity |].
    destruct (loop_running ev); injection E as <- _; [right | left]; reflexivity. }
  destruct Hout as [-> | ->].
  - apply sublist_cons, IH.
  - apply sublist_skip, IH.
Qed.

(** A call that is suppressed leaves the dictionary as it was: nothing is
    kept for later. *)
Lemma suppressed_keeps_state (key : str) (t : Q) (running : bool) (p : Z)
    (m : gmap str Q) :
  Qltb (t - default 0%Q (m !! key)) MIN_EDIT_DELAY && (p <? 100) = true ->
  progress_callback key t running p m = (None, m).
Proof. intros H. unfold progress_callback. rewrite H. reflexivity. Qed.

Lemma suppressed_keeps_state_witness :
  progress_callback Scenario.job 1001 true 30 {[ Scenario.job := 1000%Q ]}
    = (None, {[ Scenario.job := 1000%Q ]}).
Proof.
  apply (suppressed_keeps_state Scenario.job 1001 true 30 {[ Scenario.job := 1000%Q ]}).
  vm_compute. reflexivity.
Defined.

(** C7, as amended. For the calls of one job, made while the loop runs and
    at clock readings of at least 2, an update is forwarded exactly when it
    is the first, when at least 2 time units have elapsed since the last
    forwarded update, or when its percentage is 100 or more; the updates
    forwarded are a selection of the calls, the others being dropped. *)
Theorem throttle_forwarding_from_100 (key : str) (events : list progress_event)
    (m : gmap str Q) :
  m !! key = None -> Forall live events ->
  fst (run_callbacks key events m)
  = forwarded_from_100 None (List.map event_pair events) /\
  sublist (fst (run_callbacks key events m)) (List.map event_pair events).
Proof.
  intros Hm Hwf. split.
  - apply run_callbacks_forwarded; assumption.
  - apply run_callbacks_sublist.
Qed.

Lemma throttle_forwarding_from_100_witness :
  fst (run_callbacks Scenario.job Scenario.above_100 ∅)
  = forwarded_from_100 None (List.map event_pair Scenario.above_100) /\
  sublist (fst (run_callbacks Scenario.job Scenario.above_100 ∅))
    (List.map event_pair Scenario.above_100).
Proof.
  apply (throttle_forwarding_from_100 Scenario.job Scenario.above_100 ∅).
  - reflexivity.
  - repeat constructor; vm_compute; congruence.
Defined.

(** C7 as stated fails.  A call with 150 percent half a second after a
    forwarded one is forwarded, though 2 time units have not elapsed and
    the percentage is not 100.  A first call made when the loop has
    stopped, and a first call at a clock reading of one second, are not
    forwarded, though the first event is to be forwarded always. *)
Lemma throttle_counterexample :
  (fst (run_callbacks Scenario.job Scenario.above_100 ∅)
   = [(1000%Q, 10); ((2001 # 2)%Q, 150)] /\
   forwarded None (List.map event_pair Scenario.above_100) = [(1000%Q, 10)]) /\
  (fst (run_callbacks Scenario.job Scenario.loop_stopped ∅) = [] /\
   forwarded None (List.map event_pair Scenario.loop_stopped) = [(1000%Q, 10)]) /\
  (fst (run_callbacks Scenario.job Scenario.early ∅) = [] /\
   forwarded None (List.map event_pair Scenario.early) = [(1%Q, 10)]).
Proof. repeat split; vm_compute; reflexivity. Qed.

(** The scenario of the specification: of the calls at [t0], [t0 + 0.5],
    [t0 + 1] and [t0 + 2.1] only the first and the last are forwarded. *)
Lemma four_events_forwarded :
  fst (run_callbacks Scenario.job Scenario.four_events ∅)
    = [(1000%Q, 10); ((10021 # 10)%Q, 100)].
Proof. vm_compute. reflexivity. Qed.

End HandlersSpec.

(** ** String searches *)

Module SearchFacts.

Lemma find_at_range (c : char) (s : str) (i : Z) :
  find_at c i s = -1 \/ i <= find_at c i s < i + Z.of_nat (length s).
Proof.
  revert i. induction s as [| d s IH]; intros i; [left; reflexivity |].
  cbn [find_at length]. destruct (char_eqb d c); [right; lia |].
  destruct (IH (i + 1)) as [-> | H]; [left; reflexivity | right; lia].
Qed.

Lemma find_at_none (c : char) (s : str) (i : Z) : c ∉ s -> find_at c i s = -1.
Proof.
  revert i. induction s as [| d s IH]; intros i H; [reflexivity |].
  apply not_elem_of_cons in H. destruct H as [Hne Hs]. cbn [find_at].
  unfold char_eqb. destruct (N.eqb_spec d c) as [E | _]; [congruence |].
  apply IH, Hs.
Qed.

Lemma find_at_app (c : char) (a b : str) (i : Z) :
  c ∉ a -> find_at c i (a ++ c :: b) = i + Z.of_nat (length a).
Proof.
  revert i. induction a as [| d a IH]; intros i H.
  - cbn. unfold char_eqb. rewrite N.eqb_refl. lia.
  - apply not_elem_of_cons in H. destruct H as [Hne Ha]. cbn [app find_at length].
    unfold char_eqb. destruct (N.eqb_spec d c) as [E | _]; [congruence |].
    rewrite (IH _ Ha). lia.
Qed.

(** A string lacks [c], or splits at its first [c], where [find] points. *)
Lemma find_at_spec (c : char) (s : str) (i : Z) :
  ((c ∉ s) /\ find_at c i s = -1) \/
  exists a b, s = a ++ c :: b /\ (c ∉ a) /\ find_at c i s = i + Z.of_nat (length a).
Proof.
  revert i. induction s as [| d s IH]; intros i.
  - left. split; [apply not_elem_of_nil | reflexivity].
  - cbn [find_at]. unfold char_eqb. destruct (N.eqb_spec d c) as [-> | Hne].
    + right. exists [], s. split; [reflexivity |]. split; [apply not_elem_of_nil | cbn; lia].
    + destruct (IH (i + 1)) as [[Hno ->] | (a & b & -> & Ha & ->)].
      * left. split; [| reflexivity]. apply not_elem_of_cons. split; [congruence | exact Hno].
      * right. exists (d :: a), b. split; [reflexivity |].
        split; [apply not_elem_of_cons; split; [congruence | exact Ha] |].
        cbn [length]. lia.
Qed.

Lemma remove_char_absent (c : char) (s : str) : c ∉ s -> remove_char c s = s.
Proof.
  induction s as [| d s IH]; intros H; [reflexivity |].
  apply not_elem_of_cons in H. destruct H as [Hne Hs].
  unfold remove_char. cbn [List.filter]. fold (remove_char c s). rewrite (IH Hs).
  unfold char_eqb. destruct (N.eqb_spec d c) as [E | _]; [congruence | reflexivity].
Qed.

Lemma contains_false (c : char) (s : str) : contains c s = false <-> c ∉ s.
Proof.
  unfold contains. induction s as [| d s IH]; cbn [existsb].
  - split; [intros _; apply not_elem_of_nil | reflexivity].
  - rewrite orb_false_iff, IH, not_elem_of_cons. unfold char_eqb.
    destruct (N.eqb_spec c d); split; intros [H1 H2]; (split; [congruence | exact H2]).
Qed.

End SearchFacts.

(** ** urllib.parse: the scheme and the netloc *)

Module UrlFacts.

Import Spec UrlParse Validators SearchFacts.

Lemma delim_of_nil (k : Z) : delim_of k [] = k.
Proof. unfold delim_of. cbn. lia. Qed.

Lemma delim_of_cons (k : Z) (d : char) (u : str) :
  0 <= k ->
  delim_of k (d :: u) = if delimiter d then k else delim_of (k + 1) u.
Proof.
  intros Hk. unfold delim_of, delimiter. cbn [List.fold_left find_at length].
  assert (H1 := find_at_range (ch "/") u (k + 1)).
  assert (H2 := find_at_range (ch "?") u (k + 1)).
  assert (H3 := find_at_range (ch "#") u (k + 1)).
  destruct (char_eqb d (ch "/")), (char_eqb d (ch "?")), (char_eqb d (ch "#"));
    cbn [orb];
    repeat match goal with
           | |- context [?x >=? 0] => destruct (Z.geb_spec x 0)
           end; lia.
Qed.

Lemma delim_of_span (u : str) :
  forall k, 0 <= k ->
  exists netloc rest,
    u = netloc ++ rest /\ Forall (fun c => delimiter c = false) netloc /\
    after_netloc rest /\ delim_of k u = k + Z.of_nat (length netloc).
Proof.
  induction u as [| d u IH]; intros k Hk.
  - exists [], []. rewrite delim_of_nil. cbn.
    split; [reflexivity |]. split; [constructor |]. split; [left; reflexivity | lia].
  - rewrite delim_of_cons by exact Hk. destruct (delimiter d) eqn:Ed.
    + exists [], (d :: u). cbn. split; [reflexivity |]. split; [constructor |].
      split; [right; exists d, u; split; [reflexivity | exact Ed] | lia].
    + destruct (IH (k + 1) ltac:(lia)) as (netloc & rest & -> & Hn & Hr & ->).
      exists (d :: netloc), rest. cbn [app length].
      split; [reflexivity |]. split; [constructor; assumption |].
      split; [exact Hr | lia].
Qed.

(** The netloc is what lies between the two slashes and the first
    delimiter. *)
Lemma splitnetloc_spec (v : str) :
  exists netloc rest,
    v = netloc ++ rest /\ Forall (fun c => delimiter c = false) netloc /\
    after_netloc rest /\
    splitnetloc (ch "/" :: ch "/" :: v) 2 = (netloc, rest).
Proof.
  destruct (delim_of_span v 2 ltac:(lia)) as (netloc & rest & -> & Hn & Hr & Hd).
  exists netloc, rest. split; [reflexivity |]. split; [exact Hn |]. split; [exact Hr |].
  unfold splitnetloc, find.
  change (slice_from 2 (ch "/" :: ch "/" :: netloc ++ rest)) with (netloc ++ rest).
  change (Z.of_nat (length (ch "/" :: ch "/" :: netloc ++ rest)))
    with (Z.of_nat (S (S (length (netloc ++ rest))))).
  replace (Z.of_nat (S (S (length (netloc ++ rest)))))
    with (2 + Z.of_nat (length (netloc ++ rest))) by lia.
  fold (delim_of 2 (netloc ++ rest)). rewrite Hd.
  unfold slice_to, slice_from.
  replace (Z.to_nat (2 + Z.of_nat (length netloc) - 2)) with (length netloc) by lia.
  replace (Z.to_nat (2 + Z.of_nat (length netloc))) with (S (S (length netloc))) by lia.
  cbn [skipn]. rewrite take_app_length, drop_app_length. reflexivity.
Qed.


Lemma span_unique (a b a' b' : str) :
  a ++ b = a' ++ b' ->
  Forall (fun c => delimiter c = false) a -> Forall (fun c => delimiter c = false) a' ->
  after_netloc b -> after_netloc b' -> a = a' /\ b = b'.
Proof.
  revert a'. induction a as [| c a IH]; intros a' Heq Ha Ha' Hb Hb'.
  - destruct a' as [| c' a']; [split; [reflexivity | exact Heq] |].
    exfalso. cbn in Heq. apply Forall_cons in Ha'. destruct Ha' as [Hc' _].
    destruct Hb as [-> | (d & t & -> & Hd)]; [discriminate |].
    injection Heq as -> _. congruence.
  - apply Forall_cons in Ha. destruct Ha as [Hc Ha].
    destruct a' as [| c' a'].
    + exfalso. cbn in Heq.
      destruct Hb' as [-> | (d & t & -> & Hd)]; [discriminate |].
      injection Heq as -> _. congruence.
    + apply Forall_cons in Ha'. destruct Ha' as [_ Ha'].
      cbn in Heq. injection Heq as <- Heq.
      destruct (IH a' Heq Ha Ha' Hb Hb') as [<- <-]. split; reflexivity.
Qed.

(** The letters of a scheme that reads http or https. *)
Lemma ascii_lower_letter (c : char) :
  ((97 <=? ascii_lower c) && (ascii_lower c <=? 122))%N = true ->
  ascii_letter c = true /\ c <> ch ":" /\ plain_char c = true /\
  WHATWG_C0_CONTROL_OR_SPACE c = false.
Proof.
  unfold ascii_lower, ascii_letter, plain_char, WHATWG_C0_CONTROL_OR_SPACE.
  intros H. assert (Hr : (65 <= c <= 90 \/ 97 <= c <= 122)%N).
  { destruct ((65 <=? c) && (c <=? 90))%N eqn:E.
    - apply andb_true_iff in E. destruct E as [E1 E2].
      apply N.leb_le in E1, E2. lia.
    - apply andb_true_iff in H. destruct H as [E1 E2]. apply N.leb_le in E1, E2. lia. }
  clear H.
  assert (Hc : forall x, (x < 65)%N -> N.eqb c x = false).
  { intros x Hx. apply N.eqb_neq. lia. }
  split; [| split; [| split]].
  - apply orb_true_iff. destruct Hr as [[H1 H2] | [H1 H2]]; [left | right];
      apply andb_true_iff; split; apply N.leb_le; assumption.
  - apply N.eqb_neq, Hc. reflexivity.
  - apply negb_true_iff. cbn [existsb app suspicious UNSAFE_URL_BYTES_TO_REMOVE].
    unfold char_eqb. rewrite !Hc by reflexivity. reflexivity.
  - apply N.leb_gt. lia.
Qed.

Lemma http_scheme_letters (scheme : str) :
  http_scheme scheme ->
  scheme <> [] /\
  Forall (fun c => ascii_letter c = true /\ c <> ch ":" /\ plain_char c = true /\
                   WHATWG_C0_CONTROL_OR_SPACE c = false) scheme.
Proof.
  intros H.
  assert (Hl : Forall (fun c => ((97 <=? c) && (c <=? 122))%N = true) (lower scheme)).
  { destruct H as [-> | ->]; repeat constructor. }
  split; [destruct H as [H | H]; intros ->; discriminate |].
  clear H. unfold lower in Hl. induction scheme as [| c t IH]; [constructor |].
  cbn [List.map] in Hl. apply Forall_cons in Hl. destruct Hl as [Hc Ht].
  constructor; [apply ascii_lower_letter, Hc | apply IH, Ht].
Qed.

End UrlFacts.

(** ** bot/validators.py: the URL check *)

Module UrlCheckFacts.

Import Spec UrlParse Validators NameFacts SearchFacts UrlFacts.

Lemma as_parsed_fold (url : str) :
  List.fold_left (fun url b => remove_char b url) UNSAFE_URL_BYTES_TO_REMOVE
    (lstrip WHATWG_C0_CONTROL_OR_SPACE url) = as_parsed url.
Proof. reflexivity. Qed.

Lemma str_eqb_slashes (s : str) :
  str_eqb (slice_to 2 s) (lit "//") = true -> exists v, s = ch "/" :: ch "/" :: v.
Proof.
  unfold str_eqb. intros H. apply bool_decide_eq_true in H.
  destruct s as [| a [| b v]]; try discriminate.
  cbn in H. injection H as -> ->. exists v. reflexivity.
Qed.

(** What [urlsplit] returns with a scheme and a netloc that are not
    empty. *)
Lemma urlsplit_shape (lib : checks) (url scheme netloc : str) :
  urlsplit lib url = Some (scheme, netloc) -> scheme <> [] -> netloc <> [] ->
  exists s rest,
    as_parsed url = s ++ lit "://" ++ netloc ++ rest /\ scheme = lower s /\
    Forall (fun c => delimiter c = false) netloc /\ after_netloc rest.
Proof.
  unfold urlsplit. rewrite as_parsed_fold. set (u := as_parsed url).
  intros H Hs Hn.
  destruct ((find (ch ":") 0 u >? 0) && ascii_letter (List.nth 0 u 0%N)
            && forallb scheme_chars (slice_to (find (ch ":") 0 u) u)) eqn:Eb.
  2:{ destruct (str_eqb _ _); [| now injection H as <- _].
      destruct (splitnetloc u 2) as [n r].
      repeat (destruct (_ || _) in H || destruct (_ && _) in H || destruct (checknetloc _ _) in H);
        try discriminate; now injection H as <- _. }
  apply andb_true_iff in Eb. destruct Eb as [Eb _].
  apply andb_true_iff in Eb. destruct Eb as [Ei _]. apply Z.gtb_lt in Ei.
  unfold find in *. change (slice_from 0 u) with u in *.
  destruct (find_at_spec (ch ":") u 0) as [[_ Hf] | (a & b & Hu & Ha & Hf)];
    [rewrite Hf in Ei; lia |].
  rewrite Hf in H. rewrite Hu in H.
  unfold slice_to, slice_from in H.
  replace (Z.to_nat (0 + Z.of_nat (length a))) with (length a) in H by lia.
  replace (Z.to_nat (0 + Z.of_nat (length a) + 1)) with (S (length a)) in H by lia.
  rewrite take_app_length in H.
  change (a ++ ch ":" :: b) with (a ++ [ch ":"] ++ b) in H.
  rewrite app_assoc in H.
  replace (S (length a)) with (length (a ++ [ch ":"])) in H
    by (rewrite length_app; cbn; lia).
  rewrite drop_app_length in H.
  destruct (str_eqb (take (Z.to_nat 2) b) (lit "//")) eqn:Es.
  2:{ injection H as _ <-. contradiction. }
  destruct (str_eqb_slashes _ Es) as [v ->].
  destruct (splitnetloc_spec v) as (n & rest & -> & Hd & Hr & Hsp).
  rewrite Hsp in H.
  assert (netloc = n /\ scheme = lower a) as [-> ->].
  { repeat (destruct (_ || _) in H || destruct (_ && _) in H || destruct (checknetloc _ _) in H);
      try discriminate; injection H as <- <-; split; reflexivity. }
  exists a, rest. split; [| split; [reflexivity | split; assumption]].
  fold u. rewrite Hu. reflexivity.
Qed.

(** A URL that [is_valid_url] accepts comes with an empty message and holds
    no angle bracket and no quote; read without the controls and spaces it
    begins with and without tabs, carriage returns and newlines, it is made
    of a scheme that reads http or https in any case of the letters, a
    colon and two slashes, a netloc that is not empty and holds no slash,
    question mark or hash sign, and nothing more or a text that begins with
    one of these. *)
Theorem valid_url_shape (lib : checks) (url msg : str) :
  is_valid_url lib url = (true, msg) ->
  msg = [] /\ Forall (fun c => c ∉ url) suspicious /\
  exists scheme netloc rest,
    as_parsed url = scheme ++ lit "://" ++ netloc ++ rest /\
    http_scheme scheme /\ netloc <> [] /\
    Forall (fun c => delimiter c = false) netloc /\ after_netloc rest.
Proof.
  unfold is_valid_url, urlparse.
  destruct (urlsplit lib url) as [[scheme netloc] |] eqn:Hu; [| discriminate].
  destruct (bool_decide (scheme ∈ [lit "http"; lit "https"])) eqn:Es;
    cbn [negb]; [| discriminate].
  apply bool_decide_eq_true in Es.
  destruct netloc as [| c n]; cbn [is_empty]; [discriminate |].
  destruct (existsb _ suspicious) eqn:Ex; [discriminate |].
  intros [= <-]. split; [reflexivity |]. split.
  - apply Forall_forall. intros x Hx. apply contains_false.
    destruct (contains x url) eqn:Ec; [| reflexivity].
    assert (existsb (fun char => contains char url) suspicious = true); [| congruence].
    apply existsb_exists. exists x. split; [apply list_elem_of_In, Hx | exact Ec].
  - assert (Hne : scheme <> []).
    { intros ->. apply elem_of_cons in Es. destruct Es as [E | Es]; [discriminate |].
      apply list_elem_of_singleton in Es. discriminate. }
    destruct (urlsplit_shape lib url scheme (c :: n) Hu Hne ltac:(discriminate))
      as (s & rest & Hp & -> & Hd & Hr).
    exists s, (c :: n), rest. split; [exact Hp |]. split.
    + apply elem_of_cons in Es. destruct Es as [E | Es]; [left; exact E |].
      apply list_elem_of_singleton in Es. right. exact Es.
    + split; [discriminate |]. split; assumption.
Qed.

Lemma valid_url_shape_witness :
  @nil N = [] /\ Forall (fun c => c ∉ lit "HTTPS://example.org/a?b") suspicious /\
  exists scheme netloc rest,
    as_parsed (lit "HTTPS://example.org/a?b") = scheme ++ lit "://" ++ netloc ++ rest /\
    http_scheme scheme /\ netloc <> [] /\
    Forall (fun c => delimiter c = false) netloc /\ after_netloc rest.
Proof.
  apply (valid_url_shape
           {| check_bracketed_netloc := fun _ => true; nfkc_check := fun _ => true |}
           (lit "HTTPS://example.org/a?b") []).
  vm_compute. reflexivity.
Defined.

Lemma host_char_inv (c : char) :
  host_char c = true ->
  (c <? 128)%N = true /\ plain_char c = true /\ delimiter c = false /\
  c <> ch "[" /\ c <> ch "]".
Proof.
  unfold host_char. intros H.
  repeat (apply andb_true_iff in H; destruct H as [H ?]).
  repeat match goal with
         | H : negb _ = true |- _ => apply negb_true_iff in H
         end.
  unfold char_eqb in *.
  repeat split; try assumption; apply N.eqb_neq; assumption.
Qed.

Lemma plain_char_inv (c : char) :
  plain_char c = true -> (c ∉ suspicious) /\ (c ∉ UNSAFE_URL_BYTES_TO_REMOVE).
Proof.
  unfold plain_char. intros H. apply negb_true_iff in H.
  assert (Hn : c ∉ suspicious ++ UNSAFE_URL_BYTES_TO_REMOVE).
  { intros Hin. apply list_elem_of_In in Hin.
    assert (existsb (char_eqb c) (suspicious ++ UNSAFE_URL_BYTES_TO_REMOVE) = true);
      [| congruence].
    apply existsb_exists. exists c. split; [exact Hin | apply N.eqb_refl]. }
  split; intros Hin; apply Hn, elem_of_app; [left | right]; exact Hin.
Qed.

(** A URL made of a scheme that reads http or https, a colon and two
    slashes, a netloc of ASCII characters that is not empty and holds no
    delimiter, square bracket, angle bracket, quote, tab, carriage return or
    newline, and then nothing or a delimiter and a text without angle
    bracket, quote, tab, carriage return or newline, is accepted: whatever
    host it names, and with spaces, a user name or a port in it. *)
Theorem valid_url_accepted (lib : checks) (scheme netloc rest : str) :
  http_scheme scheme -> netloc <> [] ->
  Forall (fun c => host_char c = true) netloc ->
  after_netloc rest -> Forall (fun c => plain_char c = true) rest ->
  is_valid_url lib (scheme ++ lit "://" ++ netloc ++ rest) = (true, []).
Proof.
  intros Hs Hne Hn Hr Hp.
  destruct (http_scheme_letters scheme Hs) as [Hsne Hl].
  set (url := scheme ++ lit "://" ++ netloc ++ rest).
  assert (Hplain : Forall (fun c => plain_char c = true) url).
  { unfold url. apply Forall_app. split.
    - eapply Forall_impl; [exact Hl |]. cbn. tauto.
    - apply Forall_app. split; [repeat constructor |].
      apply Forall_app. split; [| exact Hp].
      eapply Forall_impl; [exact Hn |]. cbn. intros c Hc. apply host_char_inv, Hc. }
  assert (Habsent : forall x, x ∈ suspicious ++ UNSAFE_URL_BYTES_TO_REMOVE -> x ∉ url).
  { intros x Hx Hin. rewrite Forall_forall in Hplain. specialize (Hplain x Hin).
    destruct (plain_char_inv x Hplain) as [H1 H2].
    apply elem_of_app in Hx. destruct Hx; contradiction. }
  assert (Hparsed : as_parsed url = url).
  { unfold as_parsed. rewrite lstrip_fixed.
    2:{ unfold url. destruct scheme as [| c t]; [contradiction |].
        apply Forall_cons in Hl. cbn. apply Hl. }
    rewrite (remove_char_absent 9%N url), (remove_char_absent 13%N url),
      (remove_char_absent 10%N url); [reflexivity | | |]; apply Habsent;
      apply (bool_decide_unpack _); vm_compute; exact I. }
  assert (Hcolon : (ch ":") ∉ scheme).
  { intros Hin. rewrite Forall_forall in Hl. destruct (Hl _ Hin) as (_ & H & _).
    contradiction. }
  assert (Hsplit : urlsplit lib url = Some (lower scheme, netloc)).
  { unfold urlsplit. rewrite as_parsed_fold, Hparsed.
    unfold find. change (slice_from 0 url) with url.
    assert (Hf : find_at (ch ":") 0 url = Z.of_nat (length scheme)).
    { unfold url. change (lit "://" ++ netloc ++ rest)
        with (ch ":" :: ch "/" :: ch "/" :: netloc ++ rest).
      rewrite (find_at_app _ _ _ 0 Hcolon). lia. }
    rewrite Hf. unfold slice_to, slice_from. rewrite Nat2Z.id.
    replace (Z.to_nat (Z.of_nat (length scheme) + 1)) with (S (length scheme)) by lia.
    unfold url at 2 3 4.
    rewrite take_app_length.
    change (lit "://" ++ netloc ++ rest)
      with ([ch ":"] ++ ch "/" :: ch "/" :: netloc ++ rest).
    rewrite app_assoc.
    replace (S (length scheme)) with (length (scheme ++ [ch ":"]))
      by (rewrite length_app; cbn; lia).
    rewrite drop_app_length.
    replace ((Z.of_nat (length scheme) >? 0) && ascii_letter (List.nth 0 url 0%N)
             && forallb scheme_chars scheme) with true.
    2:{ symmetry. apply andb_true_iff. split; [apply andb_true_iff; split |].
        - apply Z.gtb_lt. destruct scheme; [contradiction | cbn [length]; lia].
        - unfold url. destruct scheme as [| c t]; [contradiction |].
          apply Forall_cons in Hl. cbn. apply Hl.
        - apply forallb_forall. intros c Hc. apply list_elem_of_In in Hc.
          rewrite Forall_forall in Hl. destruct (Hl c Hc) as [Hc1 _].
          unfold scheme_chars. rewrite Hc1. reflexivity. }
    change (str_eqb (take (Z.to_nat 2) (ch "/" :: ch "/" :: netloc ++ rest)) (lit "//"))
      with true. cbn iota.
    destruct (splitnetloc_spec (netloc ++ rest)) as (n & r & Heq & Hd & Har & ->).
    assert (Hd0 : Forall (fun c => delimiter c = false) netloc).
    { eapply Forall_impl; [exact Hn |]. cbn. intros c Hc. apply host_char_inv, Hc. }
    destruct (span_unique _ _ _ _ Heq Hd0 Hd Hr Har) as [<- <-].
    assert (Hb1 : contains (ch "[") netloc = false).
    { apply contains_false. intros Hin. rewrite Forall_forall in Hn.
      destruct (host_char_inv _ (Hn _ Hin)) as (_ & _ & _ & H & _). contradiction. }
    assert (Hb2 : contains (ch "]") netloc = false).
    { apply contains_false. intros Hin. rewrite Forall_forall in Hn.
      destruct (host_char_inv _ (Hn _ Hin)) as (_ & _ & _ & _ & H). contradiction. }
    rewrite Hb1, Hb2. cbn [andb orb negb].
    unfold checknetloc.
    replace (forallb (fun c => (c <? 128)%N) netloc) with true.
    2:{ symmetry. apply forallb_forall. intros c Hc. apply list_elem_of_In in Hc.
        rewrite Forall_forall in Hn. apply (host_char_inv _ (Hn _ Hc)). }
    rewrite orb_true_r. reflexivity. }
  unfold is_valid_url, urlparse. fold url. rewrite Hsplit.
  replace (bool_decide (lower scheme ∈ [lit "http"; lit "https"])) with true.
  2:{ symmetry. apply bool_decide_eq_true.
      destruct Hs as [-> | ->]; [apply elem_of_cons; left; reflexivity |].
      apply elem_of_cons; right. apply list_elem_of_singleton. reflexivity. }
  cbn [negb]. destruct netloc as [| c n]; [contradiction |]. cbn [is_empty].
  replace (existsb (fun char => contains char url) suspicious) with false; [reflexivity |].
  symmetry. apply not_true_is_false. intros Hex. apply existsb_exists in Hex.
  destruct Hex as (x & Hx & Hc). apply list_elem_of_In in Hx.
  assert (Hno : x ∉ url) by (apply Habsent, elem_of_app; left; exact Hx).
  apply contains_false in Hno. congruence.
Qed.

Lemma valid_url_accepted_witness :
  is_valid_url {| check_bracketed_netloc := fun _ => true; nfkc_check := fun _ => true |}
    (lit "HtTp" ++ lit "://" ++ lit "user@10.0.0.1:8080" ++ lit "/a b.zip?x=1")
  = (true, []).
Proof.
  apply (valid_url_accepted _ (lit "HtTp") (lit "user@10.0.0.1:8080") (lit "/a b.zip?x=1")).
  - left. reflexivity.
  - discriminate.
  - apply Forall_forall. intros c Hc.
    apply list_elem_of_In, (forallb_forall host_char) in Hc; [exact Hc | reflexivity].
  - right. eexists _, _. split; reflexivity.
  - apply Forall_forall. intros c Hc.
    apply list_elem_of_In, (forallb_forall plain_char) in Hc; [exact Hc | reflexivity].
Defined.

End UrlCheckFacts.

(** ** Printing integers *)

Module PrintFacts.

Lemma lit_inj (a b : string) : lit a = lit b -> a = b.
Proof.
  unfold lit. intros H.
  rewrite <- (string_of_list_ascii_of_string a), <- (string_of_list_ascii_of_string b).
  f_equal. revert H. generalize (list_ascii_of_string a) (list_ascii_of_string b).
  induction l as [| x l IH]; intros [| y l'] H; try discriminate; [reflexivity |].
  cbn in H. injection H as Hxy Hl. f_equal; [| apply IH, Hl].
  rewrite <- (ascii_N_embedding x), <- (ascii_N_embedding y). now rewrite Hxy.
Qed.

Lemma to_int_proper (n : Z) :
  Z.to_int n <> Decimal.Pos Decimal.Nil /\ Z.to_int n <> Decimal.Neg Decimal.Nil.
Proof.
  destruct n as [| p | p]; cbn; split; try discriminate;
    intros [= H]; apply (Unsigned.to_uint_nonnil p H).
Qed.

(** [str] is injective on the integers. *)
Lemma str_of_int_inj (a b : Z) : str_of_int a = str_of_int b -> a = b.
Proof.
  unfold str_of_int. intros H. apply lit_inj in H.
  apply DecimalZ.to_int_inj.
  destruct (to_int_proper a) as [Ha1 Ha2]. destruct (to_int_proper b) as [Hb1 Hb2].
  assert (Ha := NilZero.isi _ Ha1 Ha2). assert (Hb := NilZero.isi _ Hb1 Hb2).
  rewrite H in Ha. rewrite Ha in Hb. now injection Hb.
Qed.

Lemma uint_digits (d : Decimal.uint) :
  Forall (fun c => is_digit c = true) (lit (NilEmpty.string_of_uint d)).
Proof. induction d; cbn; constructor; (reflexivity || assumption). Qed.

(** The text of an integer is made of digits, after a minus sign at
    most. *)
Lemma str_of_int_chars (n : Z) :
  Forall (fun c => is_digit c = true \/ c = ch "-") (str_of_int n).
Proof.
  assert (Hu : forall d, Forall (fun c => is_digit c = true \/ c = ch "-")
                           (lit (NilZero.string_of_uint d))).
  { intros d. eapply Forall_impl.
    - destruct d; try apply uint_digits. repeat constructor.
    - cbn. tauto. }
  unfold str_of_int. destruct (Z.to_int n) as [d | d]; cbn [NilZero.string_of_int].
  - apply Hu.
  - change (lit (String "-" (NilZero.string_of_uint d)))
      with (ch "-" :: lit (NilZero.string_of_uint d)).
    constructor; [right; reflexivity | apply Hu].
Qed.

Lemma str_of_int_no_underscore (n : Z) : (ch "_") ∉ str_of_int n.
Proof.
  intros Hin. assert (H := str_of_int_chars n). rewrite Forall_forall in H.
  destruct (H _ Hin) as [Hd | Hd]; discriminate.
Qed.

End PrintFacts.

(** ** bot/handlers.py: messages and keys *)

Module HandlersFacts.

Import Spec Downloader Validators Handlers UrlParse.
Import NameFacts SearchFacts ValidatorsSpec PrintFacts.

Lemma first_occurrence_unique (c : char) (a1 b1 a2 b2 : str) :
  a1 ++ c :: b1 = a2 ++ c :: b2 -> c ∉ a1 -> c ∉ a2 -> a1 = a2 /\ b1 = b2.
Proof.
  revert a2. induction a1 as [| x a1 IH]; intros a2 Heq H1 H2.
  - destruct a2 as [| y a2]; [injection Heq as <-; split; reflexivity |].
    exfalso. injection Heq as <- _. apply H2. apply elem_of_cons. left. reflexivity.
  - destruct a2 as [| y a2].
    + exfalso. injection Heq as -> _. apply H1. apply elem_of_cons. left. reflexivity.
    + injection Heq as <- Heq.
      apply not_elem_of_cons in H1, H2.
      destruct (IH a2 Heq (proj2 H1) (proj2 H2)) as [<- <-]. split; reflexivity.
Qed.

Lemma msg_key_inj (chat1 message1 chat2 message2 : Z) :
  msg_key_of chat1 message1 = msg_key_of chat2 message2 ->
  chat1 = chat2 /\ message1 = message2.
Proof.
  unfold msg_key_of. intros H.
  change (lit "_") with [ch "_"] in H. cbn [app] in H.
  apply first_occurrence_unique in H; try apply str_of_int_no_underscore.
  destruct H as [H1 H2]. split; apply str_of_int_inj; assumption.
Qed.

(** Two status messages that differ in their chat or in their id have
    different keys, and a call of [progress_callback] for one of them leaves
    the throttle of the other as it was. *)
Theorem throttle_per_message (chat1 message1 chat2 message2 : Z) (t : Q)
    (running : bool) (p : Z) (m : gmap str Q) :
  (chat1, message1) <> (chat2, message2) ->
  msg_key_of chat1 message1 <> msg_key_of chat2 message2 /\
  snd (progress_callback (msg_key_of chat1 message1) t running p m)
    !! msg_key_of chat2 message2
  = m !! msg_key_of chat2 message2.
Proof.
  intros Hne.
  assert (Hk : msg_key_of chat1 message1 <> msg_key_of chat2 message2).
  { intros H. apply msg_key_inj in H. destruct H as [-> ->]. contradiction. }
  split; [exact Hk |]. unfold progress_callback.
  destruct (_ && _); cbn [snd]; [reflexivity |].
  apply lookup_insert_ne. exact Hk.
Qed.

Lemma throttle_per_message_witness :
  msg_key_of 42 7 <> msg_key_of 42 8 /\
  snd (progress_callback (msg_key_of 42 7) 1000 true 10 {[ msg_key_of 42 8 := 999%Q ]})
    !! msg_key_of 42 8
  = ({[ msg_key_of 42 8 := 999%Q ]} : gmap str Q) !! msg_key_of 42 8.
Proof.
  apply (throttle_per_message 42 7 42 8 1000 true 10). discriminate.
Defined.

(** *** handle_message *)

(** A message that is not answered with the question about the format
    changes nothing: an invalid link does not start the cooldown, and a
    link sent during the cooldown neither restarts it nor replaces the link
    stored before. *)
Theorem refused_message_keeps_state (lib : checks) (now : Q) (text : str) (uid : Z)
    (m : gmap Z Q) (d : gmap str str) (r : reply) (m' : gmap Z Q) (d' : gmap str str) :
  handle_message lib now text uid m d = (r, m', d') ->
  reply_markup r = None -> m' = m /\ d' = d.
Proof.
  unfold handle_message, check_rate_limit.
  destruct (is_valid_url lib (strip isspace text)) as [[] msg]; cbn [negb].
  - destruct (Qltb _ _); cbn [negb].
    + intros [= <- <- <-] _. split; reflexivity.
    + intros [= <- <- <-]. discriminate.
  - intros [= <- <- <-] _. split; reflexivity.
Qed.

Lemma refused_message_keeps_state_witness :
  ({[ 7 := 1000%Q ]} : gmap Z Q) = {[ 7 := 1000%Q ]} /\ (∅ : gmap str str) = ∅.
Proof.
  apply (refused_message_keeps_state
           {| check_bracketed_netloc := fun _ => true; nfkc_check := fun _ => true |}
           1003 (lit "ftp://example.org/a.zip") 7 {[ 7 := 1000%Q ]} ∅
           {| reply_text := only_http; reply_markup := None |}).
  - vm_compute. reflexivity.
  - reflexivity.
Defined.

Lemma admitted (lib : checks) (now : Q) (text : str) (uid : Z)
    (m : gmap Z Q) (d : gmap str str) :
  fst (is_valid_url lib (strip isspace text)) = true ->
  (REQUEST_COOLDOWN <= now - default 0%Q (m !! uid))%Q ->
  handle_message lib now text uid m d =
    ({| reply_text := lit "How would you like to receive this file?";
        reply_markup := Some format_keyboard |},
     <[uid := now]> m, <[lit "download_url" := strip isspace text]> d).
Proof.
  intros Hv Hc. unfold handle_message, check_rate_limit.
  destruct (is_valid_url lib (strip isspace text)) as [v msg]. cbn [fst] in Hv. subst v.
  cbn [negb]. apply Qltb_false in Hc. rewrite Hc. reflexivity.
Qed.

(** Two valid links from one user, the second less than the cooldown after
    the first, which was admitted: the first is answered with the question
    about the format, the second with a request to wait between 0 and 10
    seconds; the link stored stays the first one, and the cooldown still
    runs from the first. *)
Theorem second_link_in_cooldown (lib : checks) (t1 t2 : Q) (text1 text2 : str)
    (uid : Z) (m : gmap Z Q) (d : gmap str str) :
  fst (is_valid_url lib (strip isspace text1)) = true ->
  fst (is_valid_url lib (strip isspace text2)) = true ->
  (REQUEST_COOLDOWN <= t1 - default 0%Q (m !! uid))%Q ->
  (t1 <= t2)%Q -> (t2 < t1 + REQUEST_COOLDOWN)%Q ->
  exists r1 m1 d1 r2 wait,
    handle_message lib t1 text1 uid m d = (r1, m1, d1) /\
    handle_message lib t2 text2 uid m1 d1 = (r2, m1, d1) /\
    reply_markup r1 = Some format_keyboard /\
    r2 = {| reply_text := please_wait wait; reply_markup := None |} /\
    0 <= wait <= 10 /\
    d1 !! lit "download_url" = Some (strip isspace text1) /\
    m1 !! uid = Some t1.
Proof.
  intros Hv1 Hv2 Hc Hle Hlt.
  rewrite (admitted lib t1 text1 uid m d Hv1 Hc).
  eexists _, _, _, _, (int_of_Q (REQUEST_COOLDOWN - (t2 - t1))%Q).
  split; [reflexivity |]. split.
  - unfold handle_message, check_rate_limit.
    destruct (is_valid_url lib (strip isspace text2)) as [v msg]. cbn [fst] in Hv2. subst v.
    cbn [negb]. rewrite lookup_insert_eq. cbn [default from_option id].
    replace (Qltb (t2 - t1) REQUEST_COOLDOWN) with true; [reflexivity |].
    symmetry. apply Qltb_true. unfold REQUEST_COOLDOWN in *. lra.
  - split; [reflexivity |]. split; [reflexivity |]. split.
    + apply int_of_Q_range; unfold REQUEST_COOLDOWN in *;
        [| change (inject_Z 10) with 10%Q]; lra.
    + split; apply lookup_insert_eq.
Qed.

Lemma second_link_in_cooldown_witness :
  exists r1 m1 d1 r2 wait,
    handle_message
      {| check_bracketed_netloc := fun _ => true; nfkc_check := fun _ => true |}
      1000 (lit " https://example.org/a.zip ") 7 ∅ ∅ = (r1, m1, d1) /\
    handle_message
      {| check_bracketed_netloc := fun _ => true; nfkc_check := fun _ => true |}
      1004 (lit "https://example.org/b.zip") 7 m1 d1 = (r2, m1, d1) /\
    reply_markup r1 = Some format_keyboard /\
    r2 = {| reply_text := please_wait wait; reply_markup := None |} /\
    0 <= wait <= 10 /\
    d1 !! lit "download_url" = Some (strip isspace (lit " https://example.org/a.zip ")) /\
    m1 !! 7 = Some 1000%Q.
Proof.
  apply (second_link_in_cooldown _ 1000 1004 (lit " https://example.org/a.zip ")
           (lit "https://example.org/b.zip") 7 ∅ ∅).
  - vm_compute. reflexivity.
  - vm_compute. reflexivity.
  - vm_compute. discriminate.
  - vm_compute. discriminate.
  - vm_compute. reflexivity.
Defined.

Lemma empty_url_rejected (lib : checks) : fst (is_valid_url lib []) = false.
Proof. reflexivity. Qed.

(** A link that is accepted is stored as the text of the message without
    the white space around it, and that text is not empty: the selection
    that follows does not take the session for expired. *)
Theorem accepted_link_stored (lib : checks) (now : Q) (text : str) (uid : Z)
    (m : gmap Z Q) (d : gmap str str) (r : reply) (m' : gmap Z Q) (d' : gmap str str) :
  handle_message lib now text uid m d = (r, m', d') ->
  reply_markup r <> None ->
  d' !! key = Some (strip isspace text) /\ strip isspace text <> [] /\
  m' !! uid = Some now /\ fst (is_valid_url lib (strip isspace text)) = true.
Proof.
  unfold handle_message, check_rate_limit.
  destruct (is_valid_url lib (strip isspace text)) as [[] msg] eqn:Ev; cbn [negb].
  - destruct (Qltb _ _); cbn [negb].
    + intros [= <- <- <-] H. contradiction.
    + intros [= <- <- <-] _. split; [apply lookup_insert_eq |].
      split; [| split; [apply lookup_insert_eq | reflexivity]].
      intros E. rewrite E in Ev. assert (H := empty_url_rejected lib).
      rewrite Ev in H. discriminate.
  - intros [= <- <- <-] H. contradiction.
Qed.

Lemma accepted_link_stored_witness :
  ({[ key := lit "https://example.org/a.zip" ]} : gmap str str) !! key
    = Some (strip isspace (lit " https://example.org/a.zip ")) /\
  strip isspace (lit " https://example.org/a.zip ") <> [] /\
  ({[ 7 := 1000%Q ]} : gmap Z Q) !! 7 = Some 1000%Q /\
  fst (is_valid_url
         {| check_bracketed_netloc := fun _ => true; nfkc_check := fun _ => true |}
         (strip isspace (lit " https://example.org/a.zip "))) = true.
Proof.
  apply (accepted_link_stored
           {| check_bracketed_netloc := fun _ => true; nfkc_check := fun _ => true |}
           1000 (lit " https://example.org/a.zip ") 7 ∅ ∅
           {| reply_text := lit "How would you like to receive this file?";
              reply_markup := Some format_keyboard |}).
  - vm_compute. reflexivity.
  - discriminate.
Defined.

(** *** The data of the query *)

(** Reading the format raises exactly when the data hold no underscore; for
    data that begin with format and an underscore, as the pattern of the
    registration requires, the format is what follows, up to the next
    underscore if there is one. *)
Theorem format_type_defined (data : str) :
  (format_type_of data = None <-> (ch "_") ∉ data) /\
  forall rest, data = lit "format_" ++ rest ->
    exists t, format_type_of data = Some t /\ ((ch "_") ∉ t) /\
              (rest = t \/ exists more, rest = t ++ ch "_" :: more).
Proof.
  assert (Hhd : forall u, exists t,
            List.hd_error (split (ch "_") u) = Some t /\ ((ch "_") ∉ t) /\
            (u = t \/ exists more, u = t ++ ch "_" :: more)).
  { intros u. destruct (decide ((ch "_") ∈ u)) as [Hin | Hnin].
    - apply list_elem_of_split_l in Hin. destruct Hin as (a & b & -> & Ha).
      exists a. rewrite split_app, (split_no_sep _ a Ha).
      split; [reflexivity |]. split; [exact Ha |]. right. exists b. reflexivity.
    - exists u. rewrite (split_no_sep _ u Hnin).
      split; [reflexivity |]. split; [exact Hnin |]. left. reflexivity. }
  assert (Hsnd : forall a b, (ch "_") ∉ a ->
            format_type_of (a ++ ch "_" :: b) = List.hd_error (split (ch "_") b)).
  { intros a b Ha. unfold format_type_of. rewrite split_app, (split_no_sep _ a Ha).
    cbn. destruct (split (ch "_") b); reflexivity. }
  split.
  - split.
    + intros Hn Hin. apply list_elem_of_split_l in Hin. destruct Hin as (a & b & -> & Ha).
      rewrite (Hsnd a b Ha) in Hn. destruct (Hhd b) as (t & Ht & _). congruence.
    + intros Hnin. unfold format_type_of. rewrite (split_no_sep _ _ Hnin). reflexivity.
  - intros rest ->. destruct (Hhd rest) as (t & Ht & Hno & Hsh).
    exists t. split; [| split; assumption].
    change (lit "format_" ++ rest) with (lit "format" ++ ch "_" :: rest).
    rewrite Hsnd; [exact Ht |]. apply (bool_decide_unpack _). vm_compute. exact I.
Qed.

Lemma format_type_defined_witness :
  exists t, format_type_of (lit "format_video") = Some t /\ ((ch "_") ∉ t) /\
            (lit "video" = t \/ exists more, lit "video" = t ++ ch "_" :: more).
Proof.
  apply (proj2 (format_type_defined (lit "format_video")) (lit "video")). reflexivity.
Defined.

(** *** The last progress edit *)

Lemma run_callbacks_app (key : str) (a b : list progress_event) (m : gmap str Q) :
  run_callbacks key (a ++ b) m =
    (fst (run_callbacks key a m) ++ fst (run_callbacks key b (snd (run_callbacks key a m))),
     snd (run_callbacks key b (snd (run_callbacks key a m)))).
Proof.
  revert m. induction a as [| ev a IH]; intros m.
  - cbn. destruct (run_callbacks key b m). reflexivity.
  - cbn [app run_callbacks].
    destruct (progress_callback key (at_time ev) (loop_running ev) (percent ev) m)
      as [out m1].
    rewrite IH. destruct (run_callbacks key a m1) as [outs m2]. cbn [fst snd].
    destruct out; reflexivity.
Qed.

(** A call with a percentage of 100 or more, made while the loop runs, is
    never suppressed: whatever calls came before and whenever it is made,
    its edit is the last one scheduled. *)
Theorem completion_forwarded (key : str) (events : list progress_event)
    (ev : progress_event) (m : gmap str Q) :
  100 <= percent ev -> loop_running ev = true ->
  last (fst (run_callbacks key (events ++ [ev]) m)) = Some (at_time ev, percent ev).
Proof.
  intros Hp Hl. rewrite run_callbacks_app. cbn [fst].
  set (m1 := snd (run_callbacks key events m)).
  assert (H : fst (run_callbacks key [ev] m1) = [(at_time ev, percent ev)]).
  { cbn [run_callbacks]. unfold progress_callback.
    replace (percent ev <? 100) with false by (symmetry; apply Z.ltb_ge; lia).
    rewrite andb_false_r, Hl. reflexivity. }
  rewrite H. apply last_snoc.
Qed.

Lemma completion_forwarded_witness :
  last (fst (run_callbacks Scenario.job
               ([ {| at_time := 1000; loop_running := true; percent := 99 |} ]
                ++ [ {| at_time := 1000; loop_running := true; percent := 100 |} ]) ∅))
  = Some (1000%Q, 100).
Proof.
  apply (completion_forwarded Scenario.job
           [ {| at_time := 1000; loop_running := true; percent := 99 |} ]
           {| at_time := 1000; loop_running := true; percent := 100 |} ∅).
  - cbn. lia.
  - reflexivity.
Defined.

End HandlersFacts.

(** ** The progress bar *)

Module BarFacts.

Import Spec Downloader FloatFacts Handlers.

(** The quotient of two positive integers lies between the same multiples
    of [2 ^ (- g)] as the exact quotient, when the grid is no finer than the
    double nearest to it. *)
Lemma truediv_grid (a b L N g : Z) :
  0 < a -> 0 < b -> 0 <= g <= 53 -> Zdigits2 a - Zdigits2 b <= 53 - g ->
  0 < N < 2 ^ 53 -> L * b <= a * 2 ^ g <= N * b ->
  exists q, truediv a b = Some q /\ sf_between L N (- g) q.
Proof.
  intros Ha Hb Hg Hdig HN [Hlo Hhi].
  destruct a as [| a | a]; try lia. destruct b as [| b | b]; try lia.
  unfold truediv. cbn [Z.eqb float_of_int SFdiv xorb].
  rewrite div_core_spec.
  set (e' := Z.min (fexp prec emax (Zdigits2 (Zpos a) - Zdigits2 (Zpos b))) 0).
  assert (He : e' <= - g) by (unfold e'; rewrite fexp64; lia).
  assert (Hp : 0 < 2 ^ (- g - e')) by (apply Z.pow_pos_nonneg; lia).
  assert (Hg2 : 0 < 2 ^ g) by (apply Z.pow_pos_nonneg; lia).
  assert (Hs : 2 ^ (- e') = 2 ^ g * 2 ^ (- g - e')).
  { rewrite <- Z.pow_add_r by lia. f_equal. lia. }
  assert (Hq : 0 <= Zpos a * 2 ^ (- e') / Zpos b) by (apply Z.div_pos; lia).
  assert (H := binary_round_aux_bounds (Zpos a * 2 ^ (- e') / Zpos b) e'
                 (new_location (Zpos b) ((Zpos a * 2 ^ (- e')) mod Zpos b)) L N (- g)
                 Hq HN ltac:(lia) ltac:(lia)).
  assert (Hlow : L * 2 ^ (- g - e') <= Zpos a * 2 ^ (- e') / Zpos b).
  { apply Z.div_le_lower_bound; [lia |]. rewrite Hs. nia. }
  assert (Hb' : Zpos a * 2 ^ (- e') / Zpos b < N * 2 ^ (- g - e') \/
               Zpos a * 2 ^ (- e') / Zpos b = N * 2 ^ (- g - e') /\
               new_location (Zpos b) ((Zpos a * 2 ^ (- e')) mod Zpos b) = loc_Exact).
  { destruct (Z.eq_dec (Zpos a * 2 ^ g) (N * Zpos b)) as [Heq | Hne].
    - right.
      replace (Zpos a * 2 ^ (- e')) with ((N * 2 ^ (- g - e')) * Zpos b) by (rewrite Hs; nia).
      rewrite Z_div_mult, Z_mod_mult by lia.
      split; [reflexivity | apply new_location_zero].
    - left. apply Z.div_lt_upper_bound; [lia |]. rewrite Hs. nia. }
  specialize (H Hlow Hb').
  destruct (binary_round_aux prec emax false _ e' _) as [s | s | | s m e] eqn:Hr;
    try contradiction; eexists; (split; [reflexivity | exact H]).
Qed.

(** On a float that is not negative, [int] is [math.floor]. *)
Lemma int_of_float_floor (q : spec_float) (L N E : Z) :
  sf_between L N E q -> int_of_float q = floor q.
Proof.
  destruct q as [s | s | | s m e]; cbn [sf_between]; try contradiction; [reflexivity |].
  intros (-> & _). cbn [int_of_float floor]. destruct e; reflexivity.
Qed.

Lemma Zdigits2_le (m k : Z) : 0 < m < 2 ^ k -> 0 <= k -> Zdigits2 m <= k.
Proof.
  intros Hm Hk. assert (H := Zdigits2_lower m ltac:(lia)).
  assert (Hn := Zdigits2_nonneg m).
  destruct (Z_le_gt_dec (Zdigits2 m) k) as [| Hgt]; [assumption |].
  assert (2 ^ k <= 2 ^ (Zdigits2 m - 1)) by (apply Z.pow_le_mono_r; lia). lia.
Qed.

(** The number of filled cells is the fifth of the percentage, rounded
    down. *)
Lemma filled_of_fifth (percent : Z) :
  0 <= percent < 2 ^ 50 -> filled_of percent = Some (percent / 5).
Proof.
  intros [H0 H1]. unfold filled_of, bar_length.
  destruct (Z.eq_dec percent 0) as [-> | Hne]; [reflexivity |].
  set (k := percent / 5).
  assert (Hk : 5 * k <= percent < 5 * (k + 1)).
  { unfold k. split; [apply Z.mul_div_le; lia |].
    assert (Hx := Z.mod_pos_bound percent 5 ltac:(lia)).
    rewrite (Z.div_mod percent 5) at 1 by lia. lia. }
  assert (Hk0 : 0 <= k) by (unfold k; apply Z.div_pos; lia).
  assert (H50 : 2 ^ 50 = 1125899906842624) by reflexivity.
  assert (H53 : 2 ^ 53 = 9007199254740992) by reflexivity.
  assert (H57 : 2 ^ 57 = 144115188075855872) by reflexivity.
  set (L := 8 * percent / 5).
  assert (HL : 5 * L <= 8 * percent < 5 * (L + 1)).
  { unfold L. split; [apply Z.mul_div_le; lia |].
    assert (Hx := Z.mod_pos_bound (8 * percent) 5 ltac:(lia)).
    rewrite (Z.div_mod (8 * percent) 5) at 1 by lia. lia. }
  destruct (truediv_grid (20 * percent) 100 L
              (if Z.eq_dec (5 * L) (8 * percent) then L else L + 1) 3)
    as (q & Hq & Hb).
  - lia.
  - lia.
  - lia.
  - change (Zdigits2 100) with 7.
    assert (Zdigits2 (20 * percent) <= 57) by (apply Zdigits2_le; lia). lia.
  - destruct (Z.eq_dec _ _); lia.
  - change (2 ^ 3) with 8. destruct (Z.eq_dec _ _); lia.
  - rewrite Hq. rewrite (int_of_float_floor _ _ _ _ Hb).
    destruct (floor_bounds _ _ _ _ Hb) as (p & Hp & Hr).
    + lia.
    + destruct (Z.eq_dec _ _); lia.
    + lia.
    + rewrite Hp. f_equal. change (2 ^ (Z.opp (Z.opp 3))) with 8 in Hr.
      assert (H8 : k <= L / 8).
      { apply Z.div_le_lower_bound; lia. }
      assert (H9 : (if Z.eq_dec (5 * L) (8 * percent) then L else L + 1) / 8 <= k).
      { apply Z.lt_succ_r. apply Z.div_lt_upper_bound; [lia |].
        destruct (Z.eq_dec _ _); lia. }
      lia.
Qed.

(** For a percentage from 0 to 100 the bar has 20 cells, one filled for
    every five percent reached; a percentage above 100 gives a bar of more
    than 20 cells, all filled. *)
Theorem bar_cells (percent : Z) :
  0 <= percent < 2 ^ 50 ->
  exists bar,
    bar_of percent = Some bar /\
    (percent <= 100 ->
     bar = repeat full_block (Z.to_nat (percent / 5))
           ++ repeat light_shade (Z.to_nat (20 - percent / 5)) /\
     length bar = 20%nat) /\
    (100 < percent ->
     bar = repeat full_block (Z.to_nat (percent / 5)) /\ (20 <= length bar)%nat /\
     (105 <= percent -> (20 < length bar)%nat)).
Proof.
  intros H. unfold bar_of. rewrite (filled_of_fifth percent H). unfold bar_length.
  eexists. split; [reflexivity |].
  assert (Hk : 5 * (percent / 5) <= percent < 5 * (percent / 5 + 1)).
  { split; [apply Z.mul_div_le; lia |].
    assert (Hx := Z.mod_pos_bound percent 5 ltac:(lia)).
    rewrite (Z.div_mod percent 5) at 1 by lia. lia. }
  split.
  - intros Hle. split; [reflexivity |].
    rewrite length_app, !repeat_length. lia.
  - intros Hgt.
    replace (Z.to_nat (20 - percent / 5)) with 0%nat by lia.
    cbn [repeat]. rewrite app_nil_r. split; [reflexivity |].
    rewrite repeat_length. split; lia.
Qed.

Lemma bar_cells_witness :
  exists bar,
    bar_of 45 = Some bar /\
    (45 <= 100 ->
     bar = repeat full_block (Z.to_nat (45 / 5))
           ++ repeat light_shade (Z.to_nat (20 - 45 / 5)) /\
     length bar = 20%nat) /\
    (100 < 45 ->
     bar = repeat full_block (Z.to_nat (45 / 5)) /\ (20 <= length bar)%nat /\
     (105 <= 45 -> (20 < length bar)%nat)).
Proof. apply (bar_cells 45). split; [lia | reflexivity]. Defined.

End BarFacts.

(** ** bot/handlers.py: the format selection *)

Module SelectionFacts.

Import Spec Downloader Validators Handlers UrlParse.
Import NameFacts TransferFacts DownloaderSpec StorageFacts HandlersFacts.

Lemma and_then_inv {A B} (m : H A) (k : A -> H B) (s s' : session) (out : error + B) :
  and_then m k s = (s', out) ->
  (exists e, m s = (s', inl e) /\ out = inl e) \/
  (exists a s1, m s = (s1, inr a) /\ k a s1 = (s', out)).
Proof.
  unfold and_then. destruct (m s) as [s1 [e | a]].
  - intros [= <- <-]. left. exists e. split; reflexivity.
  - intros H. right. exists a, s1. split; [reflexivity | exact H].
Qed.

Lemma only_calls_refl (s : session) : only_calls [] s s.
Proof. unfold only_calls. rewrite app_nil_r. repeat split. Qed.

Lemma only_calls_trans (a b : list call) (s1 s2 s3 : session) :
  only_calls a s1 s2 -> only_calls b s2 s3 -> only_calls (a ++ b) s1 s3.
Proof.
  unfold only_calls. intros (A1 & A2 & A3 & A4 & A5 & A6) (B1 & B2 & B3 & B4 & B5 & B6).
  repeat split; try congruence. rewrite B6, A6, app_assoc. reflexivity.
Qed.

Lemma await_calls (env : environment) (c : call) (s s' : session) (out : error + message) :
  await env c s = (s', out) ->
  only_calls [c] s s' /\
  out = match telegram env c with Raises e => inl e | Returns m => inr m end.
Proof.
  unfold await. destruct (telegram env c); intros [= <- <-];
    (split; [repeat split | reflexivity]).
Qed.

Lemma read_file_inv (path : str) (s s' : session) (out : error + list byte) :
  read_file path s = (s', out) ->
  s' = s /\
  match out with
  | inr content => files (disk s) !! path = Some content
  | inl _ => files (disk s) !! path = None
  end.
Proof.
  unfold read_file. destruct (files (disk s) !! path); intros [= <- <-];
    split; reflexivity.
Qed.

Lemma on_error_calls (env : environment) (e : error) (s s' : session) (out : error + unit) :
  on_error env e s = (s', out) ->
  only_calls [ReplyText (error_text e)] s s' /\
  out = match telegram env (ReplyText (error_text e)) with
        | Raises e' => inl e'
        | Returns _ => inr tt
        end.
Proof.
  unfold on_error. intros H. apply and_then_inv in H.
  destruct H as [(e' & H & ->) | (m & s1 & H & Hk)]; apply await_calls in H;
    destruct H as [Hc Ho].
  - split; [exact Hc |]. destruct (telegram env _); [congruence | discriminate].
  - unfold unit_ in Hk. injection Hk as <- <-. split; [exact Hc |].
    destruct (telegram env _); [discriminate | reflexivity].
Qed.

(** The calls of [deliver]: it changes nothing else, and uploads only the
    file at [path], once checked against the size limit, with the method
    chosen. *)
Lemma deliver_calls (env : environment) (format_type : str) (chat_id status_id : Z)
    (path : str) (s s' : session) (out : error + unit) :
  deliver env format_type chat_id status_id path s = (s', out) ->
  exists cs, only_calls cs s s' /\ Forall (upload_of env format_type path s) cs.
Proof.
  unfold deliver. intros H. apply and_then_inv in H.
  destruct H as [(e & H & ->) | (content & s1 & H & Hk)]; apply read_file_inv in H;
    destruct H as [-> Hfile].
  { exists []. split; [apply only_calls_refl | constructor]. }
  destruct (Z.of_nat (length content) >? MAX_FILE_SIZE) eqn:Esize.
  { destruct (too_large _) as [text |].
    - apply and_then_inv in Hk.
      destruct Hk as [(e & Hk & ->) | (m & s1 & Hk & Hu)]; apply await_calls in Hk;
        destruct Hk as [Hc _].
      + eexists. split; [exact Hc | repeat constructor].
      + unfold unit_ in Hu. injection Hu as <- <-.
        eexists. split; [exact Hc | repeat constructor].
    - unfold throw in Hk. injection Hk as <- <-.
      exists []. split; [apply only_calls_refl | constructor]. }
  assert (Hle : Z.of_nat (length content) <= MAX_FILE_SIZE).
  { destruct (Z.gtb_spec (Z.of_nat (length content)) MAX_FILE_SIZE); [discriminate | lia]. }
  apply and_then_inv in Hk.
  destruct Hk as [(e & Hk & ->) | (m1 & s1 & Hk & Hk2)]; apply await_calls in Hk;
    destruct Hk as [Hc1 _].
  { eexists. split; [exact Hc1 | repeat constructor]. }
  assert (Hd1 : disk s1 = disk s) by apply Hc1.
  apply and_then_inv in Hk2.
  destruct Hk2 as [(e & Hk & ->) | (content2 & s2 & Hk & Hk3)]; apply read_file_inv in Hk;
    destruct Hk as [-> Hfile2].
  { eexists. split; [exact Hc1 | repeat constructor]. }
  rewrite Hd1, Hfile in Hfile2. injection Hfile2 as <-.
  set (send := if is_video format_type then SendVideo (DUMP_CHANNEL_ID env) content
               else SendDocument (DUMP_CHANNEL_ID env) content) in *.
  assert (Hsend : upload_of env format_type path s send).
  { unfold send. destruct (is_video format_type) eqn:Ev; cbn [upload_of]; rewrite ?Ev;
      repeat split; assumption. }
  apply and_then_inv in Hk3.
  destruct Hk3 as [(e & Hk & ->) | (sent & s3 & Hk & Hk4)]; apply await_calls in Hk;
    destruct Hk as [Hc2 _].
  { eexists. split; [apply (only_calls_trans _ _ _ _ _ Hc1 Hc2) |].
    repeat constructor. exact Hsend. }
  assert (Hc12 := only_calls_trans _ _ _ _ _ Hc1 Hc2).
  destruct (if is_video format_type then video sent else document sent) as [file_id |].
  2:{ unfold throw in Hk4. injection Hk4 as <- <-.
      eexists. split; [exact Hc12 |]. repeat constructor. exact Hsend. }
  apply and_then_inv in Hk4.
  destruct Hk4 as [(e & Hk & ->) | (m4 & s4 & Hk & Hk5)]; apply await_calls in Hk;
    destruct Hk as [Hc3 _].
  { eexists. split; [apply (only_calls_trans _ _ _ _ _ Hc12 Hc3) |].
    repeat constructor; [exact Hsend |]. destruct (is_video format_type); exact I. }
  assert (Hc123 := only_calls_trans _ _ _ _ _ Hc12 Hc3).
  apply and_then_inv in Hk5.
  destruct Hk5 as [(e & Hk & ->) | (m5 & s5 & Hk & Hk6)]; apply await_calls in Hk;
    destruct Hk as [Hc4 _].
  { eexists. split; [apply (only_calls_trans _ _ _ _ _ Hc123 Hc4) |].
    repeat constructor; [exact Hsend |]. destruct (is_video format_type); exact I. }
  unfold unit_ in Hk6. injection Hk6 as <- <-.
  eexists. split; [apply (only_calls_trans _ _ _ _ _ Hc123 Hc4) |].
  repeat constructor; [exact Hsend |]. destruct (is_video format_type); exact I.
Qed.

(** What the download stage leaves. *)
Lemma run_download_inv (env : environment) (url msg_key : str) (s s' : session)
    (out : error + str) :
  run_download env url msg_key s = (s', out) ->
  exists w res,
    download_file url true (tempdir env) (internet env) (disk s) = (w, res) /\
    user_data s' = user_data s /\ disk s' = fs w /\ awaited s' = awaited s /\
    scheduled s' =
      scheduled s ++
      List.map snd (fst (run_callbacks msg_key (callback_events env (reported w))
                           (last_update_time s))) /\
    match res with
    | inr path => out = inr path /\ local_path s' = Some path
    | inl err =>
        out = inl (error_of_download (exception_text env) err) /\
        local_path s' = local_path s
    end.
Proof.
  unfold run_download.
  destruct (download_file url true (tempdir env) (internet env) (disk s)) as [w res].
  destruct (run_callbacks _ _ _) as [edits times] eqn:Er.
  destruct res as [err | path]; intros [= <- <-]; exists w; eexists;
    (split; [reflexivity |]); cbn [user_data disk awaited scheduled local_path];
    rewrite Er; repeat split.
Qed.

(** A run that reaches the download is the [try] statement, run on the
    session as the two calls before it leave it. *)
Lemma selection_reaches (env : environment) (data : str) (chat_id : Z) (s : session)
    (format_type url : str) (status_msg : message) :
  reaches_download env data s format_type url status_msg ->
  handle_format_selection env data chat_id s =
    try_except_finally
      (let& path := run_download env url (msg_key_of chat_id (message_id status_msg)) in
       deliver env format_type chat_id (message_id status_msg) path)
      (on_error env) (at_try s).
Proof.
  intros ([m Ha] & Hf & Hu & Hne & Hs).
  unfold handle_format_selection. unfold and_then at 1. unfold await at 1.
  rewrite Ha, Hf. cbn [user_data]. rewrite Hu.
  destruct url as [| c url]; [contradiction |].
  unfold and_then at 1. unfold await at 1. fold starting. rewrite Hs.
  cbn [user_data disk last_update_time local_path awaited scheduled].
  unfold at_try. rewrite <- app_assoc. reflexivity.
Qed.

Lemma try_inv (body : H unit) (handler : error -> H unit) (s0 s' : session)
    (out : error + unit) :
  try_except_finally body handler s0 = (s', out) ->
  exists s1,
    s' = finally s1 /\
    ((body s0 = (s1, inr tt) /\ out = inr tt) \/
     exists e s_mid, body s0 = (s_mid, inl e) /\ handler e s_mid = (s1, out)).
Proof.
  unfold try_except_finally. destruct (body s0) as [s1 [e | []]].
  - destruct (handler e s1) as [s2 r] eqn:Eh. intros [= <- <-].
    exists s2. split; [reflexivity |]. right. exists e, s1. split; [reflexivity | exact Eh].
  - intros [= <- <-]. exists s1. split; [reflexivity |]. left. split; reflexivity.
Qed.

(** The session as the [finally] clause finds it, in terms of what
    [download_file] did. *)
Lemma before_finally (env : environment) (format_type url msg_key : str)
    (chat_id status_id : Z) (s0 s' : session) (out : error + unit) :
  try_except_finally
    (let& path := run_download env url msg_key in
     deliver env format_type chat_id status_id path)
    (on_error env) s0 = (s', out) ->
  exists s1 w res cs,
    s' = finally s1 /\
    download_file url true (tempdir env) (internet env) (disk s0) = (w, res) /\
    user_data s1 = user_data s0 /\ disk s1 = fs w /\
    awaited s1 = awaited s0 ++ cs /\
    scheduled s1 =
      scheduled s0 ++
      List.map snd (fst (run_callbacks msg_key (callback_events env (reported w))
                           (last_update_time s0))) /\
    match res with
    | inr path =>
        local_path s1 = Some path /\
        Forall (upload_of env format_type path
                  {| user_data := user_data s0; disk := fs w;
                     last_update_time := last_update_time s1;
                     local_path := Some path; awaited := awaited s0;
                     scheduled := scheduled s1 |}) cs
    | inl err =>
        local_path s1 = local_path s0 /\
        cs = [ReplyText (error_text (error_of_download (exception_text env) err))] /\
        out = match telegram env (ReplyText (error_text
                                   (error_of_download (exception_text env) err))) with
              | Raises e' => inl e'
              | Returns _ => inr tt
              end
    end.
Proof.
  intros Hrun. apply try_inv in Hrun.
  destruct Hrun as (s1 & -> & [[Hb ->] | (e & s_mid & Hb & Hh)]).
  - apply and_then_inv in Hb.
    destruct Hb as [(e & _ & He) | (path & s2 & Hd & Hdel)]; [discriminate |].
    apply run_download_inv in Hd.
    destruct Hd as (w & res & Hdl & Hu & Hdisk & Haw & Hsch & Hres).
    destruct res as [err | p]; destruct Hres as [Hout Hlp]; [discriminate |].
    injection Hout as <-.
    apply deliver_calls in Hdel. destruct Hdel as (cs & Hc & Hup).
    destruct Hc as (C1 & C2 & C3 & C4 & C5 & C6).
    exists s1, w, (inr path), cs. split; [reflexivity |]. split; [exact Hdl |].
    split; [congruence |]. split; [congruence |]. split; [congruence |].
    split; [congruence |]. split; [congruence |].
    eapply Forall_impl; [exact Hup |]. intros c.
    destruct c; cbn [upload_of disk]; rewrite ?Hdisk; tauto.
  - apply and_then_inv in Hb.
    destruct Hb as [(e0 & Hd & He) | (path & s2 & Hd & Hdel)].
    + injection He as <-. apply run_download_inv in Hd.
      destruct Hd as (w & res & Hdl & Hu & Hdisk & Haw & Hsch & Hres).
      destruct res as [err | p]; destruct Hres as [Hout Hlp]; [| discriminate].
      injection Hout as ->.
      apply on_error_calls in Hh. destruct Hh as [(C1 & C2 & C3 & C4 & C5 & C6) Ho].
      exists s1, w, (inl err),
        [ReplyText (error_text (error_of_download (exception_text env) err))].
      split; [reflexivity |]. split; [exact Hdl |].
      split; [congruence |]. split; [congruence |]. split; [rewrite C6, Haw; reflexivity |].
      split; [congruence |].
      split; [congruence |]. split; [reflexivity | exact Ho].
    + apply run_download_inv in Hd.
      destruct Hd as (w & res & Hdl & Hu & Hdisk & Haw & Hsch & Hres).
      destruct res as [err | p]; destruct Hres as [Hout Hlp]; [discriminate |].
      injection Hout as <-.
      apply deliver_calls in Hdel. destruct Hdel as (cs & Hc & Hup).
      destruct Hc as (C1 & C2 & C3 & C4 & C5 & C6).
      apply on_error_calls in Hh. destruct Hh as [(D1 & D2 & D3 & D4 & D5 & D6) _].
      exists s1, w, (inr path), (cs ++ [ReplyText (error_text e)]).
      split; [reflexivity |]. split; [exact Hdl |].
      split; [congruence |]. split; [congruence |].
      split; [rewrite D6, C6, Haw, app_assoc; reflexivity |].
      split; [congruence |]. split; [congruence |].
      apply Forall_app. split; [| repeat constructor].
      eapply Forall_impl; [exact Hup |]. intros c.
      destruct c; cbn [upload_of disk]; rewrite ?Hdisk; tauto.
Qed.

Lemma finally_file (s : session) (path : str) :
  local_path s = Some path -> path <> [] -> path ∉ undeletable (disk s) ->
  files (disk (finally s)) !! path = None.
Proof.
  intros Hl Hne Hok. unfold finally. cbn [disk]. rewrite Hl.
  destruct path as [| c t]; [contradiction |]. cbn [is_empty negb andb].
  unfold path_exists, os_remove. rewrite (bool_decide_eq_false_2 _ Hok).
  destruct (bool_decide _) eqn:E.
  - cbn. apply lookup_delete_eq.
  - apply bool_decide_eq_false in E. apply eq_None_not_Some. exact E.
Qed.

Lemma finally_elsewhere (s : session) (p : str) :
  local_path s <> Some p ->
  files (disk (finally s)) !! p = files (disk s) !! p.
Proof.
  intros Hl. unfold finally. cbn [disk].
  destruct (local_path s) as [path |]; [| reflexivity].
  destruct (_ && _); [| reflexivity].
  unfold os_remove. destruct (bool_decide _); [reflexivity |].
  cbn. apply lookup_delete_ne. congruence.
Qed.

Lemma local_path_nonempty (url temp_dir : str) (net : network) (path : str) :
  local_path_of url temp_dir net = Some path -> path <> [].
Proof.
  unfold local_path_of.
  destruct (probe url (requests_head net)) as [x | [filename T]] eqn:Hp; [discriminate |].
  intros [= <-].
  assert (Hf : filename <> []).
  { apply probe_filename in Hp. subst filename.
    destruct (requests_head net) as [e | hs]; [apply sanitize_nonempty |].
    destruct (extract_filename_from_headers hs) as [f |] eqn:E;
      [| apply sanitize_nonempty].
    destruct f as [| c f]; cbn [is_empty]; [apply sanitize_nonempty | discriminate]. }
  unfold OsPath.join. destruct filename as [| c f]; [contradiction |].
  destruct (startswith _ _); [discriminate |].
  destruct (_ || _); intros H; apply app_eq_nil in H; destruct H as [_ H];
    [discriminate | apply app_eq_nil in H; destruct H; discriminate].
Qed.

(** Once the download is reached no file is left at the local path when
    the run ends, provided [download_file] returned or raised one of its
    five classified errors, and [os.remove] does not fail on the path in
    the [finally] clause; and every other file is as it was. *)
Theorem temp_file_removed (env : environment) (data : str) (chat_id : Z)
    (s s' : session) (format_type url : str) (status_msg : message)
    (out : error + unit) (path : str) :
  reaches_download env data s format_type url status_msg ->
  handle_format_selection env data chat_id s = (s', out) ->
  local_path_of url (tempdir env) (internet env) = Some path ->
  (forall e, snd (download_file url true (tempdir env) (internet env) (disk s))
             <> inl (Unhandled e)) ->
  path ∉ undeletable (disk s) ->
  files (disk s') !! path = None /\
  forall p, p <> path -> files (disk s') !! p = files (disk s) !! p.
Proof.
  intros Hr Hrun Hp Hcl Hok. rewrite (selection_reaches _ _ _ _ _ _ _ Hr) in Hrun.
  apply before_finally in Hrun.
  destruct Hrun as (s1 & w & res & cs & -> & Hdl & _ & Hdisk & _ & _ & Hres).
  cbn [at_try disk local_path] in *. rewrite Hdl in Hcl. cbn [snd] in Hcl.
  destruct (download_effects _ _ _ _ _ _ _ Hdl) as [Helse Hat].
  destruct res as [err | p0].
  - destruct Hres as (Hl & _). split.
    + rewrite finally_elsewhere by (rewrite Hl; discriminate).
      rewrite Hdisk. apply Hat; [| exact Hp].
      destruct err; try reflexivity. exfalso. apply (Hcl e). reflexivity.
    + intros p Hne. rewrite finally_elsewhere by (rewrite Hl; discriminate).
      rewrite Hdisk. apply Helse. congruence.
  - destruct Hres as (Hl & _). destruct Hat as [Hp0 _].
    rewrite Hp in Hp0. injection Hp0 as <-. split.
    + apply finally_file; [exact Hl | apply (local_path_nonempty _ _ _ _ Hp) |].
      rewrite Hdisk. assert (Hst := download_static url true (tempdir env) (internet env)
                                      (disk s)).
      rewrite Hdl in Hst. cbn [fst] in Hst. rewrite Hst. exact Hok.
    + intros p Hne. rewrite finally_elsewhere by (rewrite Hl; congruence).
      rewrite Hdisk. apply Helse. congruence.
Qed.

Lemma temp_file_removed_witness :
  files (disk (fst (handle_format_selection (Scenario.bot Scenario.net_29_71)
                      (lit "format_video") 42 (Scenario.waiting 10))))
    !! Scenario.path = None /\
  forall p, p <> Scenario.path ->
    files (disk (fst (handle_format_selection (Scenario.bot Scenario.net_29_71)
                        (lit "format_video") 42 (Scenario.waiting 10)))) !! p
    = files (disk (Scenario.waiting 10)) !! p.
Proof.
  apply (temp_file_removed (Scenario.bot Scenario.net_29_71) (lit "format_video") 42
           (Scenario.waiting 10) _ (lit "video") Scenario.url Scenario.status
           (snd (handle_format_selection (Scenario.bot Scenario.net_29_71)
                   (lit "format_video") 42 (Scenario.waiting 10)))).
  - split; [eexists; reflexivity |]. split; [reflexivity |].
    split; [reflexivity |]. split; [discriminate | reflexivity].
  - apply surjective_pairing.
  - vm_compute. reflexivity.
  - intros e. vm_compute. discriminate.
  - apply not_elem_of_empty.
Defined.

Lemma is_video_true (format_type : str) :
  is_video format_type = true <-> format_type = lit "video".
Proof. unfold is_video, str_eqb. apply bool_decide_eq_true. Qed.

(** The calls of a whole run: the two that open it, and those of the [try]
    statement, among which an upload is one of the file downloaded from the
    stored link. *)
Lemma selection_calls (env : environment) (data : str) (chat_id : Z) (s s' : session)
    (out : error + unit) :
  handle_format_selection env data chat_id s = (s', out) ->
  exists cs,
    awaited s' = awaited s ++ cs /\
    forall c, c ∈ cs -> is_upload c = true ->
      exists format_type url w path,
        format_type_of data = Some format_type /\
        user_data s !! key = Some url /\
        download_file url true (tempdir env) (internet env) (disk s) = (w, inr path) /\
        upload_of env format_type path
          {| user_data := user_data s; disk := fs w; last_update_time := ∅;
             local_path := None; awaited := []; scheduled := [] |} c.
Proof.
  intros Hrun.
  assert (Hsmall : forall cs, awaited s' = awaited s ++ cs ->
            Forall (fun c => is_upload c = false) cs ->
            exists cs, awaited s' = awaited s ++ cs /\
              forall c, c ∈ cs -> is_upload c = true ->
                exists format_type url w path,
                  format_type_of data = Some format_type /\
                  user_data s !! key = Some url /\
                  download_file url true (tempdir env) (internet env) (disk s)
                    = (w, inr path) /\
                  upload_of env format_type path
                    {| user_data := user_data s; disk := fs w; last_update_time := ∅;
                       local_path := None; awaited := []; scheduled := [] |} c).
  { intros cs Ha Hno. exists cs. split; [exact Ha |]. intros c Hc Hu.
    rewrite Forall_forall in Hno. rewrite (Hno c Hc) in Hu. discriminate. }
  destruct (telegram env Answer) as [e | m] eqn:Ha.
  { unfold handle_format_selection, and_then, await in Hrun. rewrite Ha in Hrun.
    injection Hrun as <- _. apply (Hsmall [Answer]); [reflexivity | repeat constructor]. }
  destruct (format_type_of data) as [format_type |] eqn:Hf.
  2:{ unfold handle_format_selection, and_then, await, throw in Hrun.
      rewrite Ha, Hf in Hrun. injection Hrun as <- _.
      apply (Hsmall [Answer]); [reflexivity | repeat constructor]. }
  destruct (user_data s !! key) as [[| c url] |] eqn:Hu.
  1,3: unfold handle_format_selection in Hrun; unfold and_then at 1 in Hrun;
       unfold await at 1 in Hrun; rewrite Ha, Hf in Hrun; cbn [user_data] in Hrun;
       rewrite Hu in Hrun; unfold and_then, await, unit_ in Hrun;
       cbn [awaited] in Hrun;
       assert (Haw : awaited s' = awaited s ++ [Answer; expired])
         by (destruct (telegram env _); injection Hrun as <- _;
             cbn [awaited]; rewrite <- app_assoc; reflexivity);
       apply (Hsmall _ Haw); repeat constructor.
  destruct (telegram env starting) as [e | status_msg] eqn:Hs.
  { unfold handle_format_selection in Hrun. unfold and_then at 1 in Hrun.
    unfold await at 1 in Hrun. rewrite Ha, Hf in Hrun. cbn [user_data] in Hrun.
    rewrite Hu in Hrun. unfold and_then at 1 in Hrun. unfold await at 1 in Hrun.
    fold starting in Hrun. rewrite Hs in Hrun. injection Hrun as <- _.
    apply (Hsmall [Answer; starting]);
      [cbn [awaited]; rewrite <- app_assoc; reflexivity | repeat constructor]. }
  assert (Hr : reaches_download env data s format_type (c :: url) status_msg).
  { split; [exists m; exact Ha |]. split; [exact Hf |]. split; [exact Hu |].
    split; [discriminate | exact Hs]. }
  rewrite (selection_reaches _ _ _ _ _ _ _ Hr) in Hrun.
  apply before_finally in Hrun.
  destruct Hrun as (s1 & w & res & cs & -> & Hdl & _ & _ & Haw & _ & Hres).
  cbn [at_try disk awaited] in *.
  exists ([Answer; starting] ++ cs). split.
  { unfold finally. cbn [awaited]. rewrite Haw, <- app_assoc. reflexivity. }
  intros x Hx Hup. apply elem_of_app in Hx. destruct Hx as [Hx | Hx].
  { exfalso. apply elem_of_cons in Hx. destruct Hx as [-> | Hx]; [discriminate |].
    apply list_elem_of_singleton in Hx. subst x. discriminate. }
  destruct res as [err | path].
  - destruct Hres as (_ & -> & _). apply list_elem_of_singleton in Hx. subst x. discriminate.
  - destruct Hres as [_ Hall]. rewrite Forall_forall in Hall.
    exists format_type, (c :: url), w, path.
    split; [reflexivity |]. split; [reflexivity |]. split; [exact Hdl |].
    specialize (Hall x Hx). destruct x; exact Hall.
Qed.

(** Whatever a run uploads to the dump channel is the body of the GET
    response for the stored link, whole, and of at most 2 GiB; it is sent
    as a video exactly when the data of the query name the format video. *)
Theorem upload_is_the_download (env : environment) (data : str) (chat_id : Z)
    (s s' : session) (out : error + unit) (c : call) :
  handle_format_selection env data chat_id s = (s', out) ->
  awaited s = [] -> c ∈ awaited s' -> is_upload c = true ->
  exists ch content url resp,
    c = (if bool_decide (format_type_of data = Some (lit "video"))
         then SendVideo ch content else SendDocument ch content) /\
    ch = DUMP_CHANNEL_ID env /\
    Z.of_nat (length content) <= MAX_FILE_SIZE /\
    user_data s !! key = Some url /\
    requests_get (internet env) = GetResponse resp /\
    content = concat (body resp).
Proof.
  intros Hrun Hempty Hc Hup.
  destruct (selection_calls _ _ _ _ _ _ Hrun) as (cs & Haw & Hall).
  rewrite Hempty in Haw. cbn [app] in Haw. rewrite Haw in Hc.
  destruct (Hall c Hc Hup) as (format_type & url & w & path & Hf & Hu & Hdl & Huo).
  destruct (download_effects _ _ _ _ _ _ _ Hdl) as (_ & _ & resp & Hg & Hfile).
  rewrite Hf.
  destruct c as [| | | ch content | ch content | | |]; try discriminate;
    cbn [upload_of disk] in Huo; destruct Huo as (Hv & -> & Hcontent & Hsize);
    rewrite Hfile in Hcontent; injection Hcontent as <-;
    exists (DUMP_CHANNEL_ID env), (concat (body resp)), url, resp.
  - apply is_video_true in Hv. subst format_type.
    rewrite bool_decide_eq_true_2 by reflexivity. repeat split; assumption.
  - rewrite bool_decide_eq_false_2.
    + repeat split; assumption.
    + intros [= ->]. discriminate.
Qed.

Lemma upload_is_the_download_witness :
  exists ch content url resp,
    SendDocument (ChatId (-1001)) (repeat x00 100) =
      (if bool_decide (format_type_of (lit "format_document") = Some (lit "video"))
       then SendVideo ch content else SendDocument ch content) /\
    ch = DUMP_CHANNEL_ID (Scenario.bot Scenario.net_29_71) /\
    Z.of_nat (length content) <= MAX_FILE_SIZE /\
    user_data (Scenario.waiting 1000) !! key = Some url /\
    requests_get (internet (Scenario.bot Scenario.net_29_71)) = GetResponse resp /\
    content = concat (body resp).
Proof.
  apply (upload_is_the_download (Scenario.bot Scenario.net_29_71)
           (lit "format_document") 42 (Scenario.waiting 1000)
           (fst (handle_format_selection (Scenario.bot Scenario.net_29_71)
                   (lit "format_document") 42 (Scenario.waiting 1000)))
           (snd (handle_format_selection (Scenario.bot Scenario.net_29_71)
                   (lit "format_document") 42 (Scenario.waiting 1000)))).
  - apply surjective_pairing.
  - reflexivity.
  - apply list_elem_of_In. vm_compute. do 3 right. left. reflexivity.
  - reflexivity.
Defined.

(** A download that fails is reported by one reply, worded after the
    exception, and nothing is uploaded: after the two calls that open the
    run, that reply is the only call. *)
Theorem failed_download_reported (env : environment) (data : str) (chat_id : Z)
    (s : session) (format_type url : str) (status_msg : message) (w : world)
    (err : download_error) :
  reaches_download env data s format_type url status_msg ->
  download_file url true (tempdir env) (internet env) (disk s) = (w, inl err) ->
  exists s',
    handle_format_selection env data chat_id s =
      (s', match telegram env (ReplyText (error_text
                                 (error_of_download (exception_text env) err))) with
           | Raises e => inl e
           | Returns _ => inr tt
           end) /\
    awaited s' = awaited s ++ [Answer; starting;
                               ReplyText (error_text
                                 (error_of_download (exception_text env) err))].
Proof.
  intros Hr Hdl.
  destruct (handle_format_selection env data chat_id s) as [s' out] eqn:Hrun.
  rewrite (selection_reaches _ _ _ _ _ _ _ Hr) in Hrun.
  apply before_finally in Hrun.
  destruct Hrun as (s1 & w' & res & cs & -> & Hdl' & _ & _ & Haw & _ & Hres).
  cbn [at_try disk] in Hdl'. rewrite Hdl in Hdl'. injection Hdl' as <- <-.
  destruct Hres as (_ & -> & ->). eexists. split; [reflexivity |].
  unfold finally. cbn [awaited]. rewrite Haw. cbn [at_try awaited].
  rewrite <- app_assoc. reflexivity.
Qed.

Lemma failed_download_reported_witness :
  exists s',
    handle_format_selection (Scenario.bot Scenario.net_29_71) (lit "format_video") 42
      (Scenario.waiting 10)
    = (s', match telegram (Scenario.bot Scenario.net_29_71)
                   (ReplyText (error_text
                      (error_of_download
                         (exception_text (Scenario.bot Scenario.net_29_71)) WriteError))) with
           | Raises e => inl e
           | Returns _ => inr tt
           end) /\
    awaited s' = awaited (Scenario.waiting 10) ++
                 [Answer; starting;
                  ReplyText (error_text
                    (error_of_download
                       (exception_text (Scenario.bot Scenario.net_29_71)) WriteError))].
Proof.
  apply (failed_download_reported (Scenario.bot Scenario.net_29_71) (lit "format_video")
           42 (Scenario.waiting 10) (lit "video") Scenario.url Scenario.status
           (fst (download_file Scenario.url true Scenario.temp_dir Scenario.net_29_71
                   (Scenario.disk 10)))).
  - split; [eexists; reflexivity |]. split; [reflexivity |].
    split; [reflexivity |]. split; [discriminate | reflexivity].
  - vm_compute. reflexivity.
Defined.

(** Once the download is reached the stored link is forgotten, however the
    run ends, and the rest of the user data is kept; a second selection
    then finds no link: it answers that the session expired, and neither
    downloads nor uploads anything. *)
Theorem second_selection_expired (env : environment) (data data' : str)
    (chat_id chat_id' : Z) (s s1 : session) (format_type format_type' url : str)
    (status_msg : message) (out : error + unit) :
  reaches_download env data s format_type url status_msg ->
  handle_format_selection env data chat_id s = (s1, out) ->
  format_type_of data' = Some format_type' ->
  user_data s1 !! key = None /\
  (forall k, k <> key -> user_data s1 !! k = user_data s !! k) /\
  exists s2 out',
    handle_format_selection env data' chat_id' s1 = (s2, out') /\
    awaited s2 = awaited s1 ++ [Answer; expired] /\
    disk s2 = disk s1 /\ user_data s2 = user_data s1 /\
    last_update_time s2 = last_update_time s1 /\ scheduled s2 = scheduled s1.
Proof.
  intros Hr Hrun Hf'.
  assert (Hk : user_data s1 = delete key (user_data s)).
  { rewrite (selection_reaches _ _ _ _ _ _ _ Hr) in Hrun.
    apply before_finally in Hrun.
    destruct Hrun as (s0 & w & res & cs & -> & _ & Hu & _).
    unfold finally. cbn [user_data]. rewrite Hu. reflexivity. }
  split; [rewrite Hk; apply lookup_delete_eq |].
  split; [intros k Hne; rewrite Hk; apply lookup_delete_ne; congruence |].
  destruct Hr as ([m Ha] & _).
  unfold handle_format_selection. unfold and_then at 1. unfold await at 1.
  rewrite Ha, Hf'. cbn [user_data]. rewrite Hk, lookup_delete_eq.
  unfold and_then, await, unit_. fold expired.
  cbn [user_data disk last_update_time local_path awaited scheduled].
  destruct (telegram env expired); eexists _, _; (split; [reflexivity |]);
    cbn [awaited disk user_data last_update_time scheduled];
    rewrite <- app_assoc; repeat split.
Qed.

Lemma second_selection_expired_witness :
  user_data (fst (handle_format_selection (Scenario.bot Scenario.net_29_71)
                    (lit "format_video") 42 (Scenario.waiting 1000))) !! key = None /\
  (forall k, k <> key ->
     user_data (fst (handle_format_selection (Scenario.bot Scenario.net_29_71)
                       (lit "format_video") 42 (Scenario.waiting 1000))) !! k
     = user_data (Scenario.waiting 1000) !! k) /\
  exists s2 out',
    handle_format_selection (Scenario.bot Scenario.net_29_71) (lit "format_document") 42
      (fst (handle_format_selection (Scenario.bot Scenario.net_29_71)
              (lit "format_video") 42 (Scenario.waiting 1000)))
    = (s2, out') /\
    awaited s2 =
      awaited (fst (handle_format_selection (Scenario.bot Scenario.net_29_71)
                      (lit "format_video") 42 (Scenario.waiting 1000)))
      ++ [Answer; expired] /\
    disk s2 = disk (fst (handle_format_selection (Scenario.bot Scenario.net_29_71)
                           (lit "format_video") 42 (Scenario.waiting 1000))) /\
    user_data s2
      = user_data (fst (handle_format_selection (Scenario.bot Scenario.net_29_71)
                          (lit "format_video") 42 (Scenario.waiting 1000))) /\
    last_update_time s2
      = last_update_time (fst (handle_format_selection (Scenario.bot Scenario.net_29_71)
                                 (lit "format_video") 42 (Scenario.waiting 1000))) /\
    scheduled s2
      = scheduled (fst (handle_format_selection (Scenario.bot Scenario.net_29_71)
                          (lit "format_video") 42 (Scenario.waiting 1000))).
Proof.
  apply (second_selection_expired (Scenario.bot Scenario.net_29_71) (lit "format_video")
           (lit "format_document") 42 42 (Scenario.waiting 1000) _ (lit "video")
           (lit "document") Scenario.url Scenario.status
           (snd (handle_format_selection (Scenario.bot Scenario.net_29_71)
                   (lit "format_video") 42 (Scenario.waiting 1000)))).
  - split; [eexists; reflexivity |]. split; [reflexivity |].
    split; [reflexivity |]. split; [discriminate | reflexivity].
  - apply surjective_pairing.
  - reflexivity.
Defined.

(** When the download returns a file of at most 2 GiB and every call of the
    Bot API returns, the message sent to the dump channel carrying the file
    id of the chosen kind, the run makes exactly six calls: it answers the
    query, announces the download, announces the upload, sends the file to
    the dump channel, forwards it to the user by its file id, and reports
    that it is done.  The stored link is gone, and so is the temporary
    file unless [os.remove] fails. *)
Theorem delivery (env : environment) (data : str) (chat_id : Z) (s : session)
    (format_type url : str) (status_msg sent : message) (w : world)
    (path file_id : str) (content : list byte) :
  reaches_download env data s format_type url status_msg ->
  download_file url true (tempdir env) (internet env) (disk s) = (w, inr path) ->
  files (fs w) !! path = Some content ->
  Z.of_nat (length content) <= MAX_FILE_SIZE ->
  (exists m, telegram env (upload_started chat_id (message_id status_msg)) = Returns m) ->
  telegram env (send env format_type content) = Returns sent ->
  (if is_video format_type then video sent else document sent) = Some file_id ->
  (exists m, telegram env (forward format_type file_id) = Returns m) ->
  (exists m, telegram env (done chat_id (message_id status_msg) format_type) = Returns m) ->
  exists s',
    handle_format_selection env data chat_id s = (s', inr tt) /\
    awaited s' = awaited s ++
      [Answer; starting; upload_started chat_id (message_id status_msg);
       send env format_type content; forward format_type file_id;
       done chat_id (message_id status_msg) format_type] /\
    files (disk s') !! path
      = (if bool_decide (path ∈ undeletable (disk s)) then Some content else None) /\
    user_data s' !! key = None.
Proof.
  intros Hr Hdl Hfile Hsize [m1 H1] H2 Hid [m3 H3] [m4 H4].
  rewrite (selection_reaches _ _ _ _ _ _ _ Hr).
  unfold try_except_finally. unfold and_then at 1. unfold run_download.
  cbn [at_try disk]. rewrite Hdl.
  destruct (run_callbacks _ _ _) as [edits times].
  unfold deliver. unfold and_then at 1. unfold read_file at 1. cbn [disk].
  rewrite Hfile.
  replace (Z.of_nat (length content) >? MAX_FILE_SIZE) with false
    by (symmetry; rewrite Z.gtb_ltb; apply Z.ltb_ge; lia).
  unfold and_then at 1. unfold await at 1. fold (upload_started chat_id (message_id status_msg)).
  rewrite H1.
  unfold and_then at 1. unfold read_file at 1. cbn [disk]. rewrite Hfile.
  unfold and_then at 1. unfold await at 1. fold (send env format_type content).
  rewrite H2, Hid.
  unfold and_then at 1. unfold await at 1. fold (forward format_type file_id).
  rewrite H3.
  unfold and_then at 1. unfold await at 1.
  fold (done chat_id (message_id status_msg) format_type). rewrite H4.
  unfold unit_. eexists. split; [reflexivity |].
  cbn [user_data disk last_update_time local_path awaited scheduled].
  split; [| split].
  - unfold finally. cbn [awaited at_try]. rewrite <- !app_assoc. reflexivity.
  - destruct (download_effects _ _ _ _ _ _ _ Hdl) as (_ & Hp & _).
    apply local_path_nonempty in Hp.
    unfold finally. cbn [disk local_path].
    destruct path as [| c t]; [contradiction |]. cbn [is_empty negb andb].
    unfold path_exists, os_remove. rewrite Hfile.
    rewrite bool_decide_eq_true_2 by (eexists; reflexivity).
    assert (Hst := download_static url true (tempdir env) (internet env) (disk s)).
    rewrite Hdl in Hst. cbn [fst] in Hst. rewrite Hst.
    destruct (bool_decide _); [exact Hfile | cbn; apply lookup_delete_eq].
  - unfold finally. cbn [user_data]. apply lookup_delete_eq.
Qed.

Lemma delivery_witness :
  exists s',
    handle_format_selection (Scenario.bot Scenario.net_29_71) (lit "format_video") 42
      (Scenario.waiting 1000) = (s', inr tt) /\
    awaited s' = awaited (Scenario.waiting 1000) ++
      [Answer; starting; upload_started 42 (message_id Scenario.status);
       send (Scenario.bot Scenario.net_29_71) (lit "video") (repeat x00 100);
       forward (lit "video") (lit "VID");
       done 42 (message_id Scenario.status) (lit "video")] /\
    files (disk s') !! Scenario.path
      = (if bool_decide (Scenario.path ∈ undeletable (disk (Scenario.waiting 1000)))
         then Some (repeat x00 100) else None) /\
    user_data s' !! key = None.
Proof.
  apply (delivery (Scenario.bot Scenario.net_29_71) (lit "format_video") 42
           (Scenario.waiting 1000) (lit "video") Scenario.url Scenario.status
           {| message_id := 9; video := Some (lit "VID"); document := None |}
           (fst (download_file Scenario.url true Scenario.temp_dir Scenario.net_29_71
                   (Scenario.disk 1000)))).
  - split; [eexists; reflexivity |]. split; [reflexivity |].
    split; [reflexivity |]. split; [discriminate | reflexivity].
  - vm_compute. reflexivity.
  - vm_compute. reflexivity.
  - vm_compute. discriminate.
  - eexists. reflexivity.
  - reflexivity.
  - reflexivity.
  - eexists. reflexivity.
  - eexists. reflexivity.
Defined.

Lemma callback_events_snoc (env : environment) (percents : list Z) (p : Z) :
  callback_events env (percents ++ [p]) =
    callback_events env percents
    ++ [ {| at_time := clock env (length percents);
            loop_running := loop_is_running env (length percents);
            percent := p |} ].
Proof.
  unfold callback_events. rewrite imap_app. cbn [imap].
  rewrite Nat.add_0_r. reflexivity.
Qed.

Lemma last_default_snoc (tr : list Z) (d x : Z) :
  List.last tr d = x -> x <> d -> exists init, tr = init ++ [x].
Proof.
  intros Hl Hne. destruct tr as [| y t _] using rev_ind.
  - cbn in Hl. congruence.
  - rewrite List.last_last in Hl. subst y. exists t. reflexivity.
Qed.

(** When the size is known and no more bytes arrive than announced, a run
    whose download returns schedules the edit for 100 percent last,
    provided the loop is running: the user is never left with a lower
    percentage by the throttle. *)
Theorem completion_edit_scheduled (env : environment) (data : str) (chat_id : Z)
    (s s' : session) (format_type url : str) (status_msg : message)
    (out : error + unit) (w : world) (path : str) (r : response) (T : Z) :
  reaches_download env data s format_type url status_msg ->
  handle_format_selection env data chat_id s = (s', out) ->
  download_file url true (tempdir env) (internet env) (disk s) = (w, inr path) ->
  requests_get (internet env) = GetResponse r ->
  total_size_of url (internet env) = Some T -> 0 < T ->
  total_length (body r) <= T ->
  (forall n, loop_is_running env n = true) ->
  last (scheduled s') = Some 100.
Proof.
  intros Hr Hrun Hdl Hg HT Hpos Hsum Hloop.
  destruct (progress_of_success url (tempdir env) (internet env) (disk s) r T w path
              Hg HT Hpos Hsum Hdl) as (_ & Hlast & _).
  destruct (last_default_snoc _ _ _ Hlast ltac:(lia)) as [init Hrep].
  rewrite (selection_reaches _ _ _ _ _ _ _ Hr) in Hrun.
  apply before_finally in Hrun.
  destruct Hrun as (s1 & w' & res & cs & -> & Hdl' & _ & _ & _ & Hsch & _).
  cbn [at_try disk] in Hdl'. rewrite Hdl in Hdl'. injection Hdl' as <- _.
  unfold finally. cbn [scheduled]. rewrite Hsch, Hrep, callback_events_snoc.
  rewrite run_callbacks_app. cbn [fst]. rewrite map_app.
  match goal with
  | |- context [run_callbacks ?k [?ev] ?m1] =>
      assert (H : fst (run_callbacks k [ev] m1) = [(at_time ev, percent ev)])
  end.
  { cbn [run_callbacks]. unfold progress_callback. cbn [percent loop_running at_time].
    rewrite andb_false_r, Hloop. reflexivity. }
  rewrite H. cbn [List.map snd percent]. rewrite !app_assoc. apply last_snoc.
Qed.

Lemma completion_edit_scheduled_witness :
  last (scheduled (fst (handle_format_selection (Scenario.bot Scenario.net_29_71)
                          (lit "format_video") 42 (Scenario.waiting 1000))))
  = Some 100.
Proof.
  apply (completion_edit_scheduled (Scenario.bot Scenario.net_29_71)
           (lit "format_video") 42 (Scenario.waiting 1000) _ (lit "video")
           Scenario.url Scenario.status
           (snd (handle_format_selection (Scenario.bot Scenario.net_29_71)
                   (lit "format_video") 42 (Scenario.waiting 1000)))
           (fst (download_file Scenario.url true Scenario.temp_dir Scenario.net_29_71
                   (Scenario.disk 1000)))
           Scenario.path
           {| status_code := 200; reason := lit "OK";
              resp_headers := Scenario.no_headers;
              body := [repeat x00 29; repeat x00 71]; body_error := None |}
           100).
  - split; [eexists; reflexivity |]. split; [reflexivity |].
    split; [reflexivity |]. split; [discriminate | reflexivity].
  - apply surjective_pairing.
  - vm_compute. reflexivity.
  - reflexivity.
  - vm_compute. reflexivity.
  - lia.
  - vm_compute. discriminate.
  - reflexivity.
Defined.

End SelectionFacts.
